(** * PDFium addon: handle registry, page cache and deferred regeneration

    A shallow embedding of the native addon under [native/pdfium/src]
    ([common.h], [addon.cc], [document.cc], [objects.cc], [render.cc]) and
    the proofs of its resource-lifecycle properties.

    The addon is a thin layer over the PDFium C library.  PDFium itself is
    not part of the repository: it is taken here as an interface (the class
    [Pdfium]) whose operations act on an abstract library state.  Every
    addon function is translated as a computation over a [World] that
    carries the addon's global variables, the library state, and a log of
    the library calls made so far. *)

From Stdlib Require Import ZArith Strings.Byte Floats.PrimFloat Floats.FloatOps Floats.SpecFloat.
From stdpp Require Import gmap strings list fin_maps pretty sorting.

Open Scope Z_scope.

(** ** Machine-level data *)

(** C++ [int] is 32 bits wide.  Signed overflow is undefined behaviour; the
    checked operations below return [None] for it. *)
Definition INT_MIN : Z := - 2 ^ 31.
Definition INT_MAX : Z := 2 ^ 31 - 1.

Definition in_int_range (z : Z) : bool := (INT_MIN <=? z) && (z <=? INT_MAX).

Definition checked_int (z : Z) : option Z :=
  if in_int_range z then Some z else None.

(** Conversion of an unsigned size to [int]: reduction modulo 2^32 into the
    signed range. *)
Definition wrap_int (z : Z) : Z := (z + 2 ^ 31) mod 2 ^ 32 - 2 ^ 31.

(** [unsigned long] arithmetic (64 bits) wraps around. *)
Definition wrap_ulong (z : Z) : Z := z mod 2 ^ 64.

(** Opaque PDFium pointers.  A value of one of these types is a non-null
    address; a nullable pointer is an [option]. *)
Definition FPDF_DOCUMENT := positive.
Definition FPDF_PAGE := positive.
Definition FPDF_PAGEOBJECT := positive.
Definition FPDF_TEXTPAGE := positive.

(** UTF-16 code units of a [std::u16string]. *)
Definition u16string := list Z.

(** Constants of PDFium's public headers ([fpdfview.h], [fpdf_edit.h]). *)
Definition FPDF_ERR_SUCCESS : Z := 0.
Definition FPDF_ERR_UNKNOWN : Z := 1.
Definition FPDF_ERR_FILE : Z := 2.
Definition FPDF_ERR_FORMAT : Z := 3.
Definition FPDF_ERR_PASSWORD : Z := 4.
Definition FPDF_ERR_SECURITY : Z := 5.
Definition FPDF_ERR_PAGE : Z := 6.

Definition FPDF_PAGEOBJ_TEXT : Z := 1.
Definition FPDF_PAGEOBJ_PATH : Z := 2.
Definition FPDF_PAGEOBJ_IMAGE : Z := 3.
Definition FPDF_PAGEOBJ_SHADING : Z := 4.
Definition FPDF_PAGEOBJ_FORM : Z := 5.

Definition FPDF_ANNOT : Z := 1.
Definition FPDF_LCD_TEXT : Z := 2.
Definition FPDF_PRINTING : Z := 2048.
Definition FPDFBitmap_BGRA : Z := 4.

(** ** The PDFium interface

    Operations that read or change library-owned objects take the library
    state and, when they change it, return the new one.  A bitmap is owned
    by the single addon function that creates it and is destroyed before
    that function returns, so the bitmap operations are functions on bitmap
    values. *)

Record FileAccess := {
  m_FileLen : Z;
  m_GetBlock : Z -> Z -> option (list byte)
}.

Class Pdfium := {
  LibState : Type;
  Bitmap : Type;
  FPDF_InitLibraryWithConfig : LibState -> LibState;
  FPDF_DestroyLibrary : LibState -> LibState;
  FPDF_LoadMemDocument :
    LibState -> list byte -> Z -> option string -> option FPDF_DOCUMENT * LibState;
  FPDF_GetLastError : LibState -> Z;
  FPDF_CloseDocument : LibState -> FPDF_DOCUMENT -> LibState;
  FPDF_GetPageCount : LibState -> FPDF_DOCUMENT -> Z;
  (* The blocks handed to the write callback, in order, and the result. *)
  FPDF_SaveAsCopy : LibState -> FPDF_DOCUMENT -> Z -> (list (list byte) * bool) * LibState;
  FPDF_LoadPage : LibState -> FPDF_DOCUMENT -> Z -> option FPDF_PAGE * LibState;
  FPDF_ClosePage : LibState -> FPDF_PAGE -> LibState;
  FPDFPage_GenerateContent : LibState -> FPDF_PAGE -> bool * LibState;
  FPDF_GetPageWidthF : LibState -> FPDF_PAGE -> float;
  FPDF_GetPageHeightF : LibState -> FPDF_PAGE -> float;
  FPDFPage_CountObjects : LibState -> FPDF_PAGE -> Z;
  FPDFPage_GetObject : LibState -> FPDF_PAGE -> Z -> option FPDF_PAGEOBJECT;
  FPDFPageObj_GetType : LibState -> option FPDF_PAGEOBJECT -> Z;
  (* left, bottom, right, top when the call succeeds *)
  FPDFPageObj_GetBounds :
    LibState -> option FPDF_PAGEOBJECT -> option (float * float * float * float);
  FPDFText_LoadPage : LibState -> FPDF_PAGE -> option FPDF_TEXTPAGE * LibState;
  FPDFText_ClosePage : LibState -> FPDF_TEXTPAGE -> LibState;
  (* The text of an object as UTF-16 code units, terminating NUL included;
     its length in bytes is what the sizing call returns. *)
  FPDFTextObj_GetText :
    LibState -> option FPDF_PAGEOBJECT -> FPDF_TEXTPAGE -> u16string;
  FPDFText_SetText : LibState -> option FPDF_PAGEOBJECT -> u16string -> bool * LibState;
  FPDFImageObj_LoadJpegFileInline :
    LibState -> FPDF_PAGE -> option FPDF_PAGEOBJECT -> FileAccess -> bool * LibState;
  FPDFImageObj_SetBitmap :
    LibState -> FPDF_PAGE -> option FPDF_PAGEOBJECT -> Bitmap -> bool * LibState;
  FPDFBitmap_Create : Z -> Z -> Z -> option Bitmap;
  FPDFBitmap_CreateEx : Z -> Z -> Z -> list byte -> Z -> option Bitmap;
  FPDFBitmap_FillRect : Bitmap -> Z -> Z -> Z -> Z -> Z -> Bitmap;
  FPDF_RenderPageBitmap :
    LibState -> Bitmap -> FPDF_PAGE -> Z -> Z -> Z -> Z -> Z -> Z -> Bitmap;
  FPDFBitmap_GetBuffer : Bitmap -> list byte;
  FPDFBitmap_GetStride : Bitmap -> Z
}.

(** ** Library calls, as logged *)

Inductive LibCall :=
| CallInitLibrary
| CallDestroyLibrary
| CallLoadMemDocument (res : option FPDF_DOCUMENT)
| CallCloseDocument (doc : FPDF_DOCUMENT)
| CallSaveAsCopy (doc : FPDF_DOCUMENT) (ok : bool)
| CallLoadPage (doc : FPDF_DOCUMENT) (pageIndex : Z) (res : option FPDF_PAGE)
| CallClosePage (pg : FPDF_PAGE)
| CallGenerateContent (pg : FPDF_PAGE) (ok : bool)
| CallTextLoadPage (pg : FPDF_PAGE) (res : option FPDF_TEXTPAGE)
| CallTextClosePage (tp : FPDF_TEXTPAGE)
| CallSetText (obj : option FPDF_PAGEOBJECT) (text : u16string) (ok : bool)
| CallLoadJpegFileInline (pg : FPDF_PAGE) (obj : option FPDF_PAGEOBJECT) (ok : bool)
| CallSetBitmap (pg : FPDF_PAGE) (obj : option FPDF_PAGEOBJECT) (ok : bool)
| CallRenderPageBitmap (pg : FPDF_PAGE) (width height : Z).

(** ** Outcome of an exported function *)

Inductive JsErrorClass := JsError | JsTypeError | JsRangeError.

Inductive Outcome (A : Type) :=
| Ok (a : A)
| Throw (cls : JsErrorClass) (msg : string)
| Undefined.
Arguments Ok {A} a.
Arguments Throw {A} cls msg.
Arguments Undefined {A}.

(** [std::to_string] on an [int]. *)
Definition to_string (z : Z) : string := pretty z.

(** ** common.h: shared state *)

Record CachedPage := {
  page : FPDF_PAGE;
  dirty : bool
}.

Section Addon.
Context `{PDF : Pdfium}.

Record World := {
  g_documents : gmap Z FPDF_DOCUMENT;
  g_pageCache : gmap Z (gmap Z CachedPage);
  g_nextHandle : Z;
  g_initialized : bool;
  lib : LibState;
  trace : list LibCall
}.

Definition set_documents (f : gmap Z FPDF_DOCUMENT -> gmap Z FPDF_DOCUMENT) (w : World) : World :=
  {| g_documents := f (g_documents w); g_pageCache := g_pageCache w;
     g_nextHandle := g_nextHandle w; g_initialized := g_initialized w;
     lib := lib w; trace := trace w |}.

Definition set_pageCache
    (f : gmap Z (gmap Z CachedPage) -> gmap Z (gmap Z CachedPage)) (w : World) : World :=
  {| g_documents := g_documents w; g_pageCache := f (g_pageCache w);
     g_nextHandle := g_nextHandle w; g_initialized := g_initialized w;
     lib := lib w; trace := trace w |}.

Definition set_nextHandle (n : Z) (w : World) : World :=
  {| g_documents := g_documents w; g_pageCache := g_pageCache w;
     g_nextHandle := n; g_initialized := g_initialized w;
     lib := lib w; trace := trace w |}.

Definition set_initialized (b : bool) (w : World) : World :=
  {| g_documents := g_documents w; g_pageCache := g_pageCache w;
     g_nextHandle := g_nextHandle w; g_initialized := b;
     lib := lib w; trace := trace w |}.

(** A library call: the library state moves on and the call is logged. *)
Definition lib_step (l : LibState) (c : LibCall) (w : World) : World :=
  {| g_documents := g_documents w; g_pageCache := g_pageCache w;
     g_nextHandle := g_nextHandle w; g_initialized := g_initialized w;
     lib := l; trace := trace w ++ [c] |}.

(** The state at module load (addon.cc, global state definitions). *)
Definition initial_world (l : LibState) : World :=
  {| g_documents := ∅; g_pageCache := ∅; g_nextHandle := 1;
     g_initialized := false; lib := l; trace := [] |}.

(** ** Computations: state passing with a pending JavaScript exception *)

Definition M (A : Type) : Type := World -> Outcome A * World.

Definition ret {A} (a : A) : M A := fun w => (Ok a, w).

Definition bind {A B} (c : M A) (k : A -> M B) : M B :=
  fun w =>
    match c w with
    | (Ok a, w') => k a w'
    | (Throw cls msg, w') => (Throw cls msg, w')
    | (Undefined, w') => (Undefined, w')
    end.

Definition throw {A} (cls : JsErrorClass) (msg : string) : M A :=
  fun w => (Throw cls msg, w).

Definition undefined_behaviour {A} : M A := fun w => (Undefined, w).

Definition get_world : M World := fun w => (Ok w, w).

Definition update (f : World -> World) : M unit := fun w => (Ok tt, f w).

Definition call {A} (f : LibState -> A * LibState) (ev : A -> LibCall) : M A :=
  fun w => let '(a, l) := f (lib w) in (Ok a, lib_step l (ev a) w).

Definition call_ (f : LibState -> LibState) (ev : LibCall) : M unit :=
  fun w => (Ok tt, lib_step (f (lib w)) ev w).

Definition query {A} (f : LibState -> A) : M A := fun w => (Ok (f (lib w)), w).

Definition checked {A} (o : option A) : M A :=
  match o with Some a => ret a | None => undefined_behaviour end.

Notation "'let*' x ':=' c 'in' k" := (bind c (fun x => k))
  (at level 10, x name, c at level 100, k at level 200).
Notation "'let*' ' p ':=' c 'in' k" := (bind c (fun x => match x with p => k end))
  (at level 10, p pattern, c at level 100, k at level 200).
Notation "c ';;' k" := (bind c (fun _ => k))
  (at level 100, k at level 200, right associativity).

(** ** addon.cc *)

Definition EnsurePdfiumInit : M unit :=
  let* w := get_world in
  if g_initialized w then ret tt
  else
    call_ FPDF_InitLibraryWithConfig CallInitLibrary;;
    update (set_initialized true).

Definition RequireDocument (handle : Z) : M FPDF_DOCUMENT :=
  let* w := get_world in
  match g_documents w !! handle with
  | None => throw JsError ("Invalid document handle: " +:+ to_string handle)
  | Some doc => ret doc
  end.

(** Returns the page (null when the load fails) and [fromCache]. *)
Definition AcquirePage (handle : Z) (doc : FPDF_DOCUMENT) (pageIndex : Z)
    : M (option FPDF_PAGE * bool) :=
  let* w := get_world in
  match g_pageCache w !! handle ≫= (.!! pageIndex) with
  | Some cp => ret (Some (page cp), true)
  | None =>
      let* pg := call (fun l => FPDF_LoadPage l doc pageIndex) (CallLoadPage doc pageIndex) in
      ret (pg, false)
  end.

Definition ReleasePage (handle pageIndex : Z) (pg : FPDF_PAGE) (fromCache : bool) : M unit :=
  if negb fromCache then call_ (fun l => FPDF_ClosePage l pg) (CallClosePage pg)
  else ret tt.

(** [g_pageCache[handle][pageIndex] = { page, true }]: both subscripts
    create the entry when it is missing. *)
Definition CachePageDirty (handle pageIndex : Z) (pg : FPDF_PAGE) : M unit :=
  update (set_pageCache (fun cache =>
    <[handle := <[pageIndex := {| page := pg; dirty := true |}]>
                  (default ∅ (cache !! handle))]> cache)).

(** Iteration over a [std::map] visits the keys in ascending order. *)
Definition key_le {V} (a b : Z * V) : Prop := a.1 ≤ b.1.

Global Instance key_le_dec {V} (a b : Z * V) : Decision (key_le a b).
Proof. unfold key_le. apply _. Defined.

Definition entries {V} (m : gmap Z V) : list (Z * V) :=
  merge_sort key_le (map_to_list m).

Fixpoint flush_loop (es : list (Z * CachedPage)) (allOk : bool) : M bool :=
  match es with
  | [] => ret allOk
  | (_, cp) :: rest =>
      let* allOk :=
        (if dirty cp then
           let* ok := call (fun l => FPDFPage_GenerateContent l (page cp))
                           (CallGenerateContent (page cp)) in
           ret (if negb ok then false else allOk)
         else ret allOk) in
      call_ (fun l => FPDF_ClosePage l (page cp)) (CallClosePage (page cp));;
      flush_loop rest allOk
  end.

Definition FlushAndCloseCachedPages (handle : Z) : M bool :=
  let* w := get_world in
  match g_pageCache w !! handle with
  | None => ret true
  | Some pages =>
      let* allOk := flush_loop (entries pages) true in
      update (set_pageCache (delete handle));;
      ret allOk
  end.

Fixpoint close_loop (es : list (Z * CachedPage)) : M unit :=
  match es with
  | [] => ret tt
  | (_, cp) :: rest =>
      call_ (fun l => FPDF_ClosePage l (page cp)) (CallClosePage (page cp));;
      close_loop rest
  end.

Definition DiscardCachedPages (handle : Z) : M unit :=
  let* w := get_world in
  match g_pageCache w !! handle with
  | None => ret tt
  | Some pages =>
      close_loop (entries pages);;
      update (set_pageCache (delete handle))
  end.

Fixpoint cleanup_pages (hs : list (Z * gmap Z CachedPage)) : M unit :=
  match hs with
  | [] => ret tt
  | (_, pages) :: rest => close_loop (entries pages);; cleanup_pages rest
  end.

Fixpoint cleanup_documents (ds : list (Z * FPDF_DOCUMENT)) : M unit :=
  match ds with
  | [] => ret tt
  | (_, doc) :: rest =>
      call_ (fun l => FPDF_CloseDocument l doc) (CallCloseDocument doc);;
      cleanup_documents rest
  end.

Definition Cleanup : M unit :=
  let* w := get_world in
  cleanup_pages (entries (g_pageCache w));;
  update (set_pageCache (fun _ => ∅));;
  cleanup_documents (entries (g_documents w));;
  update (set_documents (fun _ => ∅));;
  let* w := get_world in
  if g_initialized w then
    call_ FPDF_DestroyLibrary CallDestroyLibrary;;
    update (set_initialized false)
  else ret tt.


(** ** document.cc *)

Definition GetPdfiumErrorMessage (err : Z) : string :=
  if decide (err = FPDF_ERR_SUCCESS) then "Success"
  else if decide (err = FPDF_ERR_UNKNOWN) then "Unknown error"
  else if decide (err = FPDF_ERR_FILE) then "File not found or could not be opened"
  else if decide (err = FPDF_ERR_FORMAT) then "Invalid or corrupted PDF format"
  else if decide (err = FPDF_ERR_PASSWORD) then "Password required or incorrect password"
  else if decide (err = FPDF_ERR_SECURITY) then "Unsupported security scheme"
  else if decide (err = FPDF_ERR_PAGE) then "Page not found or content error"
  else "Unrecognised PDFium error".

(** [buffer] is the first argument when it is a Buffer, and [None] when it
    is missing or is not one; [password] is the second argument when it is a
    string.  The library is initialised before the first argument is
    checked. *)
Definition OpenDocument (buffer : option (list byte)) (password : option string) : M Z :=
  EnsurePdfiumInit;;
  match buffer with
  | None => throw JsTypeError "openDocument: first argument must be a Buffer"
  | Some buffer =>
      let* doc := call (fun l => FPDF_LoadMemDocument l buffer
                                    (wrap_int (Z.of_nat (length buffer))) password)
                       CallLoadMemDocument in
      match doc with
      | None =>
          let* err := query FPDF_GetLastError in
          throw JsError (GetPdfiumErrorMessage err)
      | Some doc =>
          let* w := get_world in
          let handle := g_nextHandle w in
          let* next := checked (checked_int (handle + 1)) in
          update (set_nextHandle next);;
          update (set_documents <[handle := doc]>);;
          ret handle
      end
  end.

Definition CloseDocument (handle : Z) : M unit :=
  let* w := get_world in
  match g_documents w !! handle with
  | None => throw JsError ("closeDocument: invalid handle " +:+ to_string handle)
  | Some doc =>
      DiscardCachedPages handle;;
      call_ (fun l => FPDF_CloseDocument l doc) (CallCloseDocument doc);;
      update (set_documents (delete handle))
  end.

Definition GetPageCount (handle : Z) : M Z :=
  let* doc := RequireDocument handle in
  query (fun l => FPDF_GetPageCount l doc).

(** [WriteBlockCallback] appends each block to [writer.data] and reports
    success. *)
Definition WriteBlockCallback (data : list byte) (bytes : list byte) : list byte * Z :=
  (data ++ bytes, 1).

Definition write_blocks (blocks : list (list byte)) : list byte :=
  foldl (fun data bytes => (WriteBlockCallback data bytes).1) [] blocks.

Definition SaveDocument (handle : Z) : M (list byte) :=
  let* doc := RequireDocument handle in
  let* flushed := FlushAndCloseCachedPages handle in
  if negb flushed then
    throw JsError "saveDocument: FPDFPage_GenerateContent failed for a dirty page"
  else
    let* '(blocks, ok) := call (fun l => FPDF_SaveAsCopy l doc 0)
                               (fun r => CallSaveAsCopy doc r.2) in
    if negb ok then throw JsError "saveDocument: FPDF_SaveAsCopy failed"
    else ret (write_blocks blocks).

(** ** objects.cc *)

Definition GetObjectTypeName (type : Z) : string :=
  if decide (type = FPDF_PAGEOBJ_TEXT) then "text"
  else if decide (type = FPDF_PAGEOBJ_PATH) then "path"
  else if decide (type = FPDF_PAGEOBJ_IMAGE) then "image"
  else if decide (type = FPDF_PAGEOBJ_SHADING) then "shading"
  else if decide (type = FPDF_PAGEOBJ_FORM) then "form"
  else "unknown".

Record PageObjectEntry := {
  entry_id : Z;
  entry_type : string;
  entry_left : float;
  entry_top : float;
  entry_right : float;
  entry_bottom : float;
  entry_text : option u16string
}.

(** The buffer filled by [FPDFTextObj_GetText], with a trailing NUL
    stripped. *)
Definition strip_trailing_nul (buf : u16string) : u16string :=
  match last buf with
  | Some 0 => take (length buf - 1)%nat buf
  | _ => buf
  end.

(** One iteration of the loop of [ListPageObjects]. *)
Definition list_entry (l : LibState) (pg : FPDF_PAGE) (textPage : option FPDF_TEXTPAGE)
    (i : Z) : PageObjectEntry :=
  let obj := FPDFPage_GetObject l pg i in
  let type := FPDFPageObj_GetType l obj in
  let '(x0, y0, x1, y1) :=
    default (0%float, 0%float, 0%float, 0%float) (FPDFPageObj_GetBounds l obj) in
  {| entry_id := i;
     entry_type := GetObjectTypeName type;
     entry_left := x0; entry_top := y1; entry_right := x1; entry_bottom := y0;
     entry_text :=
       match textPage with
       | Some tp =>
           if decide (type = FPDF_PAGEOBJ_TEXT) then
             let buf := FPDFTextObj_GetText l obj tp in
             if decide (0 < 2 * Z.of_nat (length buf))
             then Some (strip_trailing_nul buf) else Some []
           else None
       | None => None
       end |}.

Definition ListPageObjects (handle pageIndex : Z) : M (list PageObjectEntry) :=
  let* doc := RequireDocument handle in
  let* '(pg, fromCache) := AcquirePage handle doc pageIndex in
  match pg with
  | None => throw JsError ("listPageObjects: failed to load page " +:+ to_string pageIndex)
  | Some pg =>
      let* objCount := query (fun l => FPDFPage_CountObjects l pg) in
      let* textPage := call (fun l => FPDFText_LoadPage l pg) (CallTextLoadPage pg) in
      let* result := query (fun l => list_entry l pg textPage <$> seqZ 0 objCount) in
      match textPage with
      | Some tp => call_ (fun l => FPDFText_ClosePage l tp) (CallTextClosePage tp)
      | None => ret tt
      end;;
      ReleasePage handle pageIndex pg fromCache;;
      ret result
  end.

(** What a callee reads through [s.c_str()]: the code units before the
    first U+0000. *)
Fixpoint c_str (s : u16string) : u16string :=
  match s with
  | [] => []
  | c :: rest => if decide (c = 0) then [] else c :: c_str rest
  end.

(** The range message shared by the three edit functions. *)
Definition out_of_range (fn : string) (objectId objCount : Z) : M string :=
  let* hi := checked (checked_int (objCount - 1)) in
  ret (fn +:+ ": objectId " +:+ to_string objectId +:+
       " out of range [0, " +:+ to_string hi +:+ "]").

Definition EditTextObject (handle pageIndex objectId : Z) (newText : u16string) : M unit :=
  let* doc := RequireDocument handle in
  let* '(pg, fromCache) := AcquirePage handle doc pageIndex in
  match pg with
  | None => throw JsError ("editTextObject: failed to load page " +:+ to_string pageIndex)
  | Some pg =>
      let* objCount := query (fun l => FPDFPage_CountObjects l pg) in
      if decide (objectId < 0 ∨ objectId >= objCount) then
        ReleasePage handle pageIndex pg fromCache;;
        let* msg := out_of_range "editTextObject" objectId objCount in
        throw JsRangeError msg
      else
        let* obj := query (fun l => FPDFPage_GetObject l pg objectId) in
        let* type := query (fun l => FPDFPageObj_GetType l obj) in
        if decide (type ≠ FPDF_PAGEOBJ_TEXT) then
          ReleasePage handle pageIndex pg fromCache;;
          throw JsTypeError ("editTextObject: object " +:+ to_string objectId +:+
                             " is not a text object")
        else
          let* ok := call (fun l => FPDFText_SetText l obj (c_str newText))
                          (CallSetText obj (c_str newText)) in
          if negb ok then
            ReleasePage handle pageIndex pg fromCache;;
            throw JsError "editTextObject: FPDFText_SetText failed"
          else
            CachePageDirty handle pageIndex pg
  end.

(** Read callback over an in-memory buffer; [position + size] is computed
    in [unsigned long]. *)
Definition BufferReadBlock (data : list byte) (position size : Z) : option (list byte) :=
  if decide (wrap_ulong (position + size) > Z.of_nat (length data)) then None
  else Some (take (Z.to_nat size) (drop (Z.to_nat position) data)).

Definition BufferFileAccess (data : list byte) : FileAccess :=
  {| m_FileLen := Z.of_nat (length data); m_GetBlock := BufferReadBlock data |}.

Definition ReplaceImageObject (handle pageIndex objectId : Z)
    (imageData : list byte) (fmt : string) : M unit :=
  let* doc := RequireDocument handle in
  let* '(pg, fromCache) := AcquirePage handle doc pageIndex in
  match pg with
  | None => throw JsError ("replaceImageObject: failed to load page " +:+ to_string pageIndex)
  | Some pg =>
      let* objCount := query (fun l => FPDFPage_CountObjects l pg) in
      if decide (objectId < 0 ∨ objectId >= objCount) then
        ReleasePage handle pageIndex pg fromCache;;
        let* msg := out_of_range "replaceImageObject" objectId objCount in
        throw JsRangeError msg
      else
        let* obj := query (fun l => FPDFPage_GetObject l pg objectId) in
        let* type := query (fun l => FPDFPageObj_GetType l obj) in
        if decide (type ≠ FPDF_PAGEOBJ_IMAGE) then
          ReleasePage handle pageIndex pg fromCache;;
          throw JsTypeError ("replaceImageObject: object " +:+ to_string objectId +:+
                             " is not an image object")
        else
          let* ok :=
            (if decide (fmt = "jpeg") then
               call (fun l => FPDFImageObj_LoadJpegFileInline l pg obj
                                (BufferFileAccess imageData))
                    (CallLoadJpegFileInline pg obj)
             else
               ReleasePage handle pageIndex pg fromCache;;
               throw JsError
                 ("replaceImageObject: only 'jpeg' format is currently supported. " +:+
                  "Convert other formats to JPEG before calling this function.")) in
          if negb ok then
            ReleasePage handle pageIndex pg fromCache;;
            throw JsError "replaceImageObject: failed to load replacement image"
          else
            CachePageDirty handle pageIndex pg
  end.

Definition BYTES_PER_PIXEL : Z := 4.

Definition ReplaceImageObjectBitmap (handle pageIndex objectId : Z)
    (bgraData : list byte) (width height : Z) : M unit :=
  let* area := checked (checked_int (width * height)) in
  let* expectedSize := checked (checked_int (area * BYTES_PER_PIXEL)) in
  if decide (wrap_int (Z.of_nat (length bgraData)) < expectedSize) then
    throw JsRangeError
      ("replaceImageObjectBitmap: bgraData buffer too small. " +:+
       "Expected " +:+ to_string expectedSize +:+ " bytes for " +:+
       to_string width +:+ "x" +:+ to_string height +:+ " BGRA")
  else
  let* doc := RequireDocument handle in
  let* '(pg, fromCache) := AcquirePage handle doc pageIndex in
  match pg with
  | None =>
      throw JsError ("replaceImageObjectBitmap: failed to load page " +:+ to_string pageIndex)
  | Some pg =>
      let* objCount := query (fun l => FPDFPage_CountObjects l pg) in
      if decide (objectId < 0 ∨ objectId >= objCount) then
        ReleasePage handle pageIndex pg fromCache;;
        let* msg := out_of_range "replaceImageObjectBitmap" objectId objCount in
        throw JsRangeError msg
      else
        let* obj := query (fun l => FPDFPage_GetObject l pg objectId) in
        let* type := query (fun l => FPDFPageObj_GetType l obj) in
        if decide (type ≠ FPDF_PAGEOBJ_IMAGE) then
          ReleasePage handle pageIndex pg fromCache;;
          throw JsTypeError ("replaceImageObjectBitmap: object " +:+ to_string objectId +:+
                             " is not an image object")
        else
          let* stride := checked (checked_int (width * BYTES_PER_PIXEL)) in
          match FPDFBitmap_CreateEx width height FPDFBitmap_BGRA bgraData stride with
          | None =>
              ReleasePage handle pageIndex pg fromCache;;
              throw JsError "replaceImageObjectBitmap: FPDFBitmap_CreateEx failed"
          | Some bitmap =>
              let* ok := call (fun l => FPDFImageObj_SetBitmap l pg obj bitmap)
                              (CallSetBitmap pg obj) in
              if negb ok then
                ReleasePage handle pageIndex pg fromCache;;
                throw JsError "replaceImageObjectBitmap: FPDFImageObj_SetBitmap failed"
              else
                CachePageDirty handle pageIndex pg
          end
  end.

(** ** render.cc *)

Definition RENDER_FLAGS : Z := Z.lor (Z.lor FPDF_ANNOT FPDF_PRINTING) FPDF_LCD_TEXT.

(** [static_cast<int>] on a [double]: the fractional part is discarded; the
    behaviour is undefined when the truncated value is not an [int] (NaN
    and the infinities included). *)
Definition double_to_int (x : float) : option Z :=
  match Prim2SF x with
  | S754_zero _ => Some 0
  | S754_finite s m e =>
      let magnitude := Z.shiftl (Z.pos m) e in
      checked_int (if s then - magnitude else magnitude)
  | S754_infinity _ | S754_nan => None
  end.

(** The object returned to JavaScript: [{ data, width, height }]. *)
Record RenderResult := {
  res_data : list byte;
  res_width : Z;
  res_height : Z
}.

Definition read_byte (src : list byte) (i : Z) : option byte :=
  if decide (0 ≤ i) then src !! Z.to_nat i else None.

(** One pixel of the BGRA to RGBA copy; reading outside the source buffer
    is undefined. *)
Definition convert_pixel (src : list byte) (stride y x : Z) : option (list byte) :=
  let si := y * stride + x * BYTES_PER_PIXEL in
  r ← read_byte src (si + 2);
  g ← read_byte src (si + 1);
  b ← read_byte src (si + 0);
  a ← read_byte src (si + 3);
  Some [r; g; b; a].

Definition convert_rows (src : list byte) (stride width height : Z) : option (list byte) :=
  @concat byte <$>
    mapM (fun y => @concat byte <$> mapM (convert_pixel src stride y) (seqZ 0 width))
         (seqZ 0 height).

Definition RenderPage (handle pageIndex : Z) (scale : float) : M RenderResult :=
  let* doc := RequireDocument handle in
  let* pageCount := query (fun l => FPDF_GetPageCount l doc) in
  if decide (pageIndex < 0 ∨ pageIndex >= pageCount) then
    let* hi := checked (checked_int (pageCount - 1)) in
    throw JsRangeError ("renderPage: pageIndex " +:+ to_string pageIndex +:+
                        " out of range [0, " +:+ to_string hi +:+ "]")
  else if (scale <=? 0)%float then
    throw JsRangeError "renderPage: scale must be > 0"
  else
  let* '(pg, fromCache) := AcquirePage handle doc pageIndex in
  match pg with
  | None => throw JsError ("renderPage: failed to load page " +:+ to_string pageIndex)
  | Some pg =>
      let* pageWidthPt := query (fun l => FPDF_GetPageWidthF l pg) in
      let* pageHeightPt := query (fun l => FPDF_GetPageHeightF l pg) in
      let* width := checked (double_to_int (pageWidthPt * scale + 0.5)%float) in
      let* height := checked (double_to_int (pageHeightPt * scale + 0.5)%float) in
      if decide (width ≤ 0 ∨ height ≤ 0) then
        ReleasePage handle pageIndex pg fromCache;;
        throw JsError "renderPage: resulting bitmap size is zero"
      else
        match FPDFBitmap_Create width height 1 with
        | None =>
            ReleasePage handle pageIndex pg fromCache;;
            throw JsError "renderPage: FPDFBitmap_Create failed"
        | Some bitmap =>
            let bitmap := FPDFBitmap_FillRect bitmap 0 0 width height 0xFFFFFFFF in
            let* bitmap :=
              call (fun l => (FPDF_RenderPageBitmap l bitmap pg 0 0 width height 0
                                RENDER_FLAGS, l))
                   (fun _ => CallRenderPageBitmap pg width height) in
            let src := FPDFBitmap_GetBuffer bitmap in
            let stride := FPDFBitmap_GetStride bitmap in
            let* pixels := checked (convert_rows src stride width height) in
            ReleasePage handle pageIndex pg fromCache;;
            ret {| res_data := pixels; res_width := width; res_height := height |}
        end
  end.

End Addon.

(** ** A small concrete library

    A stand-in for PDFium used to run the addon on concrete inputs: every
    document has [toy_pageCount] pages that all carry the objects
    [toy_objects] (given by their types) and measure [toy_width] by
    [toy_height] points.  The page with index [i] is loaded at address
    [i + 1].  The state records which pages are open. *)

Record ToyState := {
  toy_pageCount : Z;
  toy_objects : list Z;
  toy_width : float;
  toy_height : float;
  toy_regen_fails : list FPDF_PAGE;
  toy_save_ok : bool;
  toy_mutate_ok : bool;
  toy_open : list FPDF_PAGE
}.

Definition toy_set_open (f : list FPDF_PAGE -> list FPDF_PAGE) (l : ToyState) : ToyState :=
  {| toy_pageCount := toy_pageCount l; toy_objects := toy_objects l;
     toy_width := toy_width l; toy_height := toy_height l;
     toy_regen_fails := toy_regen_fails l; toy_save_ok := toy_save_ok l;
     toy_mutate_ok := toy_mutate_ok l; toy_open := f (toy_open l) |}.

Record ToyBitmap := {
  bm_width : Z;
  bm_height : Z;
  bm_stride : Z;
  bm_buffer : list byte
}.

Definition toy_load_page (l : ToyState) (doc : FPDF_DOCUMENT) (i : Z)
    : option FPDF_PAGE * ToyState :=
  if decide (0 ≤ i < toy_pageCount l)
  then (Some (Z.to_pos (i + 1)), toy_set_open (cons (Z.to_pos (i + 1))) l)
  else (None, l).

Definition toy_close_page (l : ToyState) (pg : FPDF_PAGE) : ToyState :=
  toy_set_open (filter (fun q => q ≠ pg)) l.

Definition toy_get_object (l : ToyState) (pg : FPDF_PAGE) (i : Z) : option FPDF_PAGEOBJECT :=
  if decide (0 ≤ i < Z.of_nat (length (toy_objects l))) then Some (Z.to_pos (i + 1)) else None.

Definition toy_get_type (l : ToyState) (obj : option FPDF_PAGEOBJECT) : Z :=
  match obj with
  | Some o => default 0 (toy_objects l !! (Pos.to_nat o - 1)%nat)
  | None => 0
  end.

Definition toy_bitmap (w h stride : Z) (buf : list byte) : ToyBitmap :=
  {| bm_width := w; bm_height := h; bm_stride := stride; bm_buffer := buf |}.

Definition toy_pdfium : Pdfium := {|
  LibState := ToyState;
  Bitmap := ToyBitmap;
  FPDF_InitLibraryWithConfig := fun l => l;
  FPDF_DestroyLibrary := fun l => l;
  FPDF_LoadMemDocument := fun l buf _ _ =>
    (match buf with [] => None | _ => Some 1%positive end, l);
  FPDF_GetLastError := fun _ => FPDF_ERR_FORMAT;
  FPDF_CloseDocument := fun l _ => l;
  FPDF_GetPageCount := fun l _ => toy_pageCount l;
  FPDF_SaveAsCopy := fun l _ _ => (([["%"; "P"; "D"; "F"]%byte], toy_save_ok l), l);
  FPDF_LoadPage := toy_load_page;
  FPDF_ClosePage := toy_close_page;
  FPDFPage_GenerateContent := fun l pg => (bool_decide (pg ∉ toy_regen_fails l), l);
  FPDF_GetPageWidthF := fun l _ => toy_width l;
  FPDF_GetPageHeightF := fun l _ => toy_height l;
  FPDFPage_CountObjects := fun l _ => Z.of_nat (length (toy_objects l));
  FPDFPage_GetObject := toy_get_object;
  FPDFPageObj_GetType := toy_get_type;
  FPDFPageObj_GetBounds := fun _ _ => Some (0%float, 0%float, 1%float, 1%float);
  FPDFText_LoadPage := fun l _ => (Some 1%positive, l);
  FPDFText_ClosePage := fun l _ => l;
  FPDFTextObj_GetText := fun _ _ _ => [72; 105; 0];
  FPDFText_SetText := fun l _ _ => (toy_mutate_ok l, l);
  FPDFImageObj_LoadJpegFileInline := fun l _ _ _ => (toy_mutate_ok l, l);
  FPDFImageObj_SetBitmap := fun l _ _ _ => (toy_mutate_ok l, l);
  FPDFBitmap_Create := fun w h _ =>
    Some (toy_bitmap w h (w * 4) (replicate (Z.to_nat (w * h * 4)) "000"%byte));
  FPDFBitmap_CreateEx := fun w h _ buf stride => Some (toy_bitmap w h stride buf);
  FPDFBitmap_FillRect := fun b _ _ _ _ _ =>
    toy_bitmap (bm_width b) (bm_height b) (bm_stride b)
               (replicate (length (bm_buffer b)) "255"%byte);
  FPDF_RenderPageBitmap := fun _ b _ _ _ _ _ _ _ => b;
  FPDFBitmap_GetBuffer := bm_buffer;
  FPDFBitmap_GetStride := bm_stride
|}.

(** A4 pages carrying a text object, a path and an image. *)
Definition toy_lib : ToyState :=
  {| toy_pageCount := 3;
     toy_objects := [FPDF_PAGEOBJ_TEXT; FPDF_PAGEOBJ_PATH; FPDF_PAGEOBJ_IMAGE];
     toy_width := 595%float; toy_height := 842%float;
     toy_regen_fails := []; toy_save_ok := true; toy_mutate_ok := true;
     toy_open := [] |}.

(** A world over the toy library with one open document, handle 1. *)
Definition toy_world (l : ToyState) : World (PDF := toy_pdfium) :=
  @Build_World toy_pdfium {[ 1 := 1%positive ]} ∅ 2 true l [].

(** ** Vocabulary of the statements *)

Section Vocabulary.
Context `{PDF : Pdfium}.

(** The cache entry of a page, through both levels of [g_pageCache]. *)
Definition cache_lookup (w : World) (handle pageIndex : Z) : option CachedPage :=
  g_pageCache w !! handle ≫= (.!! pageIndex).

(** The cached entries of a handle, in the order the loops visit them. *)
Definition cached_entries (w : World) (handle : Z) : list CachedPage :=
  (entries (default ∅ (g_pageCache w !! handle))).*2.

(** A run of library calls [evs] that leaves the library in state [l]. *)
Definition lib_steps (l : LibState) (evs : list LibCall) (w : World) : World :=
  {| g_documents := g_documents w; g_pageCache := g_pageCache w;
     g_nextHandle := g_nextHandle w; g_initialized := g_initialized w;
     lib := l; trace := trace w ++ evs |}.

End Vocabulary.

(** Projections of a call log. *)
Definition regenerated (evs : list LibCall) : list FPDF_PAGE :=
  omap (fun c => match c with CallGenerateContent pg _ => Some pg | _ => None end) evs.

Definition regeneration_results (evs : list LibCall) : list bool :=
  omap (fun c => match c with CallGenerateContent _ ok => Some ok | _ => None end) evs.

Definition closed_pages (evs : list LibCall) : list FPDF_PAGE :=
  omap (fun c => match c with CallClosePage pg => Some pg | _ => None end) evs.

Definition serialized (evs : list LibCall) : list FPDF_DOCUMENT :=
  omap (fun c => match c with CallSaveAsCopy doc _ => Some doc | _ => None end) evs.

(** Calls that change a page's in-memory objects, with their result. *)
Definition mutation_results (evs : list LibCall) : list bool :=
  omap (fun c => match c with
                 | CallSetText _ _ ok | CallLoadJpegFileInline _ _ ok
                 | CallSetBitmap _ _ ok => Some ok
                 | _ => None
                 end) evs.

(** The error raised by [RequireDocument] for a handle that is not in the
    registry. *)
Definition not_found {A} (handle : Z) : Outcome A :=
  Throw JsError ("Invalid document handle: " +:+ to_string handle).

(** The size check that [ReplaceImageObjectBitmap] makes on its arguments
    before it looks at the handle: the products are representable and the
    buffer holds at least [width * height * 4] bytes. *)
Definition bitmap_buffer_large_enough (bgraData : list byte) (width height : Z) : Prop :=
  match checked_int (width * height) with
  | Some area =>
      match checked_int (area * BYTES_PER_PIXEL) with
      | Some expectedSize => expectedSize ≤ wrap_int (Z.of_nat (length bgraData))
      | None => False
      end
  | None => False
  end.

(** Toy worlds: pages 0 and 2 of document 1 edited, with a library on which
    every regeneration succeeds, and one on which page 2 (address 3) fails
    to regenerate. *)
Definition toy_lib_regen_fails : ToyState :=
  {| toy_pageCount := 3;
     toy_objects := [FPDF_PAGEOBJ_TEXT; FPDF_PAGEOBJ_PATH; FPDF_PAGEOBJ_IMAGE];
     toy_width := 595%float; toy_height := 842%float;
     toy_regen_fails := [3%positive]; toy_save_ok := true; toy_mutate_ok := true;
     toy_open := [] |}.

Definition toy_edit_two_pages (l : ToyState) : World (PDF := toy_pdfium) :=
  let w1 := (EditTextObject 1 2 0 [65] (toy_world l)).2 in
  (EditTextObject 1 0 0 [66] w1).2.

(** The three edit functions of objects.cc, as one call. *)
Inductive EditCall :=
| EditText (objectId : Z) (newText : u16string)
| ReplaceImage (objectId : Z) (imageData : list byte) (fmt : string)
| ReplaceBitmap (objectId : Z) (bgraData : list byte) (width height : Z).

Definition run_edit `{PDF : Pdfium} (handle pageIndex : Z) (e : EditCall) : M unit :=
  match e with
  | EditText o text => EditTextObject handle pageIndex o text
  | ReplaceImage o img fmt => ReplaceImageObject handle pageIndex o img fmt
  | ReplaceBitmap o px width height =>
      ReplaceImageObjectBitmap handle pageIndex o px width height
  end.

Definition edit_objectId (e : EditCall) : Z :=
  match e with
  | EditText o _ | ReplaceImage o _ _ | ReplaceBitmap o _ _ _ => o
  end.

Definition edit_name (e : EditCall) : string :=
  match e with
  | EditText _ _ => "editTextObject"
  | ReplaceImage _ _ _ => "replaceImageObject"
  | ReplaceBitmap _ _ _ _ => "replaceImageObjectBitmap"
  end.

(** The argument check an edit makes before it acquires the page. *)
Definition passes_argument_check (e : EditCall) : Prop :=
  match e with
  | ReplaceBitmap _ px width height => bitmap_buffer_large_enough px width height
  | _ => True
  end.

(** The library calls of [ReleasePage]: a page that did not come from the
    cache is closed, a cached page is left alone. *)
Definition release_calls (pg : FPDF_PAGE) (fromCache : bool) : list LibCall :=
  if fromCache then [] else [CallClosePage pg].

(** *** Rendering *)

(** What [RenderPage] computes from a page once it is acquired: the part of
    its body between [AcquirePage] and [ReleasePage]. *)
Definition render_loaded `{PDF : Pdfium} (l : LibState) (pg : FPDF_PAGE) (scale : float)
    : Outcome RenderResult :=
  match double_to_int (FPDF_GetPageWidthF l pg * scale + 0.5)%float,
        double_to_int (FPDF_GetPageHeightF l pg * scale + 0.5)%float with
  | Some width, Some height =>
      if decide (width ≤ 0 ∨ height ≤ 0) then
        Throw JsError "renderPage: resulting bitmap size is zero"
      else
        match FPDFBitmap_Create width height 1 with
        | None => Throw JsError "renderPage: FPDFBitmap_Create failed"
        | Some bitmap =>
            let bitmap := FPDFBitmap_FillRect bitmap 0 0 width height 0xFFFFFFFF in
            let bitmap := FPDF_RenderPageBitmap l bitmap pg 0 0 width height 0 RENDER_FLAGS in
            match convert_rows (FPDFBitmap_GetBuffer bitmap) (FPDFBitmap_GetStride bitmap)
                               width height with
            | Some pixels =>
                Ok {| res_data := pixels; res_width := width; res_height := height |}
            | None => Undefined
            end
        end
  | _, _ => Undefined
  end.

(** Two open pages that the library measures and rasterizes alike. *)
Definition same_page `{PDF : Pdfium} (l : LibState) (pg : FPDF_PAGE)
    (l' : LibState) (pg' : FPDF_PAGE) : Prop :=
  FPDF_GetPageWidthF l pg = FPDF_GetPageWidthF l' pg' ∧
  FPDF_GetPageHeightF l pg = FPDF_GetPageHeightF l' pg' ∧
  ∀ b x y sx sy rot flags,
    FPDF_RenderPageBitmap l b pg x y sx sy rot flags
    = FPDF_RenderPageBitmap l' b pg' x y sx sy rot flags.

(** In the library states [l] and [l'] the document has the same number of
    pages and loading the page gives the same page, or fails in both. *)
Definition reload_agrees `{PDF : Pdfium} (l l' : LibState) (doc : FPDF_DOCUMENT)
    (pageIndex : Z) : Prop :=
  FPDF_GetPageCount l' doc = FPDF_GetPageCount l doc ∧
  match FPDF_LoadPage l doc pageIndex, FPDF_LoadPage l' doc pageIndex with
  | (Some pg, l1), (Some pg', l1') => same_page l1 pg l1' pg'
  | (None, _), (None, _) => True
  | _, _ => False
  end.

(** The assumption on PDFium under which two renderings can be compared:
    loading the page and closing it again (or failing to load it) leaves a
    library state in which the page loads as it did before. *)
Definition reload_stable `{PDF : Pdfium} (l : LibState) (doc : FPDF_DOCUMENT)
    (pageIndex : Z) : Prop :=
  match FPDF_LoadPage l doc pageIndex with
  | (Some pg, l1) => reload_agrees l (FPDF_ClosePage l1 pg) doc pageIndex
  | (None, l1) => reload_agrees l l1 doc pageIndex
  end.

(** The rounding of the specification, "round(pageDimensionInPoints *
    scale)": the integer nearest to the exact product of the two numbers,
    halves away from zero.  A finite double is [m * 2 ^ e]. *)
Definition exact_value (x : float) : option (Z * Z) :=
  match Prim2SF x with
  | S754_zero _ => Some (0, 0)
  | S754_finite s m e => Some (if s then Z.neg m else Z.pos m, e)
  | S754_infinity _ | S754_nan => None
  end.

Definition round_scaled (m e : Z) : Z :=
  if decide (0 ≤ e) then m * 2 ^ e
  else Z.sgn m * ((2 * Z.abs m + 2 ^ (- e)) / (2 * 2 ^ (- e))).

Definition spec_dimension (points scale : float) : option Z :=
  '(m1, e1) ← exact_value points;
  '(m2, e2) ← exact_value scale;
  Some (round_scaled (m1 * m2) (e1 + e2)).

(** Toy libraries with small pages: 3 by 2 points, and 1 by 1 point. *)
Definition toy_lib_small : ToyState :=
  {| toy_pageCount := 3;
     toy_objects := [FPDF_PAGEOBJ_TEXT; FPDF_PAGEOBJ_PATH; FPDF_PAGEOBJ_IMAGE];
     toy_width := 3%float; toy_height := 2%float;
     toy_regen_fails := []; toy_save_ok := true; toy_mutate_ok := true;
     toy_open := [] |}.

Definition toy_lib_1pt : ToyState :=
  {| toy_pageCount := 1; toy_objects := [];
     toy_width := 1%float; toy_height := 1%float;
     toy_regen_fails := []; toy_save_ok := true; toy_mutate_ok := true;
     toy_open := [] |}.

(** The largest double below one half. *)
Definition just_below_half : float := 0x1.fffffffffffffp-2%float.

(** *** Histories of calls *)

(** The functions the addon exports, and its cleanup hook. *)
Inductive Operation :=
| OpOpen (buffer : option (list byte)) (password : option string)
| OpClose (handle : Z)
| OpGetPageCount (handle : Z)
| OpSave (handle : Z)
| OpRender (handle pageIndex : Z) (scale : float)
| OpList (handle pageIndex : Z)
| OpEdit (handle pageIndex : Z) (e : EditCall)
| OpCleanup.

Section History.
Context `{PDF : Pdfium}.

Definition perform (op : Operation) (w : World) : World :=
  match op with
  | OpOpen buffer password => (OpenDocument buffer password w).2
  | OpClose handle => (CloseDocument handle w).2
  | OpGetPageCount handle => (GetPageCount handle w).2
  | OpSave handle => (SaveDocument handle w).2
  | OpRender handle pageIndex scale => (RenderPage handle pageIndex scale w).2
  | OpList handle pageIndex => (ListPageObjects handle pageIndex w).2
  | OpEdit handle pageIndex e => (run_edit handle pageIndex e w).2
  | OpCleanup => (Cleanup w).2
  end.

Fixpoint run (ops : list Operation) (w : World) : World :=
  match ops with
  | [] => w
  | op :: rest => run rest (perform op w)
  end.

Definition all_dirty (w : World) : Prop :=
  ∀ handle pageIndex cp, cache_lookup w handle pageIndex = Some cp → dirty cp = true.

Definition edit_succeeds (handle pageIndex : Z) (e : EditCall) (w : World) : bool :=
  match (run_edit handle pageIndex e w).1 with Ok _ => true | _ => false end.

(** The pages with an edit that no flush or discard has followed: an edit
    that succeeds adds its page; a save or a close of a registered handle
    removes the pages of the handle; the cleanup removes all. *)
Definition track (op : Operation) (w : World) (P : gset (Z * Z)) : gset (Z * Z) :=
  match op with
  | OpEdit handle pageIndex e =>
      if edit_succeeds handle pageIndex e w then {[ (handle, pageIndex) ]} ∪ P else P
  | OpSave handle | OpClose handle =>
      if decide (is_Some (g_documents w !! handle))
      then filter (λ x, x.1 ≠ handle) P else P
  | OpCleanup => ∅
  | _ => P
  end.

Fixpoint pending_edits (P : gset (Z * Z)) (ops : list Operation) (w : World) : gset (Z * Z) :=
  match ops with
  | [] => P
  | op :: rest => pending_edits (track op w P) rest (perform op w)
  end.

End History.

(** *** Further vocabulary: resources and the registry *)

(** More projections of a call log: the pages loaded, the documents closed,
    the text pages opened and closed. *)
Definition loaded_pages (evs : list LibCall) : list FPDF_PAGE :=
  omap (fun c => match c with CallLoadPage _ _ (Some pg) => Some pg | _ => None end) evs.

Definition closed_documents (evs : list LibCall) : list FPDF_DOCUMENT :=
  omap (fun c => match c with CallCloseDocument doc => Some doc | _ => None end) evs.

Definition opened_text_pages (evs : list LibCall) : list FPDF_TEXTPAGE :=
  omap (fun c => match c with CallTextLoadPage _ (Some tp) => Some tp | _ => None end) evs.

Definition closed_text_pages (evs : list LibCall) : list FPDF_TEXTPAGE :=
  omap (fun c => match c with CallTextClosePage tp => Some tp | _ => None end) evs.

(** Every cached page and every registered document, in the order the
    cleanup hook visits them. *)
Definition all_cached_pages `{PDF : Pdfium} (w : World) : list FPDF_PAGE :=
  (entries (g_pageCache w)).*2 ≫= (fun pages => page <$> (entries pages).*2).

Definition all_documents `{PDF : Pdfium} (w : World) : list FPDF_DOCUMENT :=
  (entries (g_documents w)).*2.

(** The registered handles are positive and below the handle counter. *)
Definition handles_in_order `{PDF : Pdfium} (w : World) : Prop :=
  1 ≤ g_nextHandle w ∧
  ∀ h, is_Some (g_documents w !! h) → 1 ≤ h < g_nextHandle w.

(** Every handle with cached pages is registered. *)
Definition cache_within_registry `{PDF : Pdfium} (w : World) : Prop :=
  ∀ h, is_Some (g_pageCache w !! h) → is_Some (g_documents w !! h).

(** The handle an operation is applied to. *)
Definition op_handle (op : Operation) : option Z :=
  match op with
  | OpClose h | OpGetPageCount h | OpSave h | OpRender h _ _ | OpList h _ | OpEdit h _ _ =>
      Some h
  | OpOpen _ _ | OpCleanup => None
  end.

(** The object type an edit requires, and how its error message names it. *)
Definition edit_expected_type (e : EditCall) : Z :=
  match e with
  | EditText _ _ => FPDF_PAGEOBJ_TEXT
  | ReplaceImage _ _ _ | ReplaceBitmap _ _ _ _ => FPDF_PAGEOBJ_IMAGE
  end.

Definition edit_expected_kind (e : EditCall) : string :=
  match e with
  | EditText _ _ => "a text object"
  | ReplaceImage _ _ _ | ReplaceBitmap _ _ _ _ => "an image object"
  end.

(** *** What a log says about the library *)

Section LibraryRuns.
Context `{PDF : Pdfium}.

(** The call [c] was made in library state [l], gave the answer the log
    records and left the library in state [l'].  Arguments that the log
    does not record are left open. *)
Definition call_effect (c : LibCall) (l l' : LibState) : Prop :=
  match c with
  | CallInitLibrary => l' = FPDF_InitLibraryWithConfig l
  | CallDestroyLibrary => l' = FPDF_DestroyLibrary l
  | CallLoadMemDocument res =>
      ∃ buffer size password, FPDF_LoadMemDocument l buffer size password = (res, l')
  | CallCloseDocument doc => l' = FPDF_CloseDocument l doc
  | CallSaveAsCopy doc ok => ∃ blocks, FPDF_SaveAsCopy l doc 0 = (blocks, ok, l')
  | CallLoadPage doc pageIndex res => FPDF_LoadPage l doc pageIndex = (res, l')
  | CallClosePage pg => l' = FPDF_ClosePage l pg
  | CallGenerateContent pg ok => FPDFPage_GenerateContent l pg = (ok, l')
  | CallTextLoadPage pg res => FPDFText_LoadPage l pg = (res, l')
  | CallTextClosePage tp => l' = FPDFText_ClosePage l tp
  | CallSetText obj text ok => FPDFText_SetText l obj text = (ok, l')
  | CallLoadJpegFileInline pg obj ok =>
      ∃ access, FPDFImageObj_LoadJpegFileInline l pg obj access = (ok, l')
  | CallSetBitmap pg obj ok => ∃ bitmap, FPDFImageObj_SetBitmap l pg obj bitmap = (ok, l')
  | CallRenderPageBitmap _ _ _ => l' = l
  end.

(** The calls [evs] were made one after the other, from library state [l]
    to library state [l']: each answer in the log is the answer the library
    gave in the state the earlier calls left. *)
Fixpoint library_run (l : LibState) (evs : list LibCall) (l' : LibState) : Prop :=
  match evs with
  | [] => l' = l
  | c :: rest => ∃ l1, call_effect c l l1 ∧ library_run l1 rest l'
  end.


End LibraryRuns.

(** The calls a flush makes for one cached entry: the regeneration, when
    the entry is dirty, and then the close. *)
Definition flush_calls_of (cp : CachedPage) (calls : list LibCall) : Prop :=
  if dirty cp
  then ∃ ok, calls = [CallGenerateContent (page cp) ok; CallClosePage (page cp)]
  else calls = [CallClosePage (page cp)].

(** A library on which regeneration succeeds and serialization fails. *)
Definition toy_lib_save_fails : ToyState :=
  {| toy_pageCount := 3;
     toy_objects := [FPDF_PAGEOBJ_TEXT; FPDF_PAGEOBJ_PATH; FPDF_PAGEOBJ_IMAGE];
     toy_width := 595%float; toy_height := 842%float;
     toy_regen_fails := []; toy_save_ok := false; toy_mutate_ok := true;
     toy_open := [] |}.

(** Worlds over the small library reached by opening one and two documents,
    and the bytes of one BGRA pixel. *)
Definition toy_opened : World (PDF := toy_pdfium) :=
  run [OpOpen (Some ["%"%byte]) None] (@initial_world toy_pdfium toy_lib).

Definition toy_opened_twice : World (PDF := toy_pdfium) :=
  run [OpOpen (Some ["%"%byte]) None; OpOpen (Some ["%"%byte]) None]
      (@initial_world toy_pdfium toy_lib).

Definition toy_bgra_pixel : list byte := ["001"; "002"; "003"; "004"]%byte.

(** ** Basic facts *)

Section Basics.
Context `{PDF : Pdfium}.

Lemma lib_step_steps l c (w : World) : lib_step l c w = lib_steps l [c] w.
Proof. reflexivity. Qed.

Lemma lib_steps_steps l1 l2 e1 e2 (w : World) :
  lib_steps l2 e2 (lib_steps l1 e1 w) = lib_steps l2 (e1 ++ e2) w.
Proof. unfold lib_steps; simpl. by rewrite app_assoc. Qed.

Lemma lib_steps_nil (w : World) : lib_steps (lib w) [] w = w.
Proof. destruct w; unfold lib_steps; simpl. by rewrite app_nil_r. Qed.

(** [entries] enumerates a map: every binding once, keys ascending. *)
Lemma entries_lookup {V} (m : gmap Z V) i v : (i, v) ∈ entries m ↔ m !! i = Some v.
Proof.
  unfold entries. rewrite merge_sort_Permutation. apply elem_of_map_to_list.
Qed.

Lemma entries_NoDup {V} (m : gmap Z V) : NoDup (entries m).*1.
Proof.
  unfold entries. rewrite merge_sort_Permutation. apply NoDup_fst_map_to_list.
Qed.

Lemma entries_sorted {V} (m : gmap Z V) : Sorted (@key_le V) (entries m).
Proof.
  assert (Total (@key_le V)) by (intros [a ?] [b ?]; unfold key_le; simpl; lia).
  unfold entries. by apply Sorted_merge_sort.
Qed.

Lemma entries_empty {V} : entries (∅ : gmap Z V) = [].
Proof. reflexivity. Qed.

End Basics.

(** ** Proof support *)

Ltac munfold :=
  unfold bind, ret, throw, query, call, call_, update, get_world, checked,
         undefined_behaviour in *.

Ltac mcases := repeat (munfold; case_match; simplify_eq/=; try done).

Lemma regenerated_app a b : regenerated (a ++ b) = regenerated a ++ regenerated b.
Proof. apply omap_app. Qed.

Lemma regeneration_results_app a b :
  regeneration_results (a ++ b) = regeneration_results a ++ regeneration_results b.
Proof. apply omap_app. Qed.

Lemma closed_pages_app a b : closed_pages (a ++ b) = closed_pages a ++ closed_pages b.
Proof. apply omap_app. Qed.

Lemma serialized_app a b : serialized (a ++ b) = serialized a ++ serialized b.
Proof. apply omap_app. Qed.

Lemma mutation_results_app a b :
  mutation_results (a ++ b) = mutation_results a ++ mutation_results b.
Proof. apply omap_app. Qed.

Lemma closed_pages_close ps : closed_pages (CallClosePage <$> ps) = ps.
Proof.
  unfold closed_pages. induction ps as [|p ps IH]; [done|]. cbn. by rewrite IH.
Qed.

Lemma regenerated_close ps : regenerated (CallClosePage <$> ps) = [].
Proof. by induction ps. Qed.


Lemma flush_calls_projections (cps : list CachedPage) (segments : list (list LibCall)) :
  Forall2 flush_calls_of cps segments →
  regenerated (concat segments) = page <$> filter (λ cp, dirty cp = true) cps ∧
  closed_pages (concat segments) = page <$> cps ∧
  length (concat segments)
  = (length (regenerated (concat segments)) + length (closed_pages (concat segments)))%nat.
Proof.
  induction 1 as [|cp calls cps segments Hcalls _ (IHr & IHc & IHl)]; [done|].
  cbn [concat]. rewrite regenerated_app, closed_pages_app, !length_app, IHr, IHc.
  rewrite IHr, IHc in IHl. rewrite IHl.
  unfold flush_calls_of in Hcalls. destruct (dirty cp) eqn:Hd.
  - destruct Hcalls as [ok ->]. rewrite filter_cons_True by done. cbn. split_and!; [done..|lia].
  - subst calls. rewrite filter_cons_False by (rewrite Hd; done). cbn. split_and!; [done..|lia].
Qed.

Lemma forallb_id_Forall (l : list bool) :
  forallb id l = true ↔ Forall (λ ok, ok = true) l.
Proof.
  induction l as [|[] l IH]; cbn.
  - split; [constructor|done].
  - rewrite IH. split; [by constructor|by inversion 1].
  - split; [done|by inversion 1].
Qed.

(** ** The page cache (addon.cc) *)

Section PageCache.
Context `{PDF : Pdfium}.

Lemma cached_entries_enumerate (w : World) handle :
  (∀ cp, cp ∈ cached_entries w handle ↔ ∃ i, cache_lookup w handle i = Some cp) ∧
  length (cached_entries w handle) = size (default ∅ (g_pageCache w !! handle)).
Proof.
  unfold cached_entries, cache_lookup. split.
  - intros cp. rewrite list_elem_of_fmap. split.
    + intros ([i cp'] & -> & Hin). exists i. apply entries_lookup in Hin.
      destruct (g_pageCache w !! handle); simpl in *; [done|].
      by rewrite lookup_empty in Hin.
    + intros (i & Hi). exists (i, cp). split; [done|]. apply entries_lookup.
      by destruct (g_pageCache w !! handle).
  - rewrite length_fmap. unfold entries. rewrite merge_sort_Permutation.
    apply length_map_to_list.
Qed.

(** The loop of [FlushAndCloseCachedPages]: it always runs to the end of the
    list, regenerating the dirty entries and closing every entry. *)
Lemma flush_loop_spec (es : list (Z * CachedPage)) (allOk : bool) (w : World) :
  ∃ (l : LibState) (evs : list LibCall),
    flush_loop es allOk w
      = (Ok (allOk && forallb id (regeneration_results evs)), lib_steps l evs w) ∧
    regenerated evs = page <$> filter (λ cp, dirty cp = true) es.*2 ∧
    closed_pages evs = page <$> es.*2 ∧
    serialized evs = [] ∧
    mutation_results evs = [] ∧
    length evs = (length (regenerated evs) + length (closed_pages evs))%nat.
Proof.
  revert allOk w. induction es as [|[idx cp] es IH]; intros allOk w.
  - exists (lib w), []. rewrite lib_steps_nil, andb_true_r. done.
  - cbn [flush_loop]. unfold bind at 1.
    rewrite fmap_cons; cbn [snd].
    destruct (dirty cp) eqn:Hd.
    + unfold bind at 1, call at 1.
      destruct (FPDFPage_GenerateContent (lib w) (page cp)) as [ok l1] eqn:Hg.
      unfold ret at 1, bind at 1, call_ at 1. cbn [lib lib_step].
      rewrite !lib_step_steps, lib_steps_steps.
      edestruct IH as (l & evs & -> & Hr & Hc & Hs & Hm & Hl).
      exists l, ([CallGenerateContent (page cp) ok; CallClosePage (page cp)] ++ evs).
      rewrite lib_steps_steps. split.
      { f_equal. f_equal. rewrite regeneration_results_app. cbn. by destruct ok, allOk. }
      rewrite regenerated_app, closed_pages_app, serialized_app, mutation_results_app.
      rewrite filter_cons_True by done.
      rewrite Hr, Hc, Hs, Hm. repeat split; try done.
      rewrite !length_app, Hl, Hr, Hc. cbn. lia.
    + unfold ret at 1, bind at 1, call_ at 1.
      rewrite !lib_step_steps.
      edestruct IH as (l & evs & -> & Hr & Hc & Hs & Hm & Hl).
      exists l, ([CallClosePage (page cp)] ++ evs).
      rewrite lib_steps_steps. split; [by rewrite regeneration_results_app|].
      rewrite regenerated_app, closed_pages_app, serialized_app, mutation_results_app.
      rewrite filter_cons_False by (rewrite Hd; done).
      rewrite Hr, Hc, Hs, Hm. repeat split; try done.
      rewrite !length_app, Hl, Hr, Hc. cbn. lia.
Qed.

Lemma set_pageCache_delete_id handle (w : World) :
  g_pageCache w !! handle = None → set_pageCache (delete handle) w = w.
Proof.
  intros H. destruct w; unfold set_pageCache; cbn in *. by rewrite delete_id.
Qed.

(** What a flush does, in full. *)
Lemma FlushAndCloseCachedPages_spec (handle : Z) (w : World) :
  ∃ (l : LibState) (evs : list LibCall),
    FlushAndCloseCachedPages handle w
      = (Ok (forallb id (regeneration_results evs)),
         set_pageCache (delete handle) (lib_steps l evs w)) ∧
    regenerated evs = page <$> filter (λ cp, dirty cp = true) (cached_entries w handle) ∧
    closed_pages evs = page <$> cached_entries w handle ∧
    serialized evs = [] ∧
    mutation_results evs = [] ∧
    length evs = (length (regenerated evs) + length (closed_pages evs))%nat.
Proof.
  unfold FlushAndCloseCachedPages, cached_entries.
  unfold bind at 1, get_world at 1.
  destruct (g_pageCache w !! handle) as [pages|] eqn:Hp; cbn [default].
  - destruct (flush_loop_spec (entries pages) true w) as (l & evs & Hf & Hspec).
    unfold bind at 1. rewrite Hf. exists l, evs. done.
  - exists (lib w), []. rewrite lib_steps_nil, set_pageCache_delete_id by done. done.
Qed.

(** A flush of a handle without cached pages calls nothing and succeeds. *)
Lemma FlushAndCloseCachedPages_empty (handle : Z) (w : World) :
  g_pageCache w !! handle = None → FlushAndCloseCachedPages handle w = (Ok true, w).
Proof. intros H. unfold FlushAndCloseCachedPages. munfold. by rewrite H. Qed.

(** The loop of a flush: its calls, entry by entry, with the answers the
    library gave and the state it is left in. *)
Lemma flush_loop_run (es : list (Z * CachedPage)) (allOk : bool) (w : World) :
  ∃ (l : LibState) (segments : list (list LibCall)),
    flush_loop es allOk w
      = (Ok (allOk && forallb id (regeneration_results (concat segments))),
         lib_steps l (concat segments) w) ∧
    Forall2 flush_calls_of es.*2 segments ∧
    library_run (lib w) (concat segments) l.
Proof.
  revert allOk w. induction es as [|[idx cp] es IH]; intros allOk w.
  - exists (lib w), []. rewrite lib_steps_nil, andb_true_r. split_and!; [done|constructor|done].
  - cbn [flush_loop]. unfold bind at 1.
    rewrite fmap_cons; cbn [snd].
    destruct (dirty cp) eqn:Hd.
    + unfold bind at 1, call at 1.
      destruct (FPDFPage_GenerateContent (lib w) (page cp)) as [ok l1] eqn:Hg.
      unfold ret at 1, bind at 1, call_ at 1. cbn [lib lib_step].
      rewrite !lib_step_steps, lib_steps_steps.
      edestruct IH as (l & segments & -> & Hsegs & Hrun).
      exists l, ([CallGenerateContent (page cp) ok; CallClosePage (page cp)] :: segments).
      cbn [concat]. rewrite lib_steps_steps. split_and!.
      * f_equal. f_equal. rewrite regeneration_results_app. cbn. by destruct ok, allOk.
      * constructor; [|done]. unfold flush_calls_of. rewrite Hd. by exists ok.
      * cbn. exists l1. split; [done|]. eexists. split; [done|]. exact Hrun.
    + unfold ret at 1, bind at 1, call_ at 1.
      rewrite !lib_step_steps.
      edestruct IH as (l & segments & -> & Hsegs & Hrun).
      exists l, ([CallClosePage (page cp)] :: segments).
      cbn [concat]. rewrite lib_steps_steps. split_and!.
      * by rewrite regeneration_results_app.
      * constructor; [|done]. unfold flush_calls_of. by rewrite Hd.
      * cbn. eexists. split; [done|]. exact Hrun.
Qed.

(** C1.  [FlushAndCloseCachedPages handle] always returns a boolean.  Its
    library calls are, for each cached entry of [handle] in key order, the
    regeneration of the page when the entry's [dirty] flag is set, whatever
    the earlier regenerations returned, and then the close of the page; it
    makes no other call.  The calls are made one after the other on the
    library: every logged answer is the answer [FPDFPage_GenerateContent]
    gave, and the library is left in the state the last call produced.  The
    entries of [handle] are removed from the cache and nothing else changes.
    The result is [true] exactly when every regeneration it made succeeded.
    [cached_entries] lists each cache binding of the handle once. *)
Theorem flushAndClose_regenerates_dirty_closes_all (handle : Z) (w : World) :
  ∃ (b : bool) (w' : World) (evs : list LibCall),
    FlushAndCloseCachedPages handle w = (Ok b, w') ∧
    trace w' = trace w ++ evs ∧
    (∃ segments, evs = concat segments ∧
                 Forall2 flush_calls_of (cached_entries w handle) segments) ∧
    library_run (lib w) evs (lib w') ∧
    regenerated evs = page <$> filter (λ cp, dirty cp = true) (cached_entries w handle) ∧
    closed_pages evs = page <$> cached_entries w handle ∧
    length evs = (length (regenerated evs) + length (closed_pages evs))%nat ∧
    (∀ cp, cp ∈ cached_entries w handle ↔ ∃ i, cache_lookup w handle i = Some cp) ∧
    length (cached_entries w handle) = size (default ∅ (g_pageCache w !! handle)) ∧
    g_pageCache w' = delete handle (g_pageCache w) ∧
    (∀ i, cache_lookup w' handle i = None) ∧
    g_documents w' = g_documents w ∧
    g_nextHandle w' = g_nextHandle w ∧
    g_initialized w' = g_initialized w ∧
    (b = true ↔ Forall (λ ok, ok = true) (regeneration_results evs)).
Proof.
  destruct (cached_entries_enumerate w handle) as [Hmem Hlen].
  assert (Hrun : ∃ l segments,
            FlushAndCloseCachedPages handle w
              = (Ok (forallb id (regeneration_results (concat segments))),
                 set_pageCache (delete handle) (lib_steps l (concat segments) w)) ∧
            Forall2 flush_calls_of (cached_entries w handle) segments ∧
            library_run (lib w) (concat segments) l).
  { unfold FlushAndCloseCachedPages, cached_entries.
    unfold bind at 1, get_world at 1.
    destruct (g_pageCache w !! handle) as [pages|] eqn:Hp; cbn.
    - destruct (flush_loop_run (entries pages) true w) as (l & segments & Hf & Hsegs & Hl).
      exists l, segments. unfold bind at 1. rewrite Hf. by split_and!.
    - exists (lib w), []. cbn. rewrite lib_steps_nil.
      rewrite (set_pageCache_delete_id _ _ Hp). split_and!; [done|constructor|done]. }
  destruct Hrun as (l & segments & Hf & Hsegs & Hl).
  destruct (flush_calls_projections _ _ Hsegs) as (Hr & Hc & Hn).
  eexists _, _, (concat segments). split; [exact Hf|].
  split_and!; try done.
  - by exists segments.
  - intros i. unfold cache_lookup. cbn. by rewrite lookup_delete_eq.
  - apply forallb_id_Forall.
Qed.

Lemma RequireDocument_found handle doc (w : World) :
  g_documents w !! handle = Some doc → RequireDocument handle w = (Ok doc, w).
Proof. intros H. unfold RequireDocument. munfold. by rewrite H. Qed.

Lemma RequireDocument_unknown handle (w : World) :
  g_documents w !! handle = None →
  RequireDocument handle w
    = (Throw JsError ("Invalid document handle: " +:+ to_string handle), w).
Proof. intros H. unfold RequireDocument. munfold. by rewrite H. Qed.

(** C4.  After [CachePageDirty handle pageIndex r], the cache holds the entry
    [(r, dirty = true)] for the page, and [AcquirePage] on the same page
    returns [r] with [fromCache = true], without calling the library. *)
Theorem acquire_after_markDirty (handle pageIndex : Z) (r : FPDF_PAGE)
    (doc : FPDF_DOCUMENT) (w : World) :
  ∃ w1, CachePageDirty handle pageIndex r w = (Ok tt, w1) ∧
        cache_lookup w1 handle pageIndex = Some {| page := r; dirty := true |} ∧
        AcquirePage handle doc pageIndex w1 = (Ok (Some r, true), w1).
Proof.
  eexists. split; [reflexivity|].
  assert (Hl : cache_lookup (set_pageCache (λ cache,
             <[handle := <[pageIndex := {| page := r; dirty := true |}]>
                (default ∅ (cache !! handle))]> cache) w) handle pageIndex
           = Some {| page := r; dirty := true |}).
  { unfold cache_lookup. cbn. rewrite lookup_insert_eq. cbn. by rewrite lookup_insert_eq. }
  split; [done|].
  unfold AcquirePage. munfold. unfold cache_lookup in Hl. by rewrite Hl.
Qed.

End PageCache.

(** ** Document lifecycle (document.cc) *)

Section Documents.
Context `{PDF : Pdfium}.

Lemma close_loop_spec (es : list (Z * CachedPage)) (w : World) :
  ∃ l, close_loop es w = (Ok tt, lib_steps l (CallClosePage <$> (page <$> es.*2)) w).
Proof.
  revert w. induction es as [|[idx cp] es IH]; intros w.
  - exists (lib w). by rewrite lib_steps_nil.
  - cbn [close_loop]. unfold bind at 1, call_ at 1.
    destruct (IH (lib_step (FPDF_ClosePage (lib w) (page cp)) (CallClosePage (page cp)) w))
      as (l & ->).
    exists l. by rewrite lib_step_steps, lib_steps_steps.
Qed.

Lemma DiscardCachedPages_spec (handle : Z) (w : World) :
  ∃ l, DiscardCachedPages handle w
       = (Ok tt, set_pageCache (delete handle)
                   (lib_steps l (CallClosePage <$> (page <$> cached_entries w handle)) w)).
Proof.
  unfold DiscardCachedPages, cached_entries. unfold bind at 1, get_world at 1.
  destruct (g_pageCache w !! handle) as [pages|] eqn:Hp; cbn [default].
  - destruct (close_loop_spec (entries pages) w) as (l & Hc).
    unfold bind at 1. rewrite Hc. by exists l.
  - exists (lib w). rewrite entries_empty. cbn.
    by rewrite lib_steps_nil, set_pageCache_delete_id.
Qed.

(** [SaveDocument] on a registered handle: the flush, then the serialization
    on the library state the flush left, unless the flush reported a
    failure. *)
Lemma SaveDocument_spec (handle : Z) (doc : FPDF_DOCUMENT) (w : World) :
  g_documents w !! handle = Some doc →
  ∃ flushed w1,
    FlushAndCloseCachedPages handle w = (Ok flushed, w1) ∧
    SaveDocument handle w =
      if flushed then
        let '(blocks, ok, l2) := FPDF_SaveAsCopy (lib w1) doc 0 in
        (if ok then Ok (write_blocks blocks)
         else Throw JsError "saveDocument: FPDF_SaveAsCopy failed",
         lib_step l2 (CallSaveAsCopy doc ok) w1)
      else
        (Throw JsError "saveDocument: FPDFPage_GenerateContent failed for a dirty page", w1).
Proof.
  intros Hdoc.
  destruct (FlushAndCloseCachedPages_spec handle w) as (l & evs & Hf & _).
  eexists _, _. split; [exact Hf|].
  unfold SaveDocument. unfold bind at 1. rewrite (RequireDocument_found _ _ _ Hdoc).
  unfold bind at 1. rewrite Hf.
  destruct (forallb id (regeneration_results evs)); cbn [negb]; [|done].
  unfold bind, call.
  destruct (FPDF_SaveAsCopy _ doc 0) as [[blocks ok] l2]. by destruct ok.
Qed.

(** C2.  On a registered handle, [SaveDocument] first runs
    [FlushAndCloseCachedPages]; the flush itself never calls the
    serialization.  When the flush returns [false], [SaveDocument] throws the
    error that names content regeneration and stops in the world the flush
    left, so [FPDF_SaveAsCopy] is never called.  When the flush returns
    [true], [FPDF_SaveAsCopy] is called once, on the library state the flush
    left, and decides the outcome. *)
Theorem save_flushes_before_serializing (handle : Z) (doc : FPDF_DOCUMENT) (w : World) :
  g_documents w !! handle = Some doc →
  ∃ (flushed : bool) (w1 : World) (evs : list LibCall),
    FlushAndCloseCachedPages handle w = (Ok flushed, w1) ∧
    trace w1 = trace w ++ evs ∧ serialized evs = [] ∧
    (flushed = false →
       SaveDocument handle w
         = (Throw JsError "saveDocument: FPDFPage_GenerateContent failed for a dirty page",
            w1)) ∧
    (flushed = true →
       let '(blocks, ok, l2) := FPDF_SaveAsCopy (lib w1) doc 0 in
       SaveDocument handle w
         = (if ok then Ok (write_blocks blocks)
            else Throw JsError "saveDocument: FPDF_SaveAsCopy failed",
            lib_step l2 (CallSaveAsCopy doc ok) w1)).
Proof.
  intros Hdoc.
  destruct (SaveDocument_spec handle doc w Hdoc) as (flushed & w1 & Hf & Hs).
  destruct (FlushAndCloseCachedPages_spec handle w) as (l & evs & Hf' & _ & _ & Hser & _).
  rewrite Hf in Hf'. injection Hf' as -> ->.
  eexists _, _, evs. split; [exact Hf|]. split; [done|]. split; [done|]. split.
  - intros Hfl. by rewrite Hfl in Hs.
  - intros Hfl. rewrite Hfl in Hs.
    by destruct (FPDF_SaveAsCopy _ doc 0) as [[blocks ok] l2].
Qed.

(** C6, as the code has it.  [SaveDocument] on a registered handle returns
    bytes exactly when its flush returned [true] and [FPDF_SaveAsCopy]
    reported success; otherwise it throws.  Whatever the outcome, the handle
    is still registered afterwards and the cache holds no entry for it.  A
    second [SaveDocument] therefore flushes nothing: its flush makes no
    library call and returns [true], and the second save returns bytes
    exactly when [FPDF_SaveAsCopy] reports success again. *)
Theorem save_twice (handle : Z) (doc : FPDF_DOCUMENT) (w : World) r1 w1 :
  g_documents w !! handle = Some doc →
  SaveDocument handle w = (r1, w1) →
  (∃ flushed w0,
     FlushAndCloseCachedPages handle w = (Ok flushed, w0) ∧
     r1 = (if flushed then
             let '(blocks, ok, _) := FPDF_SaveAsCopy (lib w0) doc 0 in
             if ok then Ok (write_blocks blocks)
             else Throw JsError "saveDocument: FPDF_SaveAsCopy failed"
           else
             Throw JsError "saveDocument: FPDFPage_GenerateContent failed for a dirty page") ∧
     ((∃ bytes, r1 = Ok bytes)
      ↔ flushed = true ∧ (FPDF_SaveAsCopy (lib w0) doc 0).1.2 = true)) ∧
  g_documents w1 !! handle = Some doc ∧
  (∀ i, cache_lookup w1 handle i = None) ∧
  cached_entries w1 handle = [] ∧
  FlushAndCloseCachedPages handle w1 = (Ok true, w1) ∧
  (let '(blocks, ok, l2) := FPDF_SaveAsCopy (lib w1) doc 0 in
   SaveDocument handle w1
     = (if ok then Ok (write_blocks blocks)
        else Throw JsError "saveDocument: FPDF_SaveAsCopy failed",
        lib_step l2 (CallSaveAsCopy doc ok) w1)) ∧
  ((∃ bytes, (SaveDocument handle w1).1 = Ok bytes)
   ↔ (FPDF_SaveAsCopy (lib w1) doc 0).1.2 = true) ∧
  ((FPDF_SaveAsCopy (lib w1) doc 0).1.2 = true →
   ∃ bytes w2, SaveDocument handle w1 = (Ok bytes, w2) ∧
               trace w2 = trace w1 ++ [CallSaveAsCopy doc true]).
Proof.
  intros Hdoc Hsave.
  destruct (SaveDocument_spec handle doc w Hdoc) as (flushed & w' & Hf & Hs).
  destruct (FlushAndCloseCachedPages_spec handle w) as (l & evs & Hf' & _).
  rewrite Hf in Hf'. injection Hf' as Hfl Hw'.
  assert (Hc : g_pageCache w1 !! handle = None ∧ g_documents w1 !! handle = Some doc).
  { rewrite Hsave in Hs. destruct flushed.
    - destruct (FPDF_SaveAsCopy _ doc 0) as [[blocks ok] l2]. injection Hs as _ ->.
      rewrite Hw'. cbn. by rewrite lookup_delete_eq.
    - injection Hs as _ ->. rewrite Hw'. cbn. by rewrite lookup_delete_eq. }
  destruct Hc as [Hc Hd].
  pose proof (FlushAndCloseCachedPages_empty handle w1 Hc) as Hflush.
  assert (Hsecond :
            let '(blocks, ok, l2) := FPDF_SaveAsCopy (lib w1) doc 0 in
            SaveDocument handle w1
            = (if ok then Ok (write_blocks blocks)
               else Throw JsError "saveDocument: FPDF_SaveAsCopy failed",
               lib_step l2 (CallSaveAsCopy doc ok) w1)).
  { destruct (SaveDocument_spec handle doc w1 Hd) as (fl2 & w2 & Hf2 & Hs2).
    rewrite Hflush in Hf2. injection Hf2 as <- <-. cbn iota in Hs2.
    by destruct (FPDF_SaveAsCopy (lib w1) doc 0) as [[blocks ok] l2]. }
  split_and!; try done.
  - exists flushed, w'. split; [done|].
    rewrite Hsave in Hs. destruct flushed.
    + destruct (FPDF_SaveAsCopy (lib w') doc 0) as [[blocks ok] l2]. injection Hs as -> _.
      cbn. split; [done|]. destruct ok.
      * split; [done|]. intros _. by eexists.
      * split; [by intros [? ?]|]. by intros [_ ?].
    + injection Hs as -> _. split; [done|]. split; [by intros [? ?]|]. by intros [? _].
  - intros i. unfold cache_lookup. by rewrite Hc.
  - unfold cached_entries. by rewrite Hc.
  - destruct (FPDF_SaveAsCopy (lib w1) doc 0) as [[blocks ok] l2]. rewrite Hsecond. cbn.
    destruct ok.
    + split; [done|]. intros _. by eexists.
    + split; [by intros [? ?]|done].
  - destruct (FPDF_SaveAsCopy (lib w1) doc 0) as [[blocks ok] l2]. rewrite Hsecond.
    cbn. intros ->. by eexists _, _.
Qed.

Lemma CloseDocument_spec (handle : Z) (doc : FPDF_DOCUMENT) (w : World) :
  g_documents w !! handle = Some doc →
  ∃ w', CloseDocument handle w = (Ok tt, w') ∧
    trace w' = trace w ++ (CallClosePage <$> (page <$> cached_entries w handle))
                       ++ [CallCloseDocument doc] ∧
    g_pageCache w' = delete handle (g_pageCache w) ∧
    g_documents w' = delete handle (g_documents w).
Proof.
  intros Hdoc. unfold CloseDocument. unfold bind at 1, get_world at 1. rewrite Hdoc.
  destruct (DiscardCachedPages_spec handle w) as (l & Hd).
  unfold bind at 1. rewrite Hd. eexists. split; [reflexivity|].
  cbn. by rewrite <- app_assoc.
Qed.

Lemma CloseDocument_unknown (handle : Z) (w : World) :
  g_documents w !! handle = None →
  CloseDocument handle w
    = (Throw JsError ("closeDocument: invalid handle " +:+ to_string handle), w).
Proof. intros H. unfold CloseDocument. munfold. by rewrite H. Qed.

(** Every function that takes a handle looks it up first, except
    [ReplaceImageObjectBitmap], which checks the buffer size before. *)
Lemma unknown_handle_operations (handle : Z) (w : World) :
  g_documents w !! handle = None →
  GetPageCount handle w = (not_found handle, w) ∧
  SaveDocument handle w = (not_found handle, w) ∧
  (∀ i scale, RenderPage handle i scale w = (not_found handle, w)) ∧
  (∀ i, ListPageObjects handle i w = (not_found handle, w)) ∧
  (∀ i o text, EditTextObject handle i o text w = (not_found handle, w)) ∧
  (∀ i o img fmt, ReplaceImageObject handle i o img fmt w = (not_found handle, w)) ∧
  (∀ i o px width height, bitmap_buffer_large_enough px width height →
     ReplaceImageObjectBitmap handle i o px width height w = (not_found handle, w)).
Proof.
  intros H. pose proof (RequireDocument_unknown handle w H) as Hr.
  split_and!; intros.
  - unfold GetPageCount. unfold bind at 1. by rewrite Hr.
  - unfold SaveDocument. unfold bind at 1. by rewrite Hr.
  - unfold RenderPage. unfold bind at 1. by rewrite Hr.
  - unfold ListPageObjects. unfold bind at 1. by rewrite Hr.
  - unfold EditTextObject. unfold bind at 1. by rewrite Hr.
  - unfold ReplaceImageObject. unfold bind at 1. by rewrite Hr.
  - unfold ReplaceImageObjectBitmap. unfold bitmap_buffer_large_enough in *.
    destruct (checked_int (width * height)) as [area|]; [|done].
    destruct (checked_int (area * BYTES_PER_PIXEL)) as [size|] eqn:Hsz; [|done].
    unfold bind at 1. unfold checked at 1, ret at 1.
    unfold bind at 1. rewrite Hsz. unfold checked at 1, ret at 1.
    rewrite decide_False by lia.
    unfold bind at 1. by rewrite Hr.
Qed.

(** C3, as the code has it.  [CloseDocument] on a registered handle closes
    the cached pages of the handle, regenerating none, then closes the
    document, and removes the handle from the registry and its pages from
    the cache.  Afterwards every function applied to the handle throws the
    unknown-handle error and changes nothing; for
    [ReplaceImageObjectBitmap] this holds when the pixel buffer passes the
    size check, which that function makes before it looks up the handle.
    [CloseDocument] on an unregistered handle throws and changes nothing. *)
Theorem close_then_operations_not_found (handle : Z) (w : World) :
  (∀ doc, g_documents w !! handle = Some doc →
     ∃ w', CloseDocument handle w = (Ok tt, w') ∧
       trace w' = trace w ++ (CallClosePage <$> (page <$> cached_entries w handle))
                          ++ [CallCloseDocument doc] ∧
       g_pageCache w' = delete handle (g_pageCache w) ∧
       g_documents w' = delete handle (g_documents w) ∧
       GetPageCount handle w' = (not_found handle, w') ∧
       SaveDocument handle w' = (not_found handle, w') ∧
       (∀ i scale, RenderPage handle i scale w' = (not_found handle, w')) ∧
       (∀ i, ListPageObjects handle i w' = (not_found handle, w')) ∧
       (∀ i o text, EditTextObject handle i o text w' = (not_found handle, w')) ∧
       (∀ i o img fmt, ReplaceImageObject handle i o img fmt w' = (not_found handle, w')) ∧
       (∀ i o px width height, bitmap_buffer_large_enough px width height →
          ReplaceImageObjectBitmap handle i o px width height w'
            = (not_found handle, w')) ∧
       CloseDocument handle w'
         = (Throw JsError ("closeDocument: invalid handle " +:+ to_string handle), w')) ∧
  (g_documents w !! handle = None →
     CloseDocument handle w
       = (Throw JsError ("closeDocument: invalid handle " +:+ to_string handle), w)).
Proof.
  split; [|apply CloseDocument_unknown].
  intros doc Hdoc.
  destruct (CloseDocument_spec handle doc w Hdoc) as (w' & Hclose & Htr & Hcache & Hdocs).
  assert (Hgone : g_documents w' !! handle = None) by (by rewrite Hdocs, lookup_delete_eq).
  destruct (unknown_handle_operations handle w' Hgone) as (? & ? & ? & ? & ? & ? & ?).
  exists w'. split_and!; try done. by apply CloseDocument_unknown.
Qed.

End Documents.

Lemma save_flushes_before_serializing_witness :
  ∃ w1 : World (PDF := toy_pdfium),
    SaveDocument 1 (toy_edit_two_pages toy_lib_regen_fails)
      = (Throw JsError "saveDocument: FPDFPage_GenerateContent failed for a dirty page", w1) ∧
    serialized (trace w1) = [].
Proof.
  assert (Hdoc : g_documents (toy_edit_two_pages toy_lib_regen_fails) !! 1
                 = Some 1%positive) by (vm_compute; reflexivity).
  destruct (save_flushes_before_serializing (PDF := toy_pdfium) 1 1%positive
              (toy_edit_two_pages toy_lib_regen_fails) Hdoc)
    as (flushed & w1 & evs & Hf & Htr & Hser & Hfail & _).
  vm_compute in Hf. injection Hf as <- <-.
  eexists. split; [apply Hfail; reflexivity|]. vm_compute. reflexivity.
Defined.

Lemma save_twice_witness :
  (SaveDocument (PDF := toy_pdfium) 1 (toy_edit_two_pages toy_lib)).1
    = Ok ["%"; "P"; "D"; "F"]%byte ∧
  FlushAndCloseCachedPages 1 (SaveDocument 1 (toy_edit_two_pages toy_lib)).2
    = (Ok true, (SaveDocument 1 (toy_edit_two_pages toy_lib)).2) ∧
  (SaveDocument 1 (SaveDocument 1 (toy_edit_two_pages toy_lib)).2).1
    = Ok ["%"; "P"; "D"; "F"]%byte.
Proof.
  assert (Hdoc : g_documents (toy_edit_two_pages toy_lib) !! 1 = Some 1%positive)
    by (vm_compute; reflexivity).
  destruct (save_twice (PDF := toy_pdfium) 1 1%positive (toy_edit_two_pages toy_lib)
              (SaveDocument 1 (toy_edit_two_pages toy_lib)).1
              (SaveDocument 1 (toy_edit_two_pages toy_lib)).2 Hdoc)
    as (_ & _ & _ & _ & Hflush & _).
  { apply surjective_pairing. }
  split; [vm_compute; reflexivity|]. split; [exact Hflush|].
  vm_compute. reflexivity.
Defined.

(** C6, as stated, fails: a registered handle does not make a save succeed.
    With pages 0 and 2 of document 1 edited and a library on which page 2
    fails to regenerate, the first save throws.  With a library whose
    serialization reports failure, the save of an unedited document throws,
    and so does the second save. *)
Lemma save_on_registered_handle_throws :
  g_documents (toy_edit_two_pages toy_lib_regen_fails) !! 1 = Some 1%positive ∧
  (SaveDocument 1 (toy_edit_two_pages toy_lib_regen_fails)).1
    = Throw JsError "saveDocument: FPDFPage_GenerateContent failed for a dirty page" ∧
  g_documents (toy_world toy_lib_save_fails) !! 1 = Some 1%positive ∧
  (SaveDocument 1 (toy_world toy_lib_save_fails)).1
    = Throw JsError "saveDocument: FPDF_SaveAsCopy failed" ∧
  (SaveDocument 1 (SaveDocument 1 (toy_world toy_lib_save_fails)).2).1
    = Throw JsError "saveDocument: FPDF_SaveAsCopy failed".
Proof. vm_compute. split_and!; reflexivity. Qed.

Lemma close_then_operations_not_found_witness :
  ∃ w' : World (PDF := toy_pdfium),
    CloseDocument 1 (toy_edit_two_pages toy_lib) = (Ok tt, w') ∧
    GetPageCount 1 w' = (not_found 1, w') ∧
    ReplaceImageObjectBitmap 1 0 2 (replicate 4 "000"%byte) 1 1 w' = (not_found 1, w').
Proof.
  assert (Hdoc : g_documents (toy_edit_two_pages toy_lib) !! 1 = Some 1%positive)
    by (vm_compute; reflexivity).
  destruct (close_then_operations_not_found (PDF := toy_pdfium) 1
              (toy_edit_two_pages toy_lib)) as [Hopen _].
  destruct (Hopen 1%positive Hdoc)
    as (w' & Hclose & Htr & _ & _ & Hcount & _ & _ & _ & _ & _ & Hbitmap & _).
  exists w'. split; [exact Hclose|]. split; [exact Hcount|].
  apply Hbitmap. vm_compute. intro Hc. discriminate Hc.
Defined.

(** C3, as stated, fails: on a closed handle [ReplaceImageObjectBitmap] with
    a pixel buffer that is too small throws the buffer-size range error, not
    the unknown-handle error. *)
Lemma closed_handle_bitmap_range_error :
  g_documents (toy_world toy_lib) !! 1 = Some 1%positive ∧
  g_documents (CloseDocument 1 (toy_world toy_lib)).2 !! 1 = None ∧
  (ReplaceImageObjectBitmap 1 0 2 [] 1 1 (CloseDocument 1 (toy_world toy_lib)).2).1
    = Throw JsRangeError
        "replaceImageObjectBitmap: bgraData buffer too small. Expected 4 bytes for 1x1 BGRA" ∧
  (ReplaceImageObjectBitmap 1 0 2 [] 1 1 (CloseDocument 1 (toy_world toy_lib)).2).1
    ≠ not_found 1.
Proof.
  vm_compute. split; [reflexivity|]. split; [reflexivity|].
  split; [reflexivity|]. intro Hc. discriminate Hc.
Qed.

(** ** Edit operations (objects.cc) *)



Section Edits.
Context `{PDF : Pdfium}.

Lemma AcquirePage_globals handle doc pageIndex (w : World) r w1 :
  AcquirePage handle doc pageIndex w = (r, w1) →
  g_pageCache w1 = g_pageCache w ∧ g_documents w1 = g_documents w.
Proof. unfold AcquirePage. intros H. mcases. Qed.

Lemma ReleasePage_spec handle pageIndex pg fromCache (w : World) :
  ∃ l, ReleasePage handle pageIndex pg fromCache w
       = (Ok tt, lib_steps l (release_calls pg fromCache) w).
Proof.
  unfold ReleasePage, release_calls. destruct fromCache; cbn [negb].
  - exists (lib w). by rewrite lib_steps_nil.
  - eexists. unfold call_. by rewrite lib_step_steps.
Qed.




(** The only change an edit makes to the addon's globals is the cache entry
    it stores when it succeeds. *)
Lemma run_edit_globals (handle pageIndex : Z) (e : EditCall) (w : World) r w' :
  run_edit handle pageIndex e w = (r, w') →
  g_documents w' = g_documents w ∧ g_nextHandle w' = g_nextHandle w ∧
  match r with
  | Ok _ => ∃ pg, g_pageCache w'
                  = <[handle := <[pageIndex := {| page := pg; dirty := true |}]>
                                  (default ∅ (g_pageCache w !! handle))]> (g_pageCache w)
  | _ => g_pageCache w' = g_pageCache w
  end.
Proof.
  destruct e; cbn [run_edit];
    unfold EditTextObject, ReplaceImageObject, ReplaceImageObjectBitmap,
           RequireDocument, AcquirePage, ReleasePage, CachePageDirty, out_of_range;
    intros H; mcases; eauto.
Qed.


(** C8.  [ReplaceImageObject] on a registered handle, with the page
    acquired, an object id in range that names an image object, and a format
    string other than ["jpeg"]: the call throws the unsupported-format
    error after releasing the page, attempts no mutation, and leaves the
    cache as it was, so an existing entry of the page is untouched and none
    is inserted. *)
Theorem replaceImageObject_unsupported_format (handle pageIndex objectId : Z)
    (imageData : list byte) (fmt : string) (doc : FPDF_DOCUMENT) (w : World)
    (pg : FPDF_PAGE) (fromCache : bool) (w1 : World) :
  g_documents w !! handle = Some doc →
  AcquirePage handle doc pageIndex w = (Ok (Some pg, fromCache), w1) →
  0 ≤ objectId < FPDFPage_CountObjects (lib w1) pg →
  FPDFPageObj_GetType (lib w1) (FPDFPage_GetObject (lib w1) pg objectId)
    = FPDF_PAGEOBJ_IMAGE →
  fmt ≠ "jpeg" →
  ∃ w', ReplaceImageObject handle pageIndex objectId imageData fmt w
        = (Throw JsError
             ("replaceImageObject: only 'jpeg' format is currently supported. " +:+
              "Convert other formats to JPEG before calling this function."), w') ∧
    w' = (ReleasePage handle pageIndex pg fromCache w1).2 ∧
    trace w' = trace w1 ++ release_calls pg fromCache ∧
    mutation_results (release_calls pg fromCache) = [] ∧
    g_pageCache w' = g_pageCache w ∧
    cache_lookup w' handle pageIndex = cache_lookup w handle pageIndex.
Proof.
  intros Hdoc Hacq Hrange Htype Hfmt.
  pose proof (RequireDocument_found _ _ _ Hdoc) as Hreq.
  destruct (AcquirePage_globals _ _ _ _ _ _ Hacq) as [Hcache _].
  destruct (ReleasePage_spec handle pageIndex pg fromCache w1) as (l & Hrel).
  eexists. split.
  - unfold ReplaceImageObject. unfold bind at 1. rewrite Hreq.
    unfold bind at 1. rewrite Hacq. unfold bind at 1, query at 1.
    rewrite decide_False by lia.
    unfold bind at 1, query at 1. unfold bind at 1, query at 1.
    rewrite decide_False by (rewrite Htype; auto).
    unfold bind at 1. rewrite decide_False by done.
    unfold bind at 1. rewrite Hrel. reflexivity.
  - rewrite Hrel. cbn. unfold cache_lookup. cbn. rewrite Hcache.
    split_and!; try done. by destruct fromCache.
Qed.

End Edits.


Lemma replaceImageObject_unsupported_format_witness :
  ∃ w' : World (PDF := toy_pdfium),
    ReplaceImageObject 1 0 2 [] "png" (toy_world toy_lib)
      = (Throw JsError
           ("replaceImageObject: only 'jpeg' format is currently supported. " +:+
            "Convert other formats to JPEG before calling this function."), w') ∧
    g_pageCache w' = g_pageCache (toy_world toy_lib).
Proof.
  assert (Hdoc : g_documents (toy_world toy_lib) !! 1 = Some 1%positive)
    by (vm_compute; reflexivity).
  assert (Hacq : AcquirePage 1 1%positive 0 (toy_world toy_lib)
                 = (Ok (Some 1%positive, false),
                    (AcquirePage 1 1%positive 0 (toy_world toy_lib)).2))
    by (vm_compute; reflexivity).
  destruct (replaceImageObject_unsupported_format (PDF := toy_pdfium) 1 0 2 [] "png"
              1%positive (toy_world toy_lib) 1%positive false _ Hdoc Hacq)
    as (w' & Hrun & _ & _ & _ & Hcache & _).
  { vm_compute. split; [intro Hc; discriminate Hc|reflexivity]. }
  { vm_compute. reflexivity. }
  { discriminate. }
  exists w'. split; [exact Hrun|exact Hcache].
Defined.

(** ** Rendering (render.cc) *)

Section Render.
Context `{PDF : Pdfium}.

(** [RenderPage] past its argument checks: it acquires the page, computes
    [render_loaded], and releases the page unless the behaviour is
    undefined. *)
Lemma RenderPage_acquired (handle pageIndex : Z) (scale : float) (doc : FPDF_DOCUMENT)
    (w : World) (pg : FPDF_PAGE) (fromCache : bool) (w1 : World) :
  g_documents w !! handle = Some doc →
  0 ≤ pageIndex < FPDF_GetPageCount (lib w) doc →
  (scale <=? 0)%float = false →
  AcquirePage handle doc pageIndex w = (Ok (Some pg, fromCache), w1) →
  ∃ w', RenderPage handle pageIndex scale w = (render_loaded (lib w1) pg scale, w') ∧
    g_documents w' = g_documents w ∧ g_pageCache w' = g_pageCache w ∧
    (render_loaded (lib w1) pg scale ≠ Undefined →
       lib w' = lib (ReleasePage handle pageIndex pg fromCache w1).2 ∧
       (∀ cls msg, render_loaded (lib w1) pg scale = Throw cls msg →
          w' = (ReleasePage handle pageIndex pg fromCache w1).2)).
Proof.
  intros Hdoc Hrange Hscale Hacq.
  pose proof (RequireDocument_found _ _ _ Hdoc) as Hreq.
  destruct (AcquirePage_globals _ _ _ _ _ _ Hacq) as [Hcache Hdocs].
  unfold RenderPage. unfold bind at 1. rewrite Hreq.
  unfold bind at 1, query at 1. rewrite decide_False by lia. rewrite Hscale.
  unfold bind at 1. rewrite Hacq.
  unfold render_loaded, ReleasePage.
  destruct fromCache; mcases; eexists; split_and!; try done.
Qed.

Lemma mapM_concat_length {A B} (f : A → option (list B)) (n : nat) (l : list A) k :
  (∀ x y, f x = Some y → length y = n) →
  mapM f l = Some k → length (concat k) = (length l * n)%nat.
Proof.
  intros Hf. revert k. induction l as [|x l IH]; intros k Hk.
  - by injection Hk as <-.
  - cbn in Hk. destruct (f x) as [y|] eqn:Hy; [|done]. cbn in Hk.
    destruct (mapM f l) as [k'|]; [|done]. injection Hk as <-.
    cbn. rewrite length_app, (Hf _ _ Hy), (IH k' eq_refl). done.
Qed.

Lemma convert_rows_length src stride width height pixels :
  convert_rows src stride width height = Some pixels →
  length pixels = (Z.to_nat height * (Z.to_nat width * 4))%nat.
Proof.
  unfold convert_rows. intros H.
  destruct (mapM _ (seqZ 0 height)) as [rows|] eqn:Hrows; [|done].
  injection H as <-.
  assert (Hpixel : ∀ y x p, convert_pixel src stride y x = Some p → length p = 4%nat).
  { intros y x p Hp. unfold convert_pixel in Hp.
    by simplify_option_eq. }
  assert (Hrow : ∀ y row,
            @concat byte <$> mapM (convert_pixel src stride y) (seqZ 0 width) = Some row →
            length row = (Z.to_nat width * 4)%nat).
  { intros y row Hr.
    destruct (mapM _ (seqZ 0 width)) as [px|] eqn:Hpx; [|done].
    injection Hr as <-.
    rewrite (mapM_concat_length _ 4 _ _ (Hpixel y) Hpx). by rewrite length_seqZ. }
  rewrite (mapM_concat_length _ _ _ _ Hrow Hrows). by rewrite length_seqZ.
Qed.

(** X24.  What [RenderPage] does with the two dimensions it computes.  On a
    registered handle, with the page index in range, a scale that passes
    the test [scale <= 0.0], and the page acquired, let [width] and
    [height] be the [int] conversions of [pageWidthPt * scale + 0.5] and
    [pageHeightPt * scale + 0.5], evaluated in double precision, where
    these conversions are defined.  When either is zero or negative,
    [RenderPage] releases the page and throws, returning no buffer.  When
    [RenderPage] returns, the result carries these two dimensions, both
    positive, and a buffer of [width * height * 4] bytes.  (These numbers
    are not always the rounded products: see C7.) *)
Theorem renderPage_dimensions (handle pageIndex : Z) (scale : float)
    (doc : FPDF_DOCUMENT) (w : World) (pg : FPDF_PAGE) (fromCache : bool) (w1 : World)
    (width height : Z) :
  g_documents w !! handle = Some doc →
  0 ≤ pageIndex < FPDF_GetPageCount (lib w) doc →
  (scale <=? 0)%float = false →
  AcquirePage handle doc pageIndex w = (Ok (Some pg, fromCache), w1) →
  double_to_int (FPDF_GetPageWidthF (lib w1) pg * scale + 0.5)%float = Some width →
  double_to_int (FPDF_GetPageHeightF (lib w1) pg * scale + 0.5)%float = Some height →
  (width ≤ 0 ∨ height ≤ 0 →
     RenderPage handle pageIndex scale w
       = (Throw JsError "renderPage: resulting bitmap size is zero",
          (ReleasePage handle pageIndex pg fromCache w1).2)) ∧
  (∀ r w', RenderPage handle pageIndex scale w = (Ok r, w') →
     res_width r = width ∧ res_height r = height ∧ 0 < width ∧ 0 < height ∧
     length (res_data r) = Z.to_nat (width * height * 4)).
Proof.
  intros Hdoc Hrange Hscale Hacq Hw Hh.
  destruct (RenderPage_acquired _ _ _ _ _ _ _ _ Hdoc Hrange Hscale Hacq)
    as (w' & Hrun & _ & _ & Hrel).
  unfold render_loaded in *. rewrite Hw, Hh in *. split.
  - intros Hzero. rewrite decide_True in * by done.
    destruct Hrel as [_ Hrel]; [done|]. by rewrite Hrun, (Hrel _ _ eq_refl).
  - intros r w2 Hok. rewrite Hok in Hrun.
    destruct (decide (width ≤ 0 ∨ height ≤ 0)) as [|Hpos]; [done|].
    destruct (FPDFBitmap_Create width height 1) as [bitmap|]; [|done].
    destruct (convert_rows _ _ width height) as [pixels|] eqn:Hpx; [|done].
    injection Hrun as -> _. cbn. apply convert_rows_length in Hpx.
    split_and!; try done; lia.
Qed.

Lemma render_loaded_same_page (l l' : LibState) pg pg' scale :
  same_page l pg l' pg' → render_loaded l' pg' scale = render_loaded l pg scale.
Proof.
  intros (Hw & Hh & Hr). unfold render_loaded. rewrite Hw, Hh.
  repeat case_match; simplify_eq; try done; rewrite Hr in *; congruence.
Qed.

Lemma AcquirePage_uncached handle doc pageIndex (w : World) :
  cache_lookup w handle pageIndex = None →
  AcquirePage handle doc pageIndex w
    = (Ok ((FPDF_LoadPage (lib w) doc pageIndex).1, false),
       lib_step (FPDF_LoadPage (lib w) doc pageIndex).2
                (CallLoadPage doc pageIndex (FPDF_LoadPage (lib w) doc pageIndex).1) w).
Proof.
  unfold cache_lookup, AcquirePage. intros H. munfold. rewrite H.
  by destruct (FPDF_LoadPage (lib w) doc pageIndex).
Qed.

(** C9.  Take a registered handle and a page without cache entry (an
    unedited page), in a library state in which the page reloads as it
    loaded.  If [RenderPage] returns or throws, a second [RenderPage] with
    the same arguments, run in the world the first one left, gives the same
    outcome: the same pixel buffer and dimensions, byte for byte, or the
    same error.  Rendering leaves the cache and the registry as they
    were. *)
Theorem render_twice_identical (handle pageIndex : Z) (scale : float)
    (doc : FPDF_DOCUMENT) (w : World) r1 w1 r2 w2 :
  g_documents w !! handle = Some doc →
  cache_lookup w handle pageIndex = None →
  reload_stable (lib w) doc pageIndex →
  RenderPage handle pageIndex scale w = (r1, w1) →
  RenderPage handle pageIndex scale w1 = (r2, w2) →
  r1 ≠ Undefined →
  r2 = r1 ∧ g_pageCache w2 = g_pageCache w ∧ g_documents w2 = g_documents w.
Proof.
  intros Hdoc Hnc Hstable H1 H2 Hdef.
  pose proof (RequireDocument_found _ _ _ Hdoc) as Hreq.
  destruct (decide (pageIndex < 0 ∨ pageIndex >= FPDF_GetPageCount (lib w) doc))
    as [Hout|Hin].
  { assert (w1 = w) as ->.
    { unfold RenderPage in H1. unfold bind at 1 in H1. rewrite Hreq in H1.
      unfold bind at 1, query at 1 in H1. rewrite decide_True in H1 by done.
      mcases. }
    rewrite H1 in H2. by injection H2 as <- <-. }
  destruct (scale <=? 0)%float eqn:Hscale.
  { assert (w1 = w) as ->.
    { unfold RenderPage in H1. unfold bind at 1 in H1. rewrite Hreq in H1.
      unfold bind at 1, query at 1 in H1. rewrite decide_False in H1 by done.
      rewrite Hscale in H1. unfold throw in H1. by injection H1 as _ <-. }
    rewrite H1 in H2. by injection H2 as <- <-. }
  assert (Hrange : 0 ≤ pageIndex < FPDF_GetPageCount (lib w) doc) by lia.
  pose proof (AcquirePage_uncached handle doc pageIndex w Hnc) as Hacq.
  unfold reload_stable in Hstable.
  destruct (FPDF_LoadPage (lib w) doc pageIndex) as [[pg|] l1] eqn:Hload;
    cbn [fst snd] in Hacq.
  - destruct (RenderPage_acquired _ _ _ _ _ _ _ _ Hdoc Hrange Hscale Hacq)
      as (w' & Hrun & Hd1 & Hc1 & Hrel).
    rewrite H1 in Hrun. injection Hrun as -> <-.
    destruct (Hrel Hdef) as [Hlib _]. cbn in Hlib.
    destruct Hstable as [Hcount Hagree]. rewrite <- Hlib in Hcount, Hagree.
    assert (Hdoc1 : g_documents w1 !! handle = Some doc) by (by rewrite Hd1).
    assert (Hnc1 : cache_lookup w1 handle pageIndex = None)
      by (unfold cache_lookup in *; by rewrite Hc1).
    pose proof (AcquirePage_uncached handle doc pageIndex w1 Hnc1) as Hacq1.
    rewrite Hload in Hagree.
    destruct (FPDF_LoadPage (lib w1) doc pageIndex) as [[pg'|] l1'] eqn:Hload1;
      [|done]. cbn [fst snd] in Hacq1.
    assert (Hrange1 : 0 ≤ pageIndex < FPDF_GetPageCount (lib w1) doc) by lia.
    destruct (RenderPage_acquired _ _ _ _ _ _ _ _ Hdoc1 Hrange1 Hscale Hacq1)
      as (w'' & Hrun2 & Hd2 & Hc2 & _).
    rewrite H2 in Hrun2. injection Hrun2 as -> <-. cbn [lib lib_step] in *.
    split; [by apply render_loaded_same_page|]. split; congruence.
  - (* the page does not load *)
    assert (Hfail : ∀ (w0 : World), g_documents w0 !! handle = Some doc →
              0 ≤ pageIndex < FPDF_GetPageCount (lib w0) doc →
              cache_lookup w0 handle pageIndex = None →
              ∀ l0, FPDF_LoadPage (lib w0) doc pageIndex = (None, l0) →
              RenderPage handle pageIndex scale w0
              = (Throw JsError ("renderPage: failed to load page " +:+ to_string pageIndex),
                 lib_step l0 (CallLoadPage doc pageIndex None) w0)).
    { intros w0 Hd0 Hr0 Hn0 l0 Hl0.
      unfold RenderPage. unfold bind at 1. rewrite (RequireDocument_found _ _ _ Hd0).
      unfold bind at 1, query at 1. rewrite decide_False by lia. rewrite Hscale.
      unfold bind at 1. rewrite (AcquirePage_uncached _ _ _ _ Hn0), Hl0. done. }
    rewrite (Hfail w Hdoc Hrange Hnc l1 Hload) in H1. injection H1 as <- <-.
    destruct Hstable as [Hcount Hagree]. rewrite Hload in Hagree.
    cbn [lib lib_step] in *.
    destruct (FPDF_LoadPage l1 doc pageIndex) as [[pg'|] l1'] eqn:Hload1; [done|].
    assert (Hrange1 : 0 ≤ pageIndex
              < FPDF_GetPageCount (lib (lib_step l1 (CallLoadPage doc pageIndex None) w)) doc)
      by (cbn; lia).
    rewrite (Hfail (lib_step l1 (CallLoadPage doc pageIndex None) w)
               Hdoc Hrange1 Hnc l1' Hload1) in H2.
    by injection H2 as <- <-.
Qed.
End Render.

(** ** Histories: what every operation does to the cache *)

Section Histories.
Context `{PDF : Pdfium}.

Lemma cleanup_pages_spec hs (w : World) :
  ∃ l evs, cleanup_pages hs w = (Ok tt, lib_steps l evs w).
Proof.
  revert w. induction hs as [|[h pages] hs IH]; intros w.
  - exists (lib w), []. by rewrite lib_steps_nil.
  - cbn [cleanup_pages]. unfold bind at 1.
    destruct (close_loop_spec (entries pages) w) as (l1 & ->).
    destruct (IH (lib_steps l1 (CallClosePage <$> (page <$> (entries pages).*2)) w))
      as (l & evs & ->).
    eexists _, _. by rewrite lib_steps_steps.
Qed.

Lemma cleanup_documents_spec ds (w : World) :
  ∃ l evs, cleanup_documents ds w = (Ok tt, lib_steps l evs w).
Proof.
  revert w. induction ds as [|[h doc] ds IH]; intros w.
  - exists (lib w), []. by rewrite lib_steps_nil.
  - cbn [cleanup_documents]. unfold bind at 1, call_ at 1.
    destruct (IH (lib_step (FPDF_CloseDocument (lib w) doc) (CallCloseDocument doc) w))
      as (l & evs & ->).
    eexists _, _. by rewrite lib_step_steps, lib_steps_steps.
Qed.

Lemma Cleanup_cache (w : World) : g_pageCache (Cleanup w).2 = ∅.
Proof.
  unfold Cleanup. unfold bind at 1, get_world at 1.
  destruct (cleanup_pages_spec (entries (g_pageCache w)) w) as (l1 & e1 & H1).
  unfold bind at 1. rewrite H1. unfold bind at 1, update at 1.
  unfold bind at 1.
  destruct (cleanup_documents_spec (entries (g_documents w))
              (set_pageCache (λ _, ∅) (lib_steps l1 e1 w))) as (l2 & e2 & H2).
  rewrite H2. mcases.
Qed.

Lemma perform_cache (op : Operation) (w : World) :
  g_pageCache (perform op w) =
  match op with
  | OpEdit handle pageIndex e =>
      match (run_edit handle pageIndex e w).1 with
      | Ok _ => g_pageCache (perform op w)
      | _ => g_pageCache w
      end
  | OpSave handle | OpClose handle =>
      if decide (is_Some (g_documents w !! handle))
      then delete handle (g_pageCache w) else g_pageCache w
  | OpCleanup => ∅
  | _ => g_pageCache w
  end.
Proof.
  destruct op as [buffer password|handle|handle|handle|handle pageIndex scale
                 |handle pageIndex|handle pageIndex e|]; cbn [perform].
  - unfold OpenDocument, EnsurePdfiumInit. mcases.
  - destruct (g_documents w !! handle) as [doc|] eqn:Hdoc.
    + rewrite decide_True by eauto.
      destruct (CloseDocument_spec handle doc w Hdoc) as (w' & Hc & _ & Hcache & _).
      by rewrite Hc.
    + rewrite decide_False by (by intros [? ?]).
      by rewrite CloseDocument_unknown.
  - unfold GetPageCount, RequireDocument. mcases.
  - destruct (g_documents w !! handle) as [doc|] eqn:Hdoc.
    + rewrite decide_True by eauto.
      destruct (SaveDocument_spec handle doc w Hdoc) as (flushed & w1 & Hf & ->).
      destruct (FlushAndCloseCachedPages_spec handle w) as (l & evs & Hf' & _).
      rewrite Hf in Hf'. injection Hf' as -> ->.
      destruct (forallb id _); [|done].
      by destruct (FPDF_SaveAsCopy _ doc 0) as [[blocks ok] l2].
    + rewrite decide_False by (by intros [? ?]).
      by destruct (unknown_handle_operations handle w Hdoc) as (_ & -> & _).
  - unfold RenderPage, RequireDocument, AcquirePage, ReleasePage. mcases.
  - unfold ListPageObjects, RequireDocument, AcquirePage, ReleasePage. mcases.
  - destruct (run_edit handle pageIndex e w) as [r w'] eqn:Hrun.
    destruct (run_edit_globals _ _ _ _ _ _ Hrun) as (_ & _ & Hc). cbn.
    by destruct r.
  - apply Cleanup_cache.
Qed.

Lemma lookup2_delete (c : gmap Z (gmap Z CachedPage)) h h' i :
  delete h c !! h' ≫= (.!! i) = if decide (h' = h) then None else c !! h' ≫= (.!! i).
Proof.
  destruct (decide (h' = h)) as [->|Hne].
  - by rewrite lookup_delete_eq.
  - by rewrite lookup_delete_ne.
Qed.

Lemma lookup2_insert (c : gmap Z (gmap Z CachedPage)) h i cp h' i' :
  <[h := <[i := cp]> (default ∅ (c !! h))]> c !! h' ≫= (.!! i')
  = if decide (h' = h ∧ i' = i) then Some cp else c !! h' ≫= (.!! i').
Proof.
  destruct (decide (h' = h)) as [->|Hne].
  - rewrite lookup_insert_eq. cbn.
    destruct (decide (i' = i)) as [->|Hni].
    + rewrite lookup_insert_eq. by rewrite decide_True.
    + rewrite lookup_insert_ne by done. rewrite decide_False by tauto.
      destruct (c !! h); [done|]. cbn. apply lookup_empty.
  - rewrite lookup_insert_ne by done. by rewrite decide_False by tauto.
Qed.

Lemma perform_invariant (op : Operation) (w : World) (P : gset (Z * Z)) :
  all_dirty w →
  (∀ h i, is_Some (cache_lookup w h i) ↔ (h, i) ∈ P) →
  all_dirty (perform op w) ∧
  (∀ h i, is_Some (cache_lookup (perform op w) h i) ↔ (h, i) ∈ track op w P).
Proof.
  intros Hdirty HP. unfold all_dirty, cache_lookup in *.
  assert (Hsame : g_pageCache (perform op w) = g_pageCache w →
                  track op w P = P →
                  (∀ h i cp, g_pageCache (perform op w) !! h ≫= (.!! i) = Some cp →
                             dirty cp = true) ∧
                  (∀ h i, is_Some (g_pageCache (perform op w) !! h ≫= (.!! i))
                          ↔ (h, i) ∈ track op w P)).
  { intros -> ->. done. }
  assert (Hdel : ∀ handle, g_pageCache (perform op w) = delete handle (g_pageCache w) →
                  track op w P = filter (λ x, x.1 ≠ handle) P →
                  (∀ h i cp, g_pageCache (perform op w) !! h ≫= (.!! i) = Some cp →
                             dirty cp = true) ∧
                  (∀ h i, is_Some (g_pageCache (perform op w) !! h ≫= (.!! i))
                          ↔ (h, i) ∈ track op w P)).
  { intros handle -> ->. split.
    - intros h i cp. rewrite lookup2_delete. case_decide; [done|]. apply Hdirty.
    - intros h i. rewrite lookup2_delete, elem_of_filter. cbn.
      case_decide as Hh.
      + split; [by intros [? ?]|]. by intros [? _].
      + rewrite HP. tauto. }
  pose proof (perform_cache op w) as Hcache.
  destruct op as [buffer password|handle|handle|handle|handle pageIndex scale
                 |handle pageIndex|handle pageIndex e|].
  - by apply Hsame.
  - destruct (decide (is_Some (g_documents w !! handle))) as [Hreg|Hreg].
    + apply (Hdel handle); [done|]. cbn [track]. by rewrite decide_True.
    + apply Hsame; [done|]. cbn [track]. by rewrite decide_False.
  - by apply Hsame.
  - destruct (decide (is_Some (g_documents w !! handle))) as [Hreg|Hreg].
    + apply (Hdel handle); [done|]. cbn [track]. by rewrite decide_True.
    + apply Hsame; [done|]. cbn [track]. by rewrite decide_False.
  - by apply Hsame.
  - by apply Hsame.
  - clear Hcache. cbn [track]. unfold edit_succeeds. cbn [perform].
    destruct (run_edit handle pageIndex e w) as [r w'] eqn:Hrun.
    destruct (run_edit_globals _ _ _ _ _ _ Hrun) as (_ & _ & Hc). cbn [fst snd].
    destruct r as [[]| |].
    + destruct Hc as (pg & ->). split.
      * intros h i cp. rewrite lookup2_insert. case_decide; [|apply Hdirty].
        by intros [= <-].
      * intros h i. rewrite lookup2_insert, elem_of_union, elem_of_singleton.
        case_decide as Hhi.
        -- destruct Hhi as [-> ->]. split; [by left|eauto].
        -- rewrite HP. split; [by right|]. intros [[= -> ->]|?]; [tauto|done].
    + rewrite Hc. done.
    + rewrite Hc. done.
  - cbn [perform track] in *. rewrite Hcache. split.
    + intros h i cp. by rewrite lookup_empty.
    + intros h i. rewrite lookup_empty. cbn. split; [by intros [? ?]|set_solver].
Qed.

Lemma run_invariant (ops : list Operation) (w : World) (P : gset (Z * Z)) :
  all_dirty w →
  (∀ h i, is_Some (cache_lookup w h i) ↔ (h, i) ∈ P) →
  all_dirty (run ops w) ∧
  (∀ h i, is_Some (cache_lookup (run ops w) h i) ↔ (h, i) ∈ pending_edits P ops w).
Proof.
  revert w P. induction ops as [|op ops IH]; intros w P Hd HP; [done|].
  cbn [run pending_edits].
  destruct (perform_invariant op w P Hd HP) as [Hd' HP']. by apply IH.
Qed.

Lemma filter_all {A} (P : A → Prop) `{∀ x, Decision (P x)} (l : list A) :
  (∀ x, x ∈ l → P x) → filter P l = l.
Proof.
  induction l as [|x l IH]; intros Hall; [done|].
  rewrite filter_cons_True by (apply Hall; left).
  f_equal. apply IH. intros y Hy. apply Hall. by right.
Qed.

(** C10.  In every state reached from the initial one by any sequence of
    the exported functions and the cleanup hook: every cache entry has
    [dirty = true]; a page has a cache entry exactly when one of the edits
    succeeded on it and no save or close of its (registered) handle and no
    cleanup came after; and a flush regenerates every entry it visits, its
    dirty test never failing. *)
Theorem cached_entries_are_dirty (l0 : LibState) (ops : list Operation) :
  let w := run ops (initial_world l0) in
  (∀ handle pageIndex cp, cache_lookup w handle pageIndex = Some cp → dirty cp = true) ∧
  (∀ handle pageIndex,
     is_Some (cache_lookup w handle pageIndex)
     ↔ (handle, pageIndex) ∈ pending_edits ∅ ops (initial_world l0)) ∧
  (∀ handle,
     filter (λ cp, dirty cp = true) (cached_entries w handle) = cached_entries w handle ∧
     ∃ b w' evs, FlushAndCloseCachedPages handle w = (Ok b, w') ∧
                 trace w' = trace w ++ evs ∧
                 regenerated evs = page <$> cached_entries w handle ∧
                 closed_pages evs = page <$> cached_entries w handle).
Proof.
  intros w.
  destruct (run_invariant ops (initial_world l0) ∅) as [Hd HP].
  { intros h i cp. unfold cache_lookup. cbn. by rewrite lookup_empty. }
  { intros h i. unfold cache_lookup. cbn. rewrite lookup_empty. cbn.
    split; [by intros [? ?]|set_solver]. }
  split; [exact Hd|]. split; [exact HP|].
  intros handle.
  assert (Hall : filter (λ cp, dirty cp = true) (cached_entries w handle)
                 = cached_entries w handle).
  { apply filter_all. intros cp Hcp.
    apply (proj1 (cached_entries_enumerate w handle)) in Hcp as (i & Hi).
    by apply (Hd handle i). }
  split; [exact Hall|].
  destruct (FlushAndCloseCachedPages_spec handle w) as (l & evs & Hf & Hr & Hc & _).
  eexists _, _, evs. split; [exact Hf|]. rewrite Hr, Hall. done.
Qed.

End Histories.

(** ** The theorems on concrete inputs *)

Lemma renderPage_dimensions_witness :
  ∃ r (w' : World (PDF := toy_pdfium)),
    RenderPage 1 0 1.5 (toy_world toy_lib_small) = (Ok r, w') ∧
    res_width r = 5 ∧ res_height r = 3 ∧ length (res_data r) = 60%nat.
Proof.
  assert (Hrun : ∃ r (w' : World (PDF := toy_pdfium)),
            RenderPage 1 0 1.5 (toy_world toy_lib_small) = (Ok r, w'))
    by (vm_compute; eexists _, _; reflexivity).
  destruct Hrun as (r & w' & Hrun).
  assert (Hdoc : g_documents (toy_world toy_lib_small) !! 1 = Some 1%positive)
    by (vm_compute; reflexivity).
  assert (Hacq : AcquirePage 1 1%positive 0 (toy_world toy_lib_small)
                 = (Ok (Some 1%positive, false),
                    (AcquirePage 1 1%positive 0 (toy_world toy_lib_small)).2))
    by (vm_compute; reflexivity).
  destruct (renderPage_dimensions (PDF := toy_pdfium) 1 0 1.5 1%positive
              (toy_world toy_lib_small) 1%positive false
              (AcquirePage 1 1%positive 0 (toy_world toy_lib_small)).2 5 3 Hdoc)
    as [_ Hok].
  { vm_compute. split; [intro Hc; discriminate Hc|reflexivity]. }
  { vm_compute. reflexivity. }
  { exact Hacq. }
  { vm_compute. reflexivity. }
  { vm_compute. reflexivity. }
  destruct (Hok r w' Hrun) as (Hw & Hh & _ & _ & Hlen).
  exists r, w'. split; [exact Hrun|]. split; [exact Hw|]. split; [exact Hh|exact Hlen].
Defined.

(** C7.  The claim: the pixel dimensions are the rounded products
    [round(pageWidthPt * scale)] and [round(pageHeightPt * scale)], and
    [RenderPage] fails when either is zero.  The code rounds by
    [static_cast<int>(x + 0.5)] and misses: for a page one point wide and
    high, rendered at the largest scale below one half, the product is
    below one half, so its rounding ([spec_dimension]) is zero and the
    claim requires a failure; the sum with 0.5 rounds up to 1.0 in double
    precision and [RenderPage] returns a bitmap of one pixel. *)
Lemma renderPage_dimension_not_rounded :
  g_documents (toy_world toy_lib_1pt) !! 1 = Some 1%positive ∧
  0 ≤ 0 < FPDF_GetPageCount (Pdfium := toy_pdfium) (lib (toy_world toy_lib_1pt)) 1%positive ∧
  (0 <? just_below_half)%float = true ∧
  spec_dimension (toy_width toy_lib_1pt) just_below_half = Some 0 ∧
  (RenderPage 1 0 just_below_half (toy_world toy_lib_1pt)).1
    = Ok {| res_data := ["255"; "255"; "255"; "255"]%byte;
            res_width := 1; res_height := 1 |}.
Proof.
  vm_compute. split_and!; try reflexivity. intro Hc; discriminate Hc.
Qed.

(** The same conversion is undefined when the sum does not fit an [int]:
    the page of one point at scale [2 ^ 31]. *)
Lemma renderPage_dimension_cast_undefined :
  g_documents (toy_world toy_lib_1pt) !! 1 = Some 1%positive ∧
  spec_dimension (toy_width toy_lib_1pt) 0x1p31 = Some (2 ^ 31) ∧
  double_to_int (toy_width toy_lib_1pt * 0x1p31 + 0.5)%float = None ∧
  (RenderPage (PDF := toy_pdfium) 1 0 0x1p31 (toy_world toy_lib_1pt)).1 = Undefined.
Proof. vm_compute. split_and!; reflexivity. Qed.

Lemma render_twice_identical_witness :
  (RenderPage (PDF := toy_pdfium) 1 0 1.5
     (RenderPage 1 0 1.5 (toy_world toy_lib_small)).2).1
  = (RenderPage 1 0 1.5 (toy_world toy_lib_small)).1.
Proof.
  assert (Hdoc : g_documents (toy_world toy_lib_small) !! 1 = Some 1%positive)
    by (vm_compute; reflexivity).
  assert (Hnc : cache_lookup (toy_world toy_lib_small) 1 0 = None)
    by (vm_compute; reflexivity).
  assert (Hstable : reload_stable (PDF := toy_pdfium)
                      (lib (toy_world toy_lib_small)) 1%positive 0).
  { vm_compute. split; [reflexivity|]. split; [reflexivity|].
    split; [reflexivity|]. intros; reflexivity. }
  assert (Hdef : (RenderPage (PDF := toy_pdfium) 1 0 1.5 (toy_world toy_lib_small)).1
                 ≠ Undefined) by (vm_compute; discriminate).
  destruct (render_twice_identical (PDF := toy_pdfium) 1 0 1.5 1%positive
              (toy_world toy_lib_small)
              (RenderPage 1 0 1.5 (toy_world toy_lib_small)).1
              (RenderPage 1 0 1.5 (toy_world toy_lib_small)).2
              (RenderPage 1 0 1.5 (RenderPage 1 0 1.5 (toy_world toy_lib_small)).2).1
              (RenderPage 1 0 1.5 (RenderPage 1 0 1.5 (toy_world toy_lib_small)).2).2
              Hdoc Hnc Hstable) as (Heq & _ & _).
  { apply surjective_pairing. }
  { apply surjective_pairing. }
  { exact Hdef. }
  exact Heq.
Defined.

Lemma history_example :
  pending_edits (PDF := toy_pdfium) ∅
    [OpEdit 1 2 (EditText 0 [65]); OpRender 1 2 1.5; OpEdit 1 0 (EditText 0 [66]);
     OpEdit 1 1 (EditText 1 [67])] (toy_world toy_lib_small)
  = {[ (1, 2); (1, 0) ]} ∧
  cached_entries
    (run [OpEdit 1 2 (EditText 0 [65]); OpRender 1 2 1.5; OpEdit 1 0 (EditText 0 [66]);
          OpEdit 1 1 (EditText 1 [67])] (toy_world toy_lib_small)) 1
  = [ {| page := 1%positive; dirty := true |}; {| page := 3%positive; dirty := true |} ].
Proof. vm_compute. split; reflexivity. Qed.

(** ** Resource release (addon.cc) *)

Ltac solve_trace :=
  first [ symmetry; apply app_nil_r | rewrite <- ?app_assoc; reflexivity ].

Lemma loaded_pages_app a b : loaded_pages (a ++ b) = loaded_pages a ++ loaded_pages b.
Proof. apply omap_app. Qed.

Lemma closed_documents_app a b :
  closed_documents (a ++ b) = closed_documents a ++ closed_documents b.
Proof. apply omap_app. Qed.

Lemma closed_documents_close ds : closed_documents (CallCloseDocument <$> ds) = ds.
Proof.
  unfold closed_documents. induction ds as [|d ds IH]; [done|]. cbn. by rewrite IH.
Qed.

Lemma closed_documents_pages ps : closed_documents (CallClosePage <$> ps) = [].
Proof. by induction ps. Qed.

Lemma closed_pages_documents ds : closed_pages (CallCloseDocument <$> ds) = [].
Proof. by induction ds. Qed.

Lemma regenerated_documents ds : regenerated (CallCloseDocument <$> ds) = [].
Proof. by induction ds. Qed.

Lemma serialized_close ps : serialized (CallClosePage <$> ps) = [].
Proof. by induction ps. Qed.

Lemma serialized_documents ds : serialized (CallCloseDocument <$> ds) = [].
Proof. by induction ds. Qed.

Section Resources.
Context `{PDF : Pdfium}.

(** X1.  [DiscardCachedPages handle] closes the page of every cached entry of
    the handle, in order, and makes no other library call: nothing is
    regenerated, whatever the dirty flags.  It removes the entries of the
    handle and leaves the entries of every other handle and the registry
    alone. *)
Theorem discardAll_closes_without_regenerating (handle : Z) (w : World) :
  ∃ w' evs,
    DiscardCachedPages handle w = (Ok tt, w') ∧
    trace w' = trace w ++ evs ∧
    evs = CallClosePage <$> (page <$> cached_entries w handle) ∧
    closed_pages evs = page <$> cached_entries w handle ∧
    regenerated evs = [] ∧
    g_pageCache w' = delete handle (g_pageCache w) ∧
    (∀ i, cache_lookup w' handle i = None) ∧
    (∀ h i, h ≠ handle → cache_lookup w' h i = cache_lookup w h i) ∧
    g_documents w' = g_documents w.
Proof.
  destruct (DiscardCachedPages_spec handle w) as (l & Hd).
  eexists _, _. split; [exact Hd|]. split; [reflexivity|].
  split; [done|]. rewrite closed_pages_close, regenerated_close.
  split_and!; try done.
  - intros i. unfold cache_lookup. cbn. by rewrite lookup_delete_eq.
  - intros h i Hne. unfold cache_lookup. cbn. by rewrite lookup_delete_ne.
Qed.

Lemma cleanup_pages_calls hs (w : World) :
  ∃ l, cleanup_pages hs w
       = (Ok tt, lib_steps l
            (CallClosePage <$> (hs.*2 ≫= (fun pages => page <$> (entries pages).*2))) w).
Proof.
  revert w. induction hs as [|[h pages] hs IH]; intros w.
  - exists (lib w). by rewrite lib_steps_nil.
  - cbn [cleanup_pages]. unfold bind at 1.
    destruct (close_loop_spec (entries pages) w) as (l1 & ->).
    destruct (IH (lib_steps l1 (CallClosePage <$> (page <$> (entries pages).*2)) w))
      as (l & ->).
    exists l. rewrite lib_steps_steps. do 2 f_equal.
    rewrite fmap_cons. cbn. by rewrite fmap_app.
Qed.

Lemma cleanup_documents_calls ds (w : World) :
  ∃ l, cleanup_documents ds w = (Ok tt, lib_steps l (CallCloseDocument <$> ds.*2) w).
Proof.
  revert w. induction ds as [|[h doc] ds IH]; intros w.
  - exists (lib w). by rewrite lib_steps_nil.
  - cbn [cleanup_documents]. unfold bind at 1, call_ at 1.
    destruct (IH (lib_step (FPDF_CloseDocument (lib w) doc) (CallCloseDocument doc) w))
      as (l & ->).
    exists l. by rewrite lib_step_steps, lib_steps_steps.
Qed.

Lemma Cleanup_calls (w : World) :
  ∃ w', Cleanup w = (Ok tt, w') ∧
    trace w' = trace w ++ (CallClosePage <$> all_cached_pages w)
                       ++ (CallCloseDocument <$> all_documents w)
                       ++ (if g_initialized w then [CallDestroyLibrary] else []) ∧
    g_pageCache w' = ∅ ∧ g_documents w' = ∅ ∧ g_initialized w' = false ∧
    g_nextHandle w' = g_nextHandle w.
Proof.
  unfold Cleanup, all_cached_pages, all_documents. unfold bind at 1, get_world at 1.
  destruct (cleanup_pages_calls (entries (g_pageCache w)) w) as (l1 & H1).
  unfold bind at 1. rewrite H1. unfold bind at 1, update at 1.
  unfold bind at 1.
  destruct (cleanup_documents_calls (entries (g_documents w))
              (set_pageCache (λ _, ∅) (lib_steps l1
                 (CallClosePage <$> ((entries (g_pageCache w)).*2 ≫=
                     (fun pages => page <$> (entries pages).*2))) w))) as (l2 & H2).
  rewrite H2. unfold bind at 1, update at 1. unfold bind at 1, get_world at 1.
  cbn [g_initialized set_documents set_pageCache lib_steps].
  destruct (g_initialized w) eqn:Hi.
  - eexists. split; [reflexivity|]. cbn. rewrite <- !app_assoc. done.
  - eexists. split; [reflexivity|]. cbn. rewrite <- !app_assoc, app_nil_r. done.
Qed.

(** X2.  The cleanup hook closes every cached page of every handle, then
    every registered document, then destroys the library if it was
    initialised; it regenerates and serializes nothing.  It leaves the cache
    and the registry empty, so every handle is unknown afterwards, and the
    library marked uninitialised. *)
Theorem cleanup_releases_everything (w : World) :
  ∃ w' evs,
    Cleanup w = (Ok tt, w') ∧
    trace w' = trace w ++ evs ∧
    evs = (CallClosePage <$> all_cached_pages w)
          ++ (CallCloseDocument <$> all_documents w)
          ++ (if g_initialized w then [CallDestroyLibrary] else []) ∧
    closed_pages evs = all_cached_pages w ∧
    closed_documents evs = all_documents w ∧
    regenerated evs = [] ∧ serialized evs = [] ∧
    (∀ h, g_documents w' !! h = None) ∧
    (∀ h i, cache_lookup w' h i = None) ∧
    g_initialized w' = false.
Proof.
  destruct (Cleanup_calls w) as (w' & Hrun & Htr & Hc & Hd & Hi & _).
  eexists _, _. split; [exact Hrun|]. split; [exact Htr|]. split; [done|].
  rewrite !closed_pages_app, !closed_documents_app, !regenerated_app, !serialized_app.
  rewrite closed_pages_close, closed_pages_documents, closed_documents_pages,
    closed_documents_close, regenerated_close, regenerated_documents,
    serialized_close, serialized_documents.
  split_and!.
  - destruct (g_initialized w); cbn; apply app_nil_r.
  - destruct (g_initialized w); cbn; apply app_nil_r.
  - by destruct (g_initialized w).
  - by destruct (g_initialized w).
  - intros h. by rewrite Hd.
  - intros h i. unfold cache_lookup. by rewrite Hc.
  - done.
Qed.

Lemma EnsurePdfiumInit_spec (w : World) :
  ∃ w1, EnsurePdfiumInit w = (Ok tt, w1) ∧
    g_documents w1 = g_documents w ∧ g_pageCache w1 = g_pageCache w ∧
    g_nextHandle w1 = g_nextHandle w ∧ g_initialized w1 = true ∧
    trace w1 = trace w ++ (if g_initialized w then [] else [CallInitLibrary]).
Proof.
  unfold EnsurePdfiumInit. munfold. destruct (g_initialized w) eqn:Hi.
  - eexists. split; [reflexivity|]. by rewrite app_nil_r.
  - eexists. split; [reflexivity|]. done.
Qed.

(** X3.  [EnsurePdfiumInit] initialises the library exactly when it is not
    marked initialised, and marks it; called again, it does nothing. *)
Theorem ensurePdfiumInit_only_first_call_has_effect (w : World) :
  ∃ w1, EnsurePdfiumInit w = (Ok tt, w1) ∧
    g_initialized w1 = true ∧
    trace w1 = trace w ++ (if g_initialized w then [] else [CallInitLibrary]) ∧
    EnsurePdfiumInit w1 = (Ok tt, w1).
Proof.
  destruct (EnsurePdfiumInit_spec w) as (w1 & Hrun & _ & _ & _ & Hi & Htr).
  exists w1. split_and!; try done.
  unfold EnsurePdfiumInit. munfold. by rewrite Hi.
Qed.

End Resources.

(** ** The document registry (document.cc) *)

Section Registry.
Context `{PDF : Pdfium}.

Lemma OpenDocument_spec (buffer : option (list byte)) (password : option string)
    (w : World) :
  ∃ w1, EnsurePdfiumInit w = (Ok tt, w1) ∧
  match buffer with
  | None =>
      OpenDocument None password w
      = (Throw JsTypeError "openDocument: first argument must be a Buffer", w1)
  | Some bytes =>
      match FPDF_LoadMemDocument (lib w1) bytes (wrap_int (Z.of_nat (length bytes)))
                                 password with
      | (None, l) =>
          OpenDocument (Some bytes) password w
          = (Throw JsError (GetPdfiumErrorMessage (FPDF_GetLastError l)),
             lib_step l (CallLoadMemDocument None) w1)
      | (Some doc, l) =>
          if in_int_range (g_nextHandle w + 1) then
            OpenDocument (Some bytes) password w
            = (Ok (g_nextHandle w),
               set_documents <[g_nextHandle w := doc]>
                 (set_nextHandle (g_nextHandle w + 1)
                    (lib_step l (CallLoadMemDocument (Some doc)) w1)))
          else
            OpenDocument (Some bytes) password w
            = (Undefined, lib_step l (CallLoadMemDocument (Some doc)) w1)
      end
  end.
Proof.
  destruct (EnsurePdfiumInit_spec w) as (w1 & Hinit & _ & _ & Hnext & _).
  exists w1. split; [exact Hinit|].
  destruct buffer as [bytes|].
  2: { unfold OpenDocument. unfold bind at 1. by rewrite Hinit. }
  assert (Hstart : ∀ l od,
            FPDF_LoadMemDocument (lib w1) bytes
              (wrap_int (Z.of_nat (length bytes))) password = (od, l) →
            OpenDocument (Some bytes) password w
            = match od with
              | Some doc =>
                  if in_int_range (g_nextHandle w + 1) then
                    (Ok (g_nextHandle w),
                     set_documents <[g_nextHandle w := doc]>
                       (set_nextHandle (g_nextHandle w + 1)
                          (lib_step l (CallLoadMemDocument (Some doc)) w1)))
                  else (Undefined, lib_step l (CallLoadMemDocument (Some doc)) w1)
              | None =>
                  (Throw JsError (GetPdfiumErrorMessage (FPDF_GetLastError l)),
                   lib_step l (CallLoadMemDocument None) w1)
              end).
  { intros l od Hload. unfold OpenDocument. unfold bind at 1. rewrite Hinit.
    unfold bind at 1, call at 1. rewrite Hload. destruct od as [doc|]; [|done].
    unfold bind at 1, get_world at 1. cbn [g_nextHandle lib_step]. rewrite Hnext.
    unfold checked_int. by destruct (in_int_range (g_nextHandle w + 1)). }
  destruct (FPDF_LoadMemDocument _ _ _ _) as [[doc|] l] eqn:Hload.
  - rewrite (Hstart _ _ eq_refl). by destruct (in_int_range _).
  - by rewrite (Hstart _ _ eq_refl).
Qed.

Lemma openDocument_fresh (buffer : option (list byte))
    (password : option string) (w : World) (handle : Z) (w' : World) :
  handles_in_order w →
  OpenDocument buffer password w = (Ok handle, w') →
  handle = g_nextHandle w ∧
  g_documents w !! handle = None ∧
  is_Some (g_documents w' !! handle) ∧
  (∀ h, h ≠ handle → g_documents w' !! h = g_documents w !! h) ∧
  g_nextHandle w' = handle + 1 ∧
  g_pageCache w' = g_pageCache w ∧
  handles_in_order w'.
Proof.
  intros [Hpos Hord] Hopen.
  destruct (OpenDocument_spec buffer password w) as (w1 & Hinit & Hspec).
  destruct (EnsurePdfiumInit_spec w) as (w1' & Hinit' & Hd & Hc & Hn & _).
  rewrite Hinit in Hinit'. injection Hinit' as <-.
  destruct buffer as [bytes|]; [|congruence].
  destruct (FPDF_LoadMemDocument _ _ _ _) as [[doc|] l]; [|congruence].
  destruct (in_int_range _); [|congruence].
  rewrite Hopen in Hspec. injection Hspec as -> ->.
  cbn. rewrite Hd, Hc.
  assert (Hfresh : g_documents w !! g_nextHandle w = None).
  { destruct (g_documents w !! g_nextHandle w) eqn:E; [|done].
    specialize (Hord (g_nextHandle w) ltac:(eauto)). lia. }
  split_and!; try done.
  - rewrite lookup_insert_eq. eauto.
  - intros h Hne. by rewrite lookup_insert_ne.
  - split; cbn; [lia|]. intros h. rewrite lookup_insert.
    case_decide; [lia|]. rewrite Hd. intros Hh. specialize (Hord h Hh). lia.
Qed.

(** X4.  When [OpenDocument] throws, nothing is registered: the registry,
    the handle counter and the cache are as before, and the library is
    initialised.  There are two ways to throw.  A first argument that is
    missing or is not a Buffer gives a TypeError, after the initialisation
    (if it was still due) and with no load attempted.  A buffer that PDFium
    cannot load gives an Error whose message is derived from
    [FPDF_GetLastError], and the library calls are the initialisation, if it
    was still due, and the failed load. *)
Theorem openDocument_failure_registers_nothing (buffer : option (list byte))
    (password : option string) (w : World) (cls : JsErrorClass) (msg : string) (w' : World) :
  OpenDocument buffer password w = (Throw cls msg, w') →
  g_documents w' = g_documents w ∧ g_nextHandle w' = g_nextHandle w ∧
  g_pageCache w' = g_pageCache w ∧ g_initialized w' = true ∧
  match buffer with
  | None =>
      cls = JsTypeError ∧ msg = "openDocument: first argument must be a Buffer" ∧
      trace w' = trace w ++ (if g_initialized w then [] else [CallInitLibrary]) ∧
      lib w' = (if g_initialized w then lib w else FPDF_InitLibraryWithConfig (lib w))
  | Some bytes =>
      cls = JsError ∧ msg = GetPdfiumErrorMessage (FPDF_GetLastError (lib w')) ∧
      trace w' = trace w ++ (if g_initialized w then [] else [CallInitLibrary])
                         ++ [CallLoadMemDocument None] ∧
      (FPDF_LoadMemDocument
         (if g_initialized w then lib w else FPDF_InitLibraryWithConfig (lib w))
         bytes (wrap_int (Z.of_nat (length bytes))) password) = (None, lib w')
  end.
Proof.
  intros Hopen.
  destruct (OpenDocument_spec buffer password w) as (w1 & Hinit & Hspec).
  destruct (EnsurePdfiumInit_spec w) as (w1' & Hinit' & Hd & Hc & Hn & Hi & Htr).
  rewrite Hinit in Hinit'. injection Hinit' as <-.
  assert (Hlib : lib w1
                 = if g_initialized w then lib w else FPDF_InitLibraryWithConfig (lib w)).
  { revert Hinit. unfold EnsurePdfiumInit. munfold.
    destruct (g_initialized w); by intros [= <-]. }
  destruct buffer as [bytes|].
  - rewrite <- Hlib.
    destruct (FPDF_LoadMemDocument _ _ _ _) as [[doc|] l].
    { destruct (in_int_range _); congruence. }
    rewrite Hopen in Hspec. injection Hspec as -> -> ->. cbn.
    split_and!; try done. by rewrite Htr, <- app_assoc.
  - rewrite Hopen in Hspec. injection Hspec as -> -> ->.
    split_and!; done.
Qed.

Lemma RenderPage_globals h i scale (w : World) :
  g_documents (RenderPage h i scale w).2 = g_documents w ∧
  g_nextHandle (RenderPage h i scale w).2 = g_nextHandle w.
Proof.
  destruct (RenderPage h i scale w) as [r w'] eqn:H. revert H.
  unfold RenderPage, RequireDocument, AcquirePage, ReleasePage. intros H. mcases.
Qed.

Lemma ListPageObjects_globals h i (w : World) :
  g_documents (ListPageObjects h i w).2 = g_documents w ∧
  g_nextHandle (ListPageObjects h i w).2 = g_nextHandle w.
Proof.
  destruct (ListPageObjects h i w) as [r w'] eqn:H. revert H.
  unfold ListPageObjects, RequireDocument, AcquirePage, ReleasePage. intros H. mcases.
Qed.

Lemma run_edit_registered h i e (w : World) r w' :
  run_edit h i e w = (Ok r, w') → is_Some (g_documents w !! h).
Proof.
  destruct e; cbn [run_edit];
    unfold EditTextObject, ReplaceImageObject, ReplaceImageObjectBitmap,
           RequireDocument, AcquirePage, ReleasePage, CachePageDirty, out_of_range;
    intros H; mcases; eauto.
Qed.

Lemma perform_documents (op : Operation) (w : World) :
  g_nextHandle (perform op w) =
    match op with
    | OpOpen buffer password =>
        match (OpenDocument buffer password w).1 with
        | Ok _ => g_nextHandle w + 1
        | _ => g_nextHandle w
        end
    | _ => g_nextHandle w
    end ∧
  g_documents (perform op w) =
    match op with
    | OpOpen buffer password =>
        match (OpenDocument buffer password w).1 with
        | Ok _ => g_documents (perform op w)
        | _ => g_documents w
        end
    | OpClose handle => delete handle (g_documents w)
    | OpCleanup => ∅
    | _ => g_documents w
    end.
Proof.
  destruct op as [buffer password|handle|handle|handle|handle pageIndex scale
                 |handle pageIndex|handle pageIndex e|]; cbn [perform].
  - destruct (OpenDocument_spec buffer password w) as (w1 & Hinit & Hspec).
    destruct (EnsurePdfiumInit_spec w) as (w1' & Hinit' & Hd & Hc & Hn & _).
    rewrite Hinit in Hinit'. injection Hinit' as <-.
    destruct buffer as [bytes|]; [|by rewrite Hspec].
    destruct (FPDF_LoadMemDocument _ _ _ _) as [[doc|] l].
    + destruct (in_int_range _); rewrite Hspec; cbn; done.
    + rewrite Hspec. cbn. done.
  - destruct (g_documents w !! handle) as [doc|] eqn:Hdoc.
    + destruct (CloseDocument_spec handle doc w Hdoc) as (w' & Hc & _ & _ & Hdocs).
      rewrite Hc. cbn. split; [|done].
      revert Hc. unfold CloseDocument. munfold. rewrite Hdoc.
      destruct (DiscardCachedPages_spec handle w) as (l & ->). by intros [= <-].
    + rewrite CloseDocument_unknown by done. cbn. by rewrite delete_id.
  - unfold GetPageCount, RequireDocument. mcases.
  - destruct (g_documents w !! handle) as [doc|] eqn:Hdoc.
    + destruct (SaveDocument_spec handle doc w Hdoc) as (flushed & w1 & Hf & ->).
      destruct (FlushAndCloseCachedPages_spec handle w) as (l & evs & Hf' & _).
      rewrite Hf in Hf'. injection Hf' as -> ->.
      destruct (forallb id _); [|done].
      by destruct (FPDF_SaveAsCopy _ doc 0) as [[blocks ok] l2].
    + by destruct (unknown_handle_operations handle w Hdoc) as (_ & -> & _).
  - by destruct (RenderPage_globals handle pageIndex scale w).
  - by destruct (ListPageObjects_globals handle pageIndex w).
  - destruct (run_edit handle pageIndex e w) as [r w'] eqn:Hrun.
    by destruct (run_edit_globals _ _ _ _ _ _ Hrun) as (? & ? & _).
  - unfold Cleanup. unfold bind at 1, get_world at 1.
    destruct (cleanup_pages_spec (entries (g_pageCache w)) w) as (l1 & e1 & H1).
    unfold bind at 1. rewrite H1. unfold bind at 1, update at 1.
    unfold bind at 1.
    destruct (cleanup_documents_spec (entries (g_documents w))
                (set_pageCache (λ _, ∅) (lib_steps l1 e1 w))) as (l2 & e2 & H2).
    rewrite H2. mcases.
Qed.

Lemma perform_registry (op : Operation) (w : World) :
  handles_in_order w → cache_within_registry w →
  handles_in_order (perform op w) ∧ cache_within_registry (perform op w).
Proof.
  intros [Hpos Hord] Hcw.
  destruct (perform_documents op w) as [Hn Hd].
  pose proof (perform_cache op w) as Hc.
  unfold handles_in_order, cache_within_registry.
  destruct op as [buffer password|handle|handle|handle|handle pageIndex scale
                 |handle pageIndex|handle pageIndex e|].
  - rewrite Hc. cbn [perform] in *.
    destruct (OpenDocument buffer password w) as [[h| |] w'] eqn:Hopen; cbn [fst snd] in *.
    + destruct (openDocument_fresh _ _ _ _ _ (conj Hpos Hord) Hopen)
        as (-> & Hfresh & Hreg & Hothers & Hnext & _).
      rewrite Hn. split; [split; [lia|]|].
      * intros h Hh. destruct (decide (h = g_nextHandle w)) as [->|Hne]; [lia|].
        rewrite Hothers in Hh by done. specialize (Hord h Hh). lia.
      * intros h Hh. destruct (decide (h = g_nextHandle w)) as [->|Hne]; [done|].
        rewrite Hothers by done. by apply Hcw.
    + rewrite Hn, Hd. done.
    + rewrite Hn, Hd. done.
  - rewrite Hn, Hd. split; [split; [done|]|].
    + intros h [_ Hh]%lookup_delete_is_Some. by apply Hord.
    + intros h Hin. apply lookup_delete_is_Some.
      destruct (decide (is_Some (g_documents w !! handle))) as [Hreg|Hreg].
      * rewrite Hc in Hin. apply lookup_delete_is_Some in Hin as [Hne Hin].
        split; [done|]. by apply Hcw.
      * rewrite Hc in Hin. split; [|by apply Hcw].
        intros ->. by apply Hreg, Hcw.
  - rewrite Hn, Hd, Hc. done.
  - rewrite Hn, Hd. split; [done|]. intros h Hin.
    destruct (decide (is_Some (g_documents w !! handle))) as [Hreg|Hreg];
      rewrite Hc in Hin.
    + apply lookup_delete_is_Some in Hin as [_ Hin]. by apply Hcw.
    + by apply Hcw.
  - rewrite Hn, Hd, Hc. done.
  - rewrite Hn, Hd, Hc. done.
  - rewrite Hn, Hd. split; [done|]. cbn [perform] in *.
    destruct (run_edit handle pageIndex e w) as [r w'] eqn:Hrun. cbn [fst snd] in *.
    destruct (run_edit_globals _ _ _ _ _ _ Hrun) as (_ & _ & Hcache).
    destruct r as [[]| |]; [|by rewrite Hcache..].
    destruct Hcache as (pg & ->). intros h. rewrite lookup_insert.
    case_decide as Hh; [|apply Hcw]. subst h. intros _.
    by apply (run_edit_registered _ _ _ _ _ _ Hrun).
  - rewrite Hn, Hd, Hc. split; [split; [done|]|]; intros h; rewrite lookup_empty;
      by intros [? ?].
Qed.

Lemma run_registry (ops : list Operation) (w : World) :
  handles_in_order w → cache_within_registry w →
  handles_in_order (run ops w) ∧ cache_within_registry (run ops w).
Proof.
  revert w. induction ops as [|op ops IH]; intros w Ho Hc; [done|].
  cbn [run]. destruct (perform_registry op w Ho Hc). by apply IH.
Qed.

Lemma perform_stale (op : Operation) (w : World) (h : Z) :
  handles_in_order w →
  g_documents w !! h = None → h < g_nextHandle w →
  g_documents (perform op w) !! h = None ∧ h < g_nextHandle (perform op w).
Proof.
  intros Ho Hnone Hlt.
  destruct (perform_documents op w) as [Hn Hd].
  destruct op as [buffer password|handle|handle|handle|handle pageIndex scale
                 |handle pageIndex|handle pageIndex e|];
    try (rewrite Hn, Hd; done).
  - cbn [perform] in *.
    destruct (OpenDocument buffer password w) as [[h0| |] w'] eqn:Hopen; cbn [fst snd] in *.
    + destruct (openDocument_fresh _ _ _ _ _ Ho Hopen)
        as (-> & _ & _ & Hothers & Hnext & _).
      rewrite Hothers by lia. split; [done|lia].
    + by rewrite Hn, Hd.
    + by rewrite Hn, Hd.
  - rewrite Hn, Hd. split; [|done]. apply lookup_delete_None. by right.
Qed.

Lemma run_stale (ops : list Operation) (w : World) (h : Z) :
  handles_in_order w → cache_within_registry w →
  g_documents w !! h = None → h < g_nextHandle w →
  g_documents (run ops w) !! h = None.
Proof.
  revert w. induction ops as [|op ops IH]; intros w Ho Hc Hnone Hlt; [done|].
  cbn [run]. destruct (perform_stale op w h Ho Hnone Hlt) as [Hnone' Hlt'].
  destruct (perform_registry op w Ho Hc) as [Ho' Hc'].
  by apply IH.
Qed.

Lemma initial_registry (l0 : LibState) :
  handles_in_order (initial_world l0) ∧ cache_within_registry (initial_world l0).
Proof.
  split; [split; [done|]|]; intros h; cbn; rewrite lookup_empty; by intros [? ?].
Qed.

(** X5.  After any sequence of calls from the state at module load, every
    registered handle lies between 1 and the handle counter, and every handle
    with cached pages is registered: no cached page outlives its document. *)
Theorem registry_bounds_the_cache (l0 : LibState) (ops : list Operation) (h i : Z) :
  let w := run ops (initial_world l0) in
  1 ≤ g_nextHandle w ∧
  (is_Some (g_documents w !! h) → 1 ≤ h < g_nextHandle w) ∧
  (is_Some (cache_lookup w h i) → is_Some (g_documents w !! h)).
Proof.
  destruct (initial_registry l0) as [Ho Hc].
  destruct (run_registry ops _ Ho Hc) as [[Hpos Hord] Hcw]. cbn zeta.
  split_and!; [done|apply Hord|].
  intros [cp Hcp]. apply Hcw. unfold cache_lookup in Hcp.
  destruct (g_pageCache _ !! h); [eauto|done].
Qed.

(** X6.  In a state reached from module load, a successful [OpenDocument]
    returns the value of the handle counter, which was not registered before
    (and is at least 1); it registers that handle, advances the counter by
    one and keeps every other registration and the cache as they were. *)
Theorem openDocument_registers_fresh_handle (l0 : LibState) (ops : list Operation)
    (buffer : option (list byte)) (password : option string) (handle : Z) (w' : World) :
  let w := run ops (initial_world l0) in
  OpenDocument buffer password w = (Ok handle, w') →
  1 ≤ handle ∧ handle = g_nextHandle w ∧
  g_documents w !! handle = None ∧
  is_Some (g_documents w' !! handle) ∧
  (∀ h, h ≠ handle → g_documents w' !! h = g_documents w !! h) ∧
  g_nextHandle w' = handle + 1 ∧
  g_pageCache w' = g_pageCache w.
Proof.
  cbn zeta. intros Hopen.
  destruct (initial_registry l0) as [Ho Hc].
  destruct (run_registry ops _ Ho Hc) as [Ho' _].
  destruct (openDocument_fresh _ _ _ _ _ Ho' Hopen) as (-> & ? & ? & ? & ? & ? & _).
  destruct Ho' as [Hpos _]. split_and!; done.
Qed.

(** X7.  A handle is never reused: in a state reached from module load, a
    handle below the counter that is not registered (one that was closed)
    stays unregistered whatever is called afterwards.  The counter only
    grows; its increment past INT_MAX is undefined behaviour in the source
    and registers nothing here. *)
Theorem closed_handle_never_reused (l0 : LibState) (before after : list Operation) (h : Z) :
  let w := run before (initial_world l0) in
  g_documents w !! h = None → h < g_nextHandle w →
  g_documents (run after w) !! h = None.
Proof.
  cbn zeta. intros Hnone Hlt.
  destruct (initial_registry l0) as [Ho Hc].
  destruct (run_registry before _ Ho Hc) as [Ho' Hc'].
  by apply run_stale.
Qed.

(** X8.  A call on one handle leaves every other handle alone: its
    registration and its cached pages are as before. *)
Theorem operations_leave_other_handles_alone (op : Operation) (w : World) (h h' : Z) :
  op_handle op = Some h → h' ≠ h →
  g_documents (perform op w) !! h' = g_documents w !! h' ∧
  ∀ i, cache_lookup (perform op w) h' i = cache_lookup w h' i.
Proof.
  intros Hop Hne.
  destruct (perform_documents op w) as [_ Hd].
  pose proof (perform_cache op w) as Hc. unfold cache_lookup.
  destruct op as [buffer password|handle|handle|handle|handle pageIndex scale
                 |handle pageIndex|handle pageIndex e|]; simplify_eq/=;
    rewrite ?Hd.
  - split; [by rewrite lookup_delete_ne|]. intros i. rewrite Hc.
    case_decide; [by rewrite lookup_delete_ne|done].
  - by rewrite Hc.
  - split; [done|]. intros i. rewrite Hc.
    case_decide; [by rewrite lookup_delete_ne|done].
  - by rewrite Hc.
  - by rewrite Hc.
  - split; [done|]. intros i.
    destruct (run_edit h pageIndex e w) as [r w'] eqn:Hrun.
    destruct (run_edit_globals _ _ _ _ _ _ Hrun) as (_ & _ & Hcache). cbn.
    destruct r as [[]| |]; [|by rewrite Hcache..].
    destruct Hcache as (pg & ->). by rewrite lookup_insert_ne.
Qed.

End Registry.

(** ** Listing and editing page objects (objects.cc) *)

Lemma mutation_results_close ps : mutation_results (CallClosePage <$> ps) = [].
Proof. by induction ps. Qed.

Lemma mutation_results_documents ds : mutation_results (CallCloseDocument <$> ds) = [].
Proof. by induction ds. Qed.

Section Objects.
Context `{PDF : Pdfium}.

Lemma AcquirePage_cached handle doc pageIndex (w : World) cp :
  cache_lookup w handle pageIndex = Some cp →
  AcquirePage handle doc pageIndex w = (Ok (Some (page cp), true), w).
Proof. unfold cache_lookup, AcquirePage. intros H. munfold. by rewrite H. Qed.

Lemma cache_lookup_insert (w w' : World) handle pageIndex cp :
  g_pageCache w' = <[handle := <[pageIndex := cp]> (default ∅ (g_pageCache w !! handle))]>
                     (g_pageCache w) →
  cache_lookup w' handle pageIndex = Some cp ∧
  ∀ h i, (h, i) ≠ (handle, pageIndex) → cache_lookup w' h i = cache_lookup w h i.
Proof.
  intros Hc. unfold cache_lookup. rewrite Hc. split.
  - rewrite lookup2_insert. by rewrite decide_True.
  - intros h i Hne. rewrite lookup2_insert. rewrite decide_False; [done|].
    intros [-> ->]. done.
Qed.

Lemma edit_success (handle pageIndex : Z) (e : EditCall) (w : World) (w' : World) :
  run_edit handle pageIndex e w = (Ok tt, w') →
  ∃ pg evs,
    g_pageCache w' = <[handle := <[pageIndex := {| page := pg; dirty := true |}]>
                                  (default ∅ (g_pageCache w !! handle))]> (g_pageCache w) ∧
    trace w' = trace w ++ evs ∧
    loaded_pages evs = match cache_lookup w handle pageIndex with
                       | Some _ => [] | None => [pg] end ∧
    (∀ cp, cache_lookup w handle pageIndex = Some cp → page cp = pg) ∧
    closed_pages evs = [] ∧ regenerated evs = [] ∧ serialized evs = [] ∧
    mutation_results evs = [true].
Proof.
  unfold cache_lookup.
  destruct e; cbn [run_edit];
    unfold EditTextObject, ReplaceImageObject, ReplaceImageObjectBitmap,
           RequireDocument, AcquirePage, ReleasePage, CachePageDirty, out_of_range;
    intros H; mcases.
  all: repeat match goal with
         | H : negb ?b = false |- _ => apply negb_false_iff in H; subst b
         end.
  all: eexists _, _; split; [reflexivity|]; split; [solve_trace|];
       cbn; split_and!; try done; by intros ? [= <-].
Qed.

(** X9.  An edit that returns leaves the page in the cache, marked dirty and
    open: the page is loaded only when it was not cached already (a cached
    page is reused), it is not closed, and exactly one mutation is made,
    which succeeded.  Nothing is regenerated or serialized, and no other
    cache entry changes. *)
Theorem successful_edit_keeps_page_open_and_dirty (handle pageIndex : Z) (e : EditCall)
    (w w' : World) :
  run_edit handle pageIndex e w = (Ok tt, w') →
  ∃ pg evs,
    cache_lookup w' handle pageIndex = Some {| page := pg; dirty := true |} ∧
    (∀ h i, (h, i) ≠ (handle, pageIndex) → cache_lookup w' h i = cache_lookup w h i) ∧
    (∀ cp, cache_lookup w handle pageIndex = Some cp → page cp = pg) ∧
    trace w' = trace w ++ evs ∧
    loaded_pages evs = match cache_lookup w handle pageIndex with
                       | Some _ => [] | None => [pg] end ∧
    closed_pages evs = [] ∧ regenerated evs = [] ∧ serialized evs = [] ∧
    mutation_results evs = [true] ∧
    g_documents w' = g_documents w.
Proof.
  intros Hrun.
  destruct (edit_success _ _ _ _ _ Hrun)
    as (pg & evs & Hcache & Htr & Hload & Hsame & Hcl & Hre & Hse & Hmu).
  destruct (cache_lookup_insert _ _ _ _ _ Hcache) as [Hl Hothers].
  destruct (run_edit_globals _ _ _ _ _ _ Hrun) as (Hdocs & _).
  exists pg, evs. split_and!; done.
Qed.

(** X10.  An edit aimed at an object of the wrong kind (a text edit at an
    object that is not text, an image replacement at an object that is not
    an image) throws a TypeError that names the object, after releasing the
    page: no mutation is attempted. *)
Theorem edit_wrong_object_kind (handle pageIndex : Z) (e : EditCall) (doc : FPDF_DOCUMENT)
    (w : World) (pg : FPDF_PAGE) (fromCache : bool) (w1 : World) :
  g_documents w !! handle = Some doc →
  passes_argument_check e →
  AcquirePage handle doc pageIndex w = (Ok (Some pg, fromCache), w1) →
  0 ≤ edit_objectId e < FPDFPage_CountObjects (lib w1) pg →
  FPDFPageObj_GetType (lib w1) (FPDFPage_GetObject (lib w1) pg (edit_objectId e))
    ≠ edit_expected_type e →
  run_edit handle pageIndex e w
  = (Throw JsTypeError
       (edit_name e +:+ ": object " +:+ to_string (edit_objectId e) +:+
        " is not " +:+ edit_expected_kind e),
     (ReleasePage handle pageIndex pg fromCache w1).2).
Proof.
  intros Hdoc Hargs Hacq Hrange Htype.
  pose proof (RequireDocument_found _ _ _ Hdoc) as Hreq.
  destruct (ReleasePage_spec handle pageIndex pg fromCache w1) as (l & Hrel).
  destruct e as [o text|o img fmt|o px width height];
    cbn [run_edit edit_objectId edit_name passes_argument_check edit_expected_type
         edit_expected_kind] in *.
  - unfold EditTextObject. unfold bind at 1. rewrite Hreq.
    unfold bind at 1. rewrite Hacq. unfold bind at 1, query at 1.
    rewrite decide_False by lia.
    unfold bind at 1, query at 1. unfold bind at 1, query at 1.
    rewrite decide_True by done.
    unfold bind at 1. rewrite Hrel. done.
  - unfold ReplaceImageObject. unfold bind at 1. rewrite Hreq.
    unfold bind at 1. rewrite Hacq. unfold bind at 1, query at 1.
    rewrite decide_False by lia.
    unfold bind at 1, query at 1. unfold bind at 1, query at 1.
    rewrite decide_True by done.
    unfold bind at 1. rewrite Hrel. done.
  - unfold ReplaceImageObjectBitmap. unfold bitmap_buffer_large_enough in Hargs.
    destruct (checked_int (width * height)) as [area|]; [|done].
    destruct (checked_int (area * BYTES_PER_PIXEL)) as [size|] eqn:Hsz; [|done].
    unfold bind at 1. unfold checked at 1, ret at 1.
    unfold bind at 1. rewrite Hsz. unfold checked at 1, ret at 1.
    rewrite decide_False by lia.
    unfold bind at 1. rewrite Hreq.
    unfold bind at 1. rewrite Hacq. unfold bind at 1, query at 1.
    rewrite decide_False by lia.
    unfold bind at 1, query at 1. unfold bind at 1, query at 1.
    rewrite decide_True by done.
    unfold bind at 1. rewrite Hrel. done.
Qed.
(** X11.  [ReplaceImageObjectBitmap] with a buffer shorter than
    [width * height * 4] bytes throws a RangeError that states the expected
    size, before it looks at the handle: the world is unchanged, for any
    handle, registered or not. *)
Theorem replaceImageObjectBitmap_small_buffer (handle pageIndex objectId : Z)
    (bgraData : list byte) (width height : Z) (w : World) :
  in_int_range (width * height) = true →
  in_int_range (width * height * 4) = true →
  wrap_int (Z.of_nat (length bgraData)) < width * height * 4 →
  ReplaceImageObjectBitmap handle pageIndex objectId bgraData width height w
  = (Throw JsRangeError
       ("replaceImageObjectBitmap: bgraData buffer too small. " +:+
        "Expected " +:+ to_string (width * height * 4) +:+ " bytes for " +:+
        to_string width +:+ "x" +:+ to_string height +:+ " BGRA"), w).
Proof.
  intros H1 H2 Hsmall. unfold ReplaceImageObjectBitmap, checked_int, BYTES_PER_PIXEL.
  rewrite H1. unfold bind at 1, checked at 1, ret at 1.
  rewrite H2. unfold bind at 1, checked at 1, ret at 1.
  by rewrite decide_True.
Qed.
Lemma GetObjectTypeName_text (type : Z) :
  GetObjectTypeName type = "text" ↔ type = FPDF_PAGEOBJ_TEXT.
Proof.
  unfold GetObjectTypeName. repeat case_decide; split; intros; try done; subst; done.
Qed.

Lemma list_entry_text l pg tp i :
  is_Some (entry_text (list_entry l pg tp i)) →
  entry_type (list_entry l pg tp i) = "text" ∧ is_Some tp.
Proof.
  unfold list_entry.
  destruct (default _ (FPDFPageObj_GetBounds _ _)) as [[[x0 y0] x1] y1]. cbn.
  destruct tp as [tp|]; [|by intros [? ?]].
  case_decide as Ht; [|by intros [? ?]]. intros _. split; [|eauto].
  by apply GetObjectTypeName_text.
Qed.

Lemma list_entry_id l pg tp i : entry_id (list_entry l pg tp i) = i.
Proof.
  unfold list_entry.
  by destruct (default _ (FPDFPageObj_GetBounds _ _)) as [[[x0 y0] x1] y1].
Qed.

(** X12.  On a registered handle whose page loads, [ListPageObjects] returns
    one entry per object of the page, with the ids [0, 1, ..., count - 1] in
    this order.  Every entry's type is one of the six type names, and only
    entries of type "text" carry a text.  The cache and the registry are as
    before. *)
Theorem listPageObjects_entries (handle pageIndex : Z) (doc : FPDF_DOCUMENT) (w : World)
    (pg : FPDF_PAGE) (fromCache : bool) (w1 : World) :
  g_documents w !! handle = Some doc →
  AcquirePage handle doc pageIndex w = (Ok (Some pg, fromCache), w1) →
  ∃ result w',
    ListPageObjects handle pageIndex w = (Ok result, w') ∧
    entry_id <$> result = seqZ 0 (FPDFPage_CountObjects (lib w1) pg) ∧
    Forall (λ e, is_Some (entry_text e) → entry_type e = "text") result ∧
    Forall (λ e, entry_type e ∈ ["text"; "path"; "image"; "shading"; "form"; "unknown"])
           result ∧
    g_pageCache w' = g_pageCache w ∧ g_documents w' = g_documents w.
Proof.
  intros Hdoc Hacq.
  pose proof (RequireDocument_found _ _ _ Hdoc) as Hreq.
  destruct (AcquirePage_globals _ _ _ _ _ _ Hacq) as [Hcache Hdocs].
  unfold ListPageObjects. unfold bind at 1. rewrite Hreq.
  unfold bind at 1. rewrite Hacq.
  unfold bind at 1, query at 1. unfold bind at 1, call at 1.
  destruct (FPDFText_LoadPage (lib w1) pg) as [tp l2] eqn:Htp.
  unfold bind at 1, query at 1. cbn [lib lib_step].
  set (result := list_entry l2 pg tp <$> seqZ 0 (FPDFPage_CountObjects (lib w1) pg)).
  assert (Hres : entry_id <$> result = seqZ 0 (FPDFPage_CountObjects (lib w1) pg) ∧
            Forall (λ e, is_Some (entry_text e) → entry_type e = "text") result ∧
            Forall (λ e, entry_type e ∈ ["text"; "path"; "image"; "shading"; "form"; "unknown"])
                   result).
  { subst result. split_and!.
    - rewrite <- list_fmap_compose.
      rewrite <- (list_fmap_id (seqZ 0 _)) at 2. apply list_fmap_ext.
      intros ? x _. apply list_entry_id.
    - apply Forall_fmap, Forall_forall. intros x _ Hx. by apply list_entry_text in Hx as [? _].
    - apply Forall_fmap, Forall_forall. intros x _. cbn. unfold list_entry.
      destruct (default _ (FPDFPageObj_GetBounds _ _)) as [[[x0 y0] x1] y1]. cbn.
      unfold GetObjectTypeName. repeat case_decide; set_solver. }
  destruct Hres as (H1 & H2 & H3).
  unfold ReleasePage.
  destruct tp as [tp|], fromCache; munfold; cbn; eexists _, _;
    (split; [reflexivity|]); split_and!; done.
Qed.

Lemma ListPageObjects_calls (handle pageIndex : Z) (w : World) r w' :
  ListPageObjects handle pageIndex w = (r, w') →
  g_pageCache w' = g_pageCache w ∧ g_documents w' = g_documents w ∧
  r ≠ Undefined ∧
  ∃ evs, trace w' = trace w ++ evs ∧
    regenerated evs = [] ∧ serialized evs = [] ∧ mutation_results evs = [] ∧
    (is_Some (cache_lookup w handle pageIndex) → loaded_pages evs = [] ∧ closed_pages evs = []) ∧
    closed_pages evs = loaded_pages evs ∧
    closed_text_pages evs = opened_text_pages evs.
Proof.
  unfold cache_lookup.
  unfold ListPageObjects, RequireDocument, AcquirePage, ReleasePage. intros H. mcases.
  all: split; [done|]; split; [done|]; split; [done|].
  all: eexists; split; [solve_trace|]; cbn; split_and!; try done;
       try (intros [? ?]; congruence).
Qed.
(** X13.  [ListPageObjects] only reads: whatever its result, the cache and
    the registry are unchanged and nothing is mutated, regenerated or
    serialized.  It closes every page it loaded and every text page it
    opened, and for a cached page it loads and closes no page at all. *)
Theorem listPageObjects_releases_what_it_opens (handle pageIndex : Z) (w : World) :
  ∃ r w' evs,
    ListPageObjects handle pageIndex w = (r, w') ∧ r ≠ Undefined ∧
    g_pageCache w' = g_pageCache w ∧ g_documents w' = g_documents w ∧
    trace w' = trace w ++ evs ∧
    regenerated evs = [] ∧ serialized evs = [] ∧ mutation_results evs = [] ∧
    closed_pages evs = loaded_pages evs ∧
    closed_text_pages evs = opened_text_pages evs ∧
    (is_Some (cache_lookup w handle pageIndex) → loaded_pages evs = []).
Proof.
  destruct (ListPageObjects handle pageIndex w) as [r w'] eqn:Hrun.
  destruct (ListPageObjects_calls _ _ _ _ _ Hrun)
    as (Hc & Hd & Hr & evs & Htr & Hre & Hse & Hmu & Hcached & Hcl & Htx).
  exists r, w', evs. split_and!; try done.
  intros Hin. by destruct (Hcached Hin).
Qed.

(** X14.  The read callback handed to PDFium for JPEG data: for a request
    that lies within the buffer it delivers exactly the requested bytes, and
    it refuses a request that reaches past the end of the buffer. *)
Theorem BufferReadBlock_bounds (data : list byte) (position size : Z) :
  0 ≤ position → 0 ≤ size → position + size < 2 ^ 64 →
  (position + size ≤ Z.of_nat (length data) →
     ∃ block, BufferReadBlock data position size = Some block ∧
       length block = Z.to_nat size ∧
       ∀ k, (k < Z.to_nat size)%nat → block !! k = data !! (Z.to_nat position + k)%nat) ∧
  (Z.of_nat (length data) < position + size →
     BufferReadBlock data position size = None).
Proof.
  intros Hp Hs Hwrap. unfold BufferReadBlock, wrap_ulong.
  rewrite Z.mod_small by lia. split.
  - intros Hin. rewrite decide_False by lia. eexists. split; [reflexivity|]. split.
    + rewrite length_take, length_drop. lia.
    + intros k Hk. rewrite lookup_take_lt by done. by rewrite lookup_drop.
  - intros Hout. by rewrite decide_True by lia.
Qed.


End Objects.

(** ** Rendering (render.cc) *)

Section Rendering.
Context `{PDF : Pdfium}.

(** X15.  On a registered handle, [RenderPage] rejects a page index outside
    [0, pageCount - 1] with a RangeError that states the bounds, and then a
    scale that is not positive with a RangeError; in both cases no page is
    loaded and the world is unchanged. *)
Theorem renderPage_rejects_bad_arguments (handle pageIndex : Z) (scale : float)
    (doc : FPDF_DOCUMENT) (w : World) :
  g_documents w !! handle = Some doc →
  let count := FPDF_GetPageCount (lib w) doc in
  (pageIndex < 0 ∨ pageIndex >= count → in_int_range (count - 1) = true →
   RenderPage handle pageIndex scale w
   = (Throw JsRangeError ("renderPage: pageIndex " +:+ to_string pageIndex +:+
                          " out of range [0, " +:+ to_string (count - 1) +:+ "]"), w)) ∧
  (0 ≤ pageIndex < count → (scale <=? 0)%float = true →
   RenderPage handle pageIndex scale w
   = (Throw JsRangeError "renderPage: scale must be > 0", w)).
Proof.
  intros Hdoc count.
  pose proof (RequireDocument_found _ _ _ Hdoc) as Hreq.
  split.
  - intros Hout Hcount. unfold RenderPage. unfold bind at 1. rewrite Hreq.
    unfold bind at 1, query at 1. fold count. rewrite decide_True by done.
    unfold checked_int. rewrite Hcount. done.
  - intros Hin Hscale. unfold RenderPage. unfold bind at 1. rewrite Hreq.
    unfold bind at 1, query at 1. fold count. rewrite decide_False by lia.
    by rewrite Hscale.
Qed.

Lemma RenderPage_calls (handle pageIndex : Z) (scale : float) (w : World) r w' :
  RenderPage handle pageIndex scale w = (r, w') →
  g_pageCache w' = g_pageCache w ∧ g_documents w' = g_documents w ∧
  ∃ evs, trace w' = trace w ++ evs ∧
    regenerated evs = [] ∧ serialized evs = [] ∧ mutation_results evs = [] ∧
    (length (loaded_pages evs) ≤ 1)%nat ∧
    (is_Some (cache_lookup w handle pageIndex) → loaded_pages evs = [] ∧ closed_pages evs = []) ∧
    (r ≠ Undefined → closed_pages evs = loaded_pages evs).
Proof.
  unfold cache_lookup.
  unfold RenderPage, RequireDocument, AcquirePage, ReleasePage. intros H. mcases.
  all: split; [done|]; split; [done|].
  all: eexists; split; [solve_trace|]; cbn; split_and!; try done; try lia;
       try (intros [? ?]; congruence).
Qed.

(** X16.  [RenderPage] only reads: whatever its result, the cache and the
    registry are unchanged and nothing is mutated, regenerated or
    serialized.  It loads at most one page, closes the page it loaded unless
    the behaviour is undefined, and for a cached page it loads and closes
    nothing. *)
Theorem renderPage_changes_nothing (handle pageIndex : Z) (scale : float) (w : World) :
  ∃ r w' evs,
    RenderPage handle pageIndex scale w = (r, w') ∧
    g_pageCache w' = g_pageCache w ∧ g_documents w' = g_documents w ∧
    trace w' = trace w ++ evs ∧
    regenerated evs = [] ∧ serialized evs = [] ∧ mutation_results evs = [] ∧
    (length (loaded_pages evs) ≤ 1)%nat ∧
    (r ≠ Undefined → closed_pages evs = loaded_pages evs) ∧
    (is_Some (cache_lookup w handle pageIndex) →
       loaded_pages evs = [] ∧ closed_pages evs = []).
Proof.
  destruct (RenderPage handle pageIndex scale w) as [r w'] eqn:Hrun.
  destruct (RenderPage_calls _ _ _ _ _ _ Hrun)
    as (Hc & Hd & evs & Htr & Hre & Hse & Hmu & Hlen & Hcached & Hcl).
  exists r, w', evs. split_and!; done.
Qed.

(** X17.  After a successful edit of a page, [RenderPage] of that page works
    on the cached page the edit left, so it shows the edit without a save:
    the result is computed from that page, the cache entry stays, and the
    library state is the one before the rendering. *)
Theorem render_after_edit_uses_cached_page (handle pageIndex : Z) (e : EditCall)
    (scale : float) (doc : FPDF_DOCUMENT) (w w1 : World) :
  run_edit handle pageIndex e w = (Ok tt, w1) →
  g_documents w !! handle = Some doc →
  0 ≤ pageIndex < FPDF_GetPageCount (lib w1) doc →
  (scale <=? 0)%float = false →
  ∃ pg w2,
    cache_lookup w1 handle pageIndex = Some {| page := pg; dirty := true |} ∧
    RenderPage handle pageIndex scale w1 = (render_loaded (lib w1) pg scale, w2) ∧
    g_pageCache w2 = g_pageCache w1 ∧
    (render_loaded (lib w1) pg scale ≠ Undefined → lib w2 = lib w1).
Proof.
  intros Hedit Hdoc Hrange Hscale.
  destruct (run_edit_globals _ _ _ _ _ _ Hedit) as (Hdocs & _ & pg & Hcache).
  destruct (cache_lookup_insert _ _ _ _ _ Hcache) as [Hl _].
  pose proof (AcquirePage_cached handle doc pageIndex w1 _ Hl) as Hacq. cbn in Hacq.
  assert (Hdoc1 : g_documents w1 !! handle = Some doc) by (by rewrite Hdocs).
  destruct (RenderPage_acquired _ _ _ _ _ _ _ _ Hdoc1 Hrange Hscale Hacq)
    as (w2 & Hrun & _ & Hc2 & Hrel).
  exists pg, w2. split_and!; try done.
  intros Hdef. by destruct (Hrel Hdef) as [-> _].
Qed.

Lemma mapM_concat_lookup {A B} (f : A → option (list B)) (n : nat) (l : list A) k :
  (∀ x y, f x = Some y → length y = n) →
  mapM f l = Some k →
  ∀ i a, l !! i = Some a →
    ∃ y, f a = Some y ∧ ∀ j, (j < n)%nat → concat k !! (i * n + j)%nat = y !! j.
Proof.
  intros Hf. revert k. induction l as [|x l IH]; intros k Hk i a Hi; [done|].
  cbn in Hk. destruct (f x) as [y|] eqn:Hy; [|done]. cbn in Hk.
  destruct (mapM f l) as [k'|] eqn:Hk'; [|done]. injection Hk as <-.
  destruct i as [|i]; cbn in Hi.
  - injection Hi as <-. exists y. split; [done|]. intros j Hj. cbn.
    rewrite lookup_app_l by (rewrite (Hf _ _ Hy); lia). done.
  - destruct (IH k' eq_refl i a Hi) as (y' & Hy' & Hl). exists y'. split; [done|].
    intros j Hj. cbn. rewrite lookup_app_r by (rewrite (Hf _ _ Hy); lia).
    rewrite (Hf _ _ Hy). rewrite <- (Hl j Hj). f_equal. lia.
Qed.

Lemma convert_pixel_length src stride y x p :
  convert_pixel src stride y x = Some p → length p = 4%nat.
Proof. unfold convert_pixel. intros Hp. by simplify_option_eq. Qed.

Lemma convert_pixel_reads src stride y x p :
  convert_pixel src stride y x = Some p →
  let si := y * stride + x * 4 in
  0 ≤ si ∧
  ∃ b g r a,
    src !! Z.to_nat si = Some b ∧ src !! Z.to_nat (si + 1) = Some g ∧
    src !! Z.to_nat (si + 2) = Some r ∧ src !! Z.to_nat (si + 3) = Some a ∧
    p = [r; g; b; a].
Proof.
  intros Hp si. unfold convert_pixel, read_byte, BYTES_PER_PIXEL in Hp. fold si in Hp.
  rewrite Z.add_0_r in Hp.
  repeat case_decide; simplify_option_eq. split; [done|]. by eexists _, _, _, _.
Qed.

(** X18.  The pixel conversion of [RenderPage]: the output is tightly
    packed, [width * 4] bytes per row, and the pixel at column [x] of row
    [y] holds the source pixel (read at the bitmap's stride) with its first
    and third bytes exchanged: BGRA becomes RGBA. *)
Theorem convert_rows_swaps_red_and_blue (src : list byte) (stride width height : Z)
    (pixels : list byte) (x y : Z) :
  convert_rows src stride width height = Some pixels →
  0 ≤ y < height → 0 ≤ x < width →
  let si := y * stride + x * 4 in
  let di := Z.to_nat (y * (width * 4) + x * 4) in
  0 ≤ si ∧
  ∃ b g r a,
    src !! Z.to_nat si = Some b ∧ src !! Z.to_nat (si + 1) = Some g ∧
    src !! Z.to_nat (si + 2) = Some r ∧ src !! Z.to_nat (si + 3) = Some a ∧
    pixels !! di = Some r ∧ pixels !! (di + 1)%nat = Some g ∧
    pixels !! (di + 2)%nat = Some b ∧ pixels !! (di + 3)%nat = Some a.
Proof.
  intros Hconv Hy Hx si di. unfold convert_rows in Hconv.
  destruct (mapM _ (seqZ 0 height)) as [rows|] eqn:Hrows; [|done].
  injection Hconv as <-.
  assert (Hrow : ∀ y row,
            @concat byte <$> mapM (convert_pixel src stride y) (seqZ 0 width) = Some row →
            length row = (Z.to_nat width * 4)%nat).
  { intros y0 row Hr.
    destruct (mapM _ (seqZ 0 width)) as [px|] eqn:Hpx; [|done].
    injection Hr as <-.
    rewrite (mapM_concat_length _ 4 _ _ (convert_pixel_length src stride y0) Hpx).
    by rewrite length_seqZ. }
  assert (Hyl : seqZ 0 height !! Z.to_nat y = Some y).
  { rewrite lookup_seqZ. split; lia. }
  destruct (mapM_concat_lookup _ _ _ _ Hrow Hrows _ _ Hyl) as (row & Hr & Hrl).
  destruct (mapM _ (seqZ 0 width)) as [px|] eqn:Hpx; [|done].
  injection Hr as <-.
  assert (Hxl : seqZ 0 width !! Z.to_nat x = Some x).
  { rewrite lookup_seqZ. split; lia. }
  destruct (mapM_concat_lookup _ _ _ _ (convert_pixel_length src stride y) Hpx _ _ Hxl)
    as (p & Hp & Hpl).
  assert (Hidx : ∀ j, (j < 4)%nat →
            concat rows !! (di + j)%nat = p !! j).
  { intros j Hj. rewrite <- (Hpl j Hj).
    rewrite <- (Hrl (Z.to_nat x * 4 + j)%nat) by lia. f_equal. subst di. lia. }
  destruct (convert_pixel_reads _ _ _ _ _ Hp) as (Hsi & b & g & r & a & Eb & Eg & Er & Ea & ->).
  fold si in Hsi, Eb, Eg, Er, Ea.
  split; [lia|]. exists b, g, r, a.
  rewrite <- (Nat.add_0_r di) at 1. rewrite !Hidx by lia. done.
Qed.

(** X19.  The pixel conversion never reads outside the bitmap buffer when
    the stride holds a row and the buffer holds [height] rows: it then
    yields [width * height * 4] bytes. *)
Theorem convert_rows_defined (src : list byte) (stride width height : Z) :
  0 ≤ width → 0 ≤ stride → width * 4 ≤ stride →
  stride * height ≤ Z.of_nat (length src) →
  ∃ pixels, convert_rows src stride width height = Some pixels ∧
            length pixels = Z.to_nat (width * height * 4).
Proof.
  intros Hw Hs Hws Hlen.
  assert (Hsome : is_Some (convert_rows src stride width height)).
  { unfold convert_rows. apply fmap_is_Some, mapM_is_Some, Forall_forall.
    intros y Hy%elem_of_seqZ. cbn.
    apply fmap_is_Some, mapM_is_Some, Forall_forall.
    intros x Hx%elem_of_seqZ. cbn.
    unfold convert_pixel, read_byte, BYTES_PER_PIXEL.
    assert (Hb : y * stride + x * 4 + 3 < Z.of_nat (length src)) by nia.
    assert (Hn : 0 ≤ y * stride + x * 4) by nia.
    rewrite !decide_True by lia.
    destruct (lookup_lt_is_Some_2 src (Z.to_nat (y * stride + x * 4 + 2)) ltac:(lia)) as [? ->].
    destruct (lookup_lt_is_Some_2 src (Z.to_nat (y * stride + x * 4 + 1)) ltac:(lia)) as [? ->].
    destruct (lookup_lt_is_Some_2 src (Z.to_nat (y * stride + x * 4 + 0)) ltac:(lia)) as [? ->].
    destruct (lookup_lt_is_Some_2 src (Z.to_nat (y * stride + x * 4 + 3)) ltac:(lia)) as [? ->].
    cbn. eauto. }
  destruct Hsome as [pixels Hp]. exists pixels. split; [done|].
  rewrite (convert_rows_length _ _ _ _ _ Hp).
  destruct (decide (0 ≤ height)).
  - rewrite !Z2Nat.inj_mul by nia. change (Z.to_nat 4) with 4%nat. lia.
  - assert (width * height * 4 ≤ 0) by nia. lia.
Qed.


End Rendering.

(** ** Saving (document.cc) *)

Section Saving.
Context `{PDF : Pdfium}.

Lemma write_blocks_concat (blocks : list (list byte)) :
  write_blocks blocks = concat blocks.
Proof.
  unfold write_blocks.
  assert (H : ∀ acc, foldl (λ data bytes, (WriteBlockCallback data bytes).1) acc blocks
                     = acc ++ concat blocks).
  { induction blocks as [|b bs IH]; intros acc; cbn.
    - by rewrite app_nil_r.
    - rewrite IH. by rewrite <- app_assoc. }
  apply (H []).
Qed.

Lemma entries_singleton {V} (i : Z) (x : V) : entries ({[ i := x ]} : gmap Z V) = [(i, x)].
Proof. unfold entries. by rewrite map_to_list_singleton. Qed.


(** X20.  On a registered handle, [SaveDocument] leaves the handle without
    cached pages and the registry unchanged, whatever its outcome: it has
    closed every cached page of the handle, also when it failed.  When it
    returns
    bytes, every dirty page regenerated successfully, [FPDF_SaveAsCopy]
    reported success, and the bytes are the blocks it wrote, concatenated in
    the order they were written. *)
Theorem saveDocument_outcome (handle : Z) (doc : FPDF_DOCUMENT) (w : World) :
  g_documents w !! handle = Some doc →
  ∃ r w',
    SaveDocument handle w = (r, w') ∧ r ≠ Undefined ∧
    (∀ i, cache_lookup w' handle i = None) ∧
    g_documents w' = g_documents w ∧
    (∃ evs, trace w' = trace w ++ evs ∧
            closed_pages evs = page <$> cached_entries w handle) ∧
    ∀ bytes, r = Ok bytes →
      ∃ w1 blocks l2,
        FlushAndCloseCachedPages handle w = (Ok true, w1) ∧
        FPDF_SaveAsCopy (lib w1) doc 0 = (blocks, true, l2) ∧
        bytes = concat blocks.
Proof.
  intros Hdoc.
  destruct (SaveDocument_spec handle doc w Hdoc) as (flushed & w1 & Hf & Hs).
  destruct (FlushAndCloseCachedPages_spec handle w) as (l & evs & Hf' & _ & Hclosed & _).
  rewrite Hf in Hf'. injection Hf' as Hfl Hw1.
  assert (Hcache : ∀ i, cache_lookup w1 handle i = None).
  { intros i. rewrite Hw1. unfold cache_lookup. cbn. by rewrite lookup_delete_eq. }
  assert (Hdocs : g_documents w1 = g_documents w) by (by rewrite Hw1).
  assert (Htrace : trace w1 = trace w ++ evs) by (by rewrite Hw1).
  destruct flushed.
  - destruct (FPDF_SaveAsCopy (lib w1) doc 0) as [[blocks ok] l2] eqn:Hsave.
    eexists _, _. split; [exact Hs|]. split_and!.
    + by destruct ok.
    + done.
    + done.
    + exists (evs ++ [CallSaveAsCopy doc ok]). cbn. rewrite Htrace, <- app_assoc.
      split; [done|]. rewrite closed_pages_app, Hclosed. cbn. apply app_nil_r.
    + intros bytes Hb. destruct ok; [|done]. injection Hb as <-.
      exists w1, blocks, l2. split_and!; try done. apply write_blocks_concat.
  - eexists _, _. split; [exact Hs|]. split_and!; try done. by exists evs.
Qed.

(** X21.  A page edited twice is loaded once and regenerated once: on a
    handle without cached pages, two successful edits of the same page load
    the page once and keep it open, the cache then holds this one page for
    the handle, and the flush that follows regenerates it once and closes
    it once. *)
Theorem edits_of_a_page_regenerated_once (handle pageIndex : Z) (e1 e2 : EditCall)
    (w w1 w2 : World) :
  g_pageCache w !! handle = None →
  run_edit handle pageIndex e1 w = (Ok tt, w1) →
  run_edit handle pageIndex e2 w1 = (Ok tt, w2) →
  ∃ pg edits b w3 evs,
    trace w2 = trace w ++ edits ∧
    loaded_pages edits = [pg] ∧ closed_pages edits = [] ∧ regenerated edits = [] ∧
    mutation_results edits = [true; true] ∧
    cached_entries w2 handle = [ {| page := pg; dirty := true |} ] ∧
    FlushAndCloseCachedPages handle w2 = (Ok b, w3) ∧
    trace w3 = trace w2 ++ evs ∧
    regenerated evs = [pg] ∧ closed_pages evs = [pg].
Proof.
  intros Hnone H1 H2.
  destruct (edit_success _ _ _ _ _ H1)
    as (pg & evs1 & Hc1 & Htr1 & Hload1 & _ & Hcl1 & Hre1 & _ & Hmu1).
  destruct (edit_success _ _ _ _ _ H2)
    as (pg' & evs2 & Hc2 & Htr2 & Hload2 & Hsame & Hcl2 & Hre2 & _ & Hmu2).
  destruct (cache_lookup_insert _ _ _ _ _ Hc1) as [Hl1 _].
  rewrite Hl1 in Hload2. specialize (Hsame _ Hl1). cbn in Hsame. subst pg'.
  assert (Hw : cache_lookup w handle pageIndex = None).
  { unfold cache_lookup. by rewrite Hnone. }
  rewrite Hw in Hload1.
  assert (Hentries : cached_entries w2 handle = [ {| page := pg; dirty := true |} ]).
  { unfold cached_entries. rewrite Hc2, lookup_insert_eq. cbn.
    rewrite Hc1, lookup_insert_eq, Hnone. cbn.
    rewrite insert_insert_eq, insert_empty. by rewrite entries_singleton. }
  destruct (FlushAndCloseCachedPages_spec handle w2)
    as (l & evs & Hf & Hre & Hcl & _).
  rewrite Hentries in Hre, Hcl.
  eexists pg, (evs1 ++ evs2), _, _, evs. split_and!.
  - by rewrite Htr2, Htr1, app_assoc.
  - by rewrite loaded_pages_app, Hload1, Hload2.
  - by rewrite closed_pages_app, Hcl1, Hcl2.
  - by rewrite regenerated_app, Hre1, Hre2.
  - by rewrite mutation_results_app, Hmu1, Hmu2.
  - done.
  - exact Hf.
  - done.
  - done.
  - done.
Qed.

End Saving.

(** ** Which call does what *)

Section Calls.
Context `{PDF : Pdfium}.

Lemma run_edit_calls (handle pageIndex : Z) (e : EditCall) (w : World) r w' :
  run_edit handle pageIndex e w = (r, w') →
  ∃ evs, trace w' = trace w ++ evs ∧ regenerated evs = [] ∧ serialized evs = [].
Proof.
  destruct e; cbn [run_edit];
    unfold EditTextObject, ReplaceImageObject, ReplaceImageObjectBitmap,
           RequireDocument, AcquirePage, ReleasePage, CachePageDirty, out_of_range;
    intros H; mcases.
  all: eexists; split; [solve_trace|]; done.
Qed.


(** X22.  Only [SaveDocument] regenerates page content or serializes a
    document, and only the three edits mutate page objects: every other
    call, and the cleanup, makes none of these library calls. *)
Theorem only_save_regenerates_only_edits_mutate (op : Operation) (w : World) :
  ∃ evs, trace (perform op w) = trace w ++ evs ∧
    match op with
    | OpSave _ => True
    | _ => regenerated evs = [] ∧ serialized evs = []
    end ∧
    match op with
    | OpEdit _ _ _ => True
    | _ => mutation_results evs = []
    end.
Proof.
  destruct op as [buffer password|handle|handle|handle|handle pageIndex scale
                 |handle pageIndex|handle pageIndex e|]; cbn [perform].
  - destruct (OpenDocument_spec buffer password w) as (w1 & Hinit & Hspec).
    destruct (EnsurePdfiumInit_spec w) as (w1' & Hinit' & _ & _ & _ & _ & Htr).
    rewrite Hinit in Hinit'. injection Hinit' as <-.
    destruct buffer as [bytes|].
    2: { rewrite Hspec. cbn [snd]. eexists. split; [exact Htr|].
         by destruct (g_initialized w). }
    destruct (FPDF_LoadMemDocument _ _ _ _) as [[doc|] l].
    + destruct (in_int_range _); rewrite Hspec; cbn; rewrite Htr, <- app_assoc;
        eexists; (split; [reflexivity|]); by destruct (g_initialized w).
    + rewrite Hspec. cbn. rewrite Htr, <- app_assoc.
      eexists; (split; [reflexivity|]); by destruct (g_initialized w).
  - destruct (g_documents w !! handle) as [doc|] eqn:Hdoc.
    + destruct (CloseDocument_spec handle doc w Hdoc) as (w' & -> & Htr & _).
      eexists. split; [exact Htr|]. cbn [snd].
      rewrite regenerated_app, serialized_app, mutation_results_app.
      by rewrite regenerated_close, serialized_close, mutation_results_close.
    + rewrite CloseDocument_unknown by done. exists []. by rewrite app_nil_r.
  - exists []. rewrite app_nil_r. split; [|done].
    unfold GetPageCount, RequireDocument. mcases.
  - destruct (g_documents w !! handle) as [doc|] eqn:Hdoc.
    + destruct (SaveDocument_spec handle doc w Hdoc) as (flushed & w1 & Hf & ->).
      destruct (FlushAndCloseCachedPages_spec handle w)
        as (l & evs & Hf' & _ & _ & _ & Hmu & _).
      rewrite Hf in Hf'. injection Hf' as -> ->.
      destruct (forallb id _).
      * destruct (FPDF_SaveAsCopy _ doc 0) as [[blocks ok] l2]. cbn.
        eexists. rewrite <- app_assoc. split; [reflexivity|].
        split; [done|]. by rewrite mutation_results_app, Hmu.
      * by exists evs.
    + destruct (unknown_handle_operations handle w Hdoc) as (_ & -> & _).
      exists []. by rewrite app_nil_r.
  - destruct (RenderPage handle pageIndex scale w) as [r w'] eqn:Hrun.
    destruct (RenderPage_calls _ _ _ _ _ _ Hrun)
      as (_ & _ & evs & Htr & Hre & Hse & Hmu & _).
    by exists evs.
  - destruct (ListPageObjects handle pageIndex w) as [r w'] eqn:Hrun.
    destruct (ListPageObjects_calls _ _ _ _ _ Hrun)
      as (_ & _ & _ & evs & Htr & Hre & Hse & Hmu & _).
    by exists evs.
  - destruct (run_edit handle pageIndex e w) as [r w'] eqn:Hrun.
    destruct (run_edit_calls _ _ _ _ _ _ Hrun) as (evs & Htr & Hre & Hse).
    by exists evs.
  - destruct (Cleanup_calls w) as (w' & -> & Htr & _).
    eexists. split; [exact Htr|]. cbn [snd].
    rewrite !regenerated_app, !serialized_app, !mutation_results_app.
    rewrite regenerated_close, serialized_close, mutation_results_close,
      regenerated_documents, serialized_documents, mutation_results_documents.
    by destruct (g_initialized w).
Qed.

End Calls.


(** ** A page that does not load *)

Section LoadFailure.
Context `{PDF : Pdfium}.

(** X23.  The listing and the edits do not check the page index against the
    page count; they rely on [FPDF_LoadPage].  On a registered handle whose
    page is not cached and fails to load, [ListPageObjects], every edit past
    its argument check, and [RenderPage] past its own checks throw an Error
    "failed to load page" that names the function and the index.  The only
    library call is the failed load: nothing is released, and the cache is
    unchanged. *)
Theorem page_load_failure (handle pageIndex : Z) (doc : FPDF_DOCUMENT) (w : World) (l1 : LibState) :
  g_documents w !! handle = Some doc →
  cache_lookup w handle pageIndex = None →
  FPDF_LoadPage (lib w) doc pageIndex = (None, l1) →
  let w1 := lib_step l1 (CallLoadPage doc pageIndex None) w in
  ListPageObjects handle pageIndex w
    = (Throw JsError ("listPageObjects: failed to load page " +:+ to_string pageIndex), w1) ∧
  (∀ e, passes_argument_check e →
     run_edit handle pageIndex e w
     = (Throw JsError (edit_name e +:+ ": failed to load page " +:+ to_string pageIndex), w1)) ∧
  (∀ scale, 0 ≤ pageIndex < FPDF_GetPageCount (lib w) doc → (scale <=? 0)%float = false →
     RenderPage handle pageIndex scale w
     = (Throw JsError ("renderPage: failed to load page " +:+ to_string pageIndex), w1)) ∧
  g_pageCache w1 = g_pageCache w ∧ closed_pages (drop (length (trace w)) (trace w1)) = [].
Proof.
  intros Hdoc Hcache Hload w1.
  pose proof (RequireDocument_found _ _ _ Hdoc) as Hreq.
  pose proof (AcquirePage_uncached handle doc pageIndex w Hcache) as Hacq.
  rewrite Hload in Hacq. cbn [fst snd] in Hacq. fold w1 in Hacq.
  split_and!.
  - unfold ListPageObjects. unfold bind at 1. rewrite Hreq.
    unfold bind at 1. by rewrite Hacq.
  - intros e Hargs.
    destruct e as [o text|o img fmt|o px width height];
      cbn [run_edit edit_name passes_argument_check] in *.
    + unfold EditTextObject. unfold bind at 1. rewrite Hreq.
      unfold bind at 1. by rewrite Hacq.
    + unfold ReplaceImageObject. unfold bind at 1. rewrite Hreq.
      unfold bind at 1. by rewrite Hacq.
    + unfold ReplaceImageObjectBitmap. unfold bitmap_buffer_large_enough in Hargs.
      destruct (checked_int (width * height)) as [area|]; [|done].
      destruct (checked_int (area * BYTES_PER_PIXEL)) as [size|] eqn:Hsz; [|done].
      unfold bind at 1. unfold checked at 1, ret at 1.
      unfold bind at 1. rewrite Hsz. unfold checked at 1, ret at 1.
      rewrite decide_False by lia.
      unfold bind at 1. rewrite Hreq.
      unfold bind at 1. by rewrite Hacq.
  - intros scale Hrange Hscale. unfold RenderPage. unfold bind at 1. rewrite Hreq.
    unfold bind at 1, query at 1. rewrite decide_False by lia.
    rewrite Hscale. unfold bind at 1. by rewrite Hacq.
  - done.
  - subst w1. cbn. by rewrite drop_app_length.
Qed.

End LoadFailure.


(** ** Worked instances on the small library *)

Lemma openDocument_failure_registers_nothing_witness :
  (∃ w' : World (PDF := toy_pdfium),
     OpenDocument (Some []) None (@initial_world toy_pdfium toy_lib)
       = (Throw JsError (GetPdfiumErrorMessage FPDF_ERR_FORMAT), w') ∧
     g_documents w' = g_documents (@initial_world toy_pdfium toy_lib) ∧
     g_nextHandle w' = g_nextHandle (@initial_world toy_pdfium toy_lib)) ∧
  (∃ w' : World (PDF := toy_pdfium),
     OpenDocument None None (@initial_world toy_pdfium toy_lib)
       = (Throw JsTypeError "openDocument: first argument must be a Buffer", w') ∧
     g_documents w' = g_documents (@initial_world toy_pdfium toy_lib) ∧
     g_initialized w' = true).
Proof.
  assert (Hrun : OpenDocument (PDF := toy_pdfium) (Some []) None
                   (@initial_world toy_pdfium toy_lib)
                 = (Throw JsError (GetPdfiumErrorMessage FPDF_ERR_FORMAT),
                    (OpenDocument (Some []) None (@initial_world toy_pdfium toy_lib)).2))
    by (vm_compute; reflexivity).
  assert (Hbad : OpenDocument (PDF := toy_pdfium) None None
                   (@initial_world toy_pdfium toy_lib)
                 = (Throw JsTypeError "openDocument: first argument must be a Buffer",
                    (OpenDocument None None (@initial_world toy_pdfium toy_lib)).2))
    by (vm_compute; reflexivity).
  split.
  - destruct (openDocument_failure_registers_nothing (PDF := toy_pdfium) _ _ _ _ _ _ Hrun)
      as (Hd & Hn & _).
    eexists. split; [exact Hrun|]. split; [exact Hd|exact Hn].
  - destruct (openDocument_failure_registers_nothing (PDF := toy_pdfium) _ _ _ _ _ _ Hbad)
      as (Hd & _ & _ & Hi & _).
    eexists. split; [exact Hbad|]. split; [exact Hd|exact Hi].
Defined.

Lemma registry_bounds_the_cache_witness :
  is_Some (g_documents
             (run [OpOpen (Some ["%"%byte]) None; OpEdit 1 0 (EditText 0 [65])]
                  (@initial_world toy_pdfium toy_lib)) !! 1).
Proof.
  destruct (registry_bounds_the_cache (PDF := toy_pdfium) toy_lib
              [OpOpen (Some ["%"%byte]) None; OpEdit 1 0 (EditText 0 [65])] 1 0)
    as (_ & _ & Hc).
  apply Hc. vm_compute. eexists. reflexivity.
Defined.

Lemma openDocument_registers_fresh_handle_witness :
  ∃ w' : World (PDF := toy_pdfium),
    OpenDocument (Some ["%"%byte]) None toy_opened = (Ok 2, w') ∧
    g_documents toy_opened !! 2 = None ∧
    is_Some (g_documents w' !! 2) ∧
    g_nextHandle w' = 2 + 1.
Proof.
  assert (Hrun : OpenDocument (Some ["%"%byte]) None toy_opened
                 = (Ok 2, (OpenDocument (Some ["%"%byte]) None toy_opened).2))
    by (vm_compute; reflexivity).
  destruct (openDocument_registers_fresh_handle (PDF := toy_pdfium) toy_lib
              [OpOpen (Some ["%"%byte]) None] (Some ["%"%byte]) None 2 _ Hrun)
    as (_ & _ & Hfresh & Hreg & _ & Hnext & _).
  eexists. split; [exact Hrun|]. split; [exact Hfresh|]. split; [exact Hreg|exact Hnext].
Defined.

Lemma closed_handle_never_reused_witness :
  g_documents (run [OpOpen (Some ["%"%byte]) None]
                 (run [OpOpen (Some ["%"%byte]) None; OpClose 1]
                      (@initial_world toy_pdfium toy_lib))) !! 1 = None.
Proof.
  apply (closed_handle_never_reused (PDF := toy_pdfium) toy_lib
           [OpOpen (Some ["%"%byte]) None; OpClose 1] [OpOpen (Some ["%"%byte]) None] 1).
  - vm_compute. reflexivity.
  - vm_compute. reflexivity.
Defined.

Lemma operations_leave_other_handles_alone_witness :
  g_documents (perform (OpClose 1) toy_opened_twice) !! 2
  = g_documents toy_opened_twice !! 2.
Proof.
  assert (Hne : (2 : Z) ≠ 1) by (intro Hc; discriminate Hc).
  destruct (operations_leave_other_handles_alone (PDF := toy_pdfium)
              (OpClose 1) toy_opened_twice 1 2 eq_refl Hne) as [Hd _].
  exact Hd.
Defined.

Lemma successful_edit_keeps_page_open_and_dirty_witness :
  ∃ pg, cache_lookup (run_edit 1 0 (EditText 0 [65]) (toy_world toy_lib)).2 1 0
        = Some {| page := pg; dirty := true |}.
Proof.
  assert (Hrun : run_edit 1 0 (EditText 0 [65]) (toy_world toy_lib)
                 = (Ok tt, (run_edit 1 0 (EditText 0 [65]) (toy_world toy_lib)).2))
    by (vm_compute; reflexivity).
  destruct (successful_edit_keeps_page_open_and_dirty (PDF := toy_pdfium) _ _ _ _ _ Hrun)
    as (pg & evs & Hl & _).
  exists pg. exact Hl.
Defined.

Lemma edit_wrong_object_kind_witness :
  ∃ w' : World (PDF := toy_pdfium),
    run_edit 1 0 (EditText 1 [65]) (toy_world toy_lib)
      = (Throw JsTypeError "editTextObject: object 1 is not a text object", w').
Proof.
  assert (Hdoc : g_documents (toy_world toy_lib) !! 1 = Some 1%positive)
    by (vm_compute; reflexivity).
  assert (Hacq : AcquirePage 1 1%positive 0 (toy_world toy_lib)
                 = (Ok (Some 1%positive, false),
                    (AcquirePage 1 1%positive 0 (toy_world toy_lib)).2))
    by (vm_compute; reflexivity).
  eexists.
  apply (edit_wrong_object_kind (PDF := toy_pdfium) 1 0 (EditText 1 [65])
           1%positive (toy_world toy_lib) 1%positive false _ Hdoc I Hacq).
  - vm_compute. split; [intro Hc; discriminate Hc|reflexivity].
  - vm_compute. intro Hc. discriminate Hc.
Defined.

Lemma replaceImageObjectBitmap_small_buffer_witness :
  ReplaceImageObjectBitmap 9 0 0 [] 2 2 (toy_world toy_lib)
  = (Throw JsRangeError
       "replaceImageObjectBitmap: bgraData buffer too small. Expected 16 bytes for 2x2 BGRA",
     toy_world toy_lib).
Proof.
  apply (replaceImageObjectBitmap_small_buffer (PDF := toy_pdfium) 9 0 0 [] 2 2
           (toy_world toy_lib)).
  - vm_compute. reflexivity.
  - vm_compute. reflexivity.
  - vm_compute. reflexivity.
Defined.

Lemma listPageObjects_entries_witness :
  ∃ result (w' : World (PDF := toy_pdfium)),
    ListPageObjects 1 0 (toy_world toy_lib) = (Ok result, w') ∧
    entry_id <$> result = [0; 1; 2].
Proof.
  assert (Hdoc : g_documents (toy_world toy_lib) !! 1 = Some 1%positive)
    by (vm_compute; reflexivity).
  assert (Hacq : AcquirePage 1 1%positive 0 (toy_world toy_lib)
                 = (Ok (Some 1%positive, false),
                    (AcquirePage 1 1%positive 0 (toy_world toy_lib)).2))
    by (vm_compute; reflexivity).
  destruct (listPageObjects_entries (PDF := toy_pdfium) 1 0 1%positive (toy_world toy_lib)
              1%positive false _ Hdoc Hacq) as (result & w' & Hrun & Hids & _).
  exists result, w'. split; [exact Hrun|]. rewrite Hids. vm_compute. reflexivity.
Defined.

Lemma BufferReadBlock_bounds_witness :
  (∃ block, BufferReadBlock toy_bgra_pixel 1 2 = Some block ∧ length block = 2%nat) ∧
  BufferReadBlock toy_bgra_pixel 1 5 = None.
Proof.
  assert (H0 : 0 ≤ 1) by (intro Hc; discriminate Hc).
  assert (H2 : 0 ≤ 2) by (intro Hc; discriminate Hc).
  assert (H5 : 0 ≤ 5) by (intro Hc; discriminate Hc).
  split.
  - destruct (BufferReadBlock_bounds toy_bgra_pixel 1 2 H0 H2) as [Hin _].
    { vm_compute. reflexivity. }
    destruct Hin as (block & Hb & Hlen & _).
    { vm_compute. intro Hc. discriminate Hc. }
    exists block. split; [exact Hb|exact Hlen].
  - destruct (BufferReadBlock_bounds toy_bgra_pixel 1 5 H0 H5) as [_ Hout].
    { vm_compute. reflexivity. }
    apply Hout. vm_compute. reflexivity.
Defined.

Lemma renderPage_rejects_bad_arguments_witness :
  RenderPage 1 5 1 (toy_world toy_lib)
    = (Throw JsRangeError "renderPage: pageIndex 5 out of range [0, 2]", toy_world toy_lib) ∧
  RenderPage 1 0 0 (toy_world toy_lib)
    = (Throw JsRangeError "renderPage: scale must be > 0", toy_world toy_lib).
Proof.
  assert (Hdoc : g_documents (toy_world toy_lib) !! 1 = Some 1%positive)
    by (vm_compute; reflexivity).
  split.
  - destruct (renderPage_rejects_bad_arguments (PDF := toy_pdfium) 1 5 1 1%positive
                (toy_world toy_lib) Hdoc) as [Hout _].
    apply Hout.
    + right. vm_compute. intro Hc. discriminate Hc.
    + vm_compute. reflexivity.
  - destruct (renderPage_rejects_bad_arguments (PDF := toy_pdfium) 1 0 0 1%positive
                (toy_world toy_lib) Hdoc) as [_ Hscale].
    apply Hscale.
    + vm_compute. split; [intro Hc; discriminate Hc|reflexivity].
    + vm_compute. reflexivity.
Defined.

Lemma render_after_edit_uses_cached_page_witness :
  ∃ pg (w2 : World (PDF := toy_pdfium)),
    RenderPage 1 0 1 (run_edit 1 0 (EditText 0 [65]) (toy_world toy_lib_small)).2
      = (render_loaded
           (lib (run_edit 1 0 (EditText 0 [65]) (toy_world toy_lib_small)).2) pg 1, w2) ∧
    g_pageCache w2
      = g_pageCache (run_edit 1 0 (EditText 0 [65]) (toy_world toy_lib_small)).2.
Proof.
  assert (Hrun : run_edit 1 0 (EditText 0 [65]) (toy_world toy_lib_small)
                 = (Ok tt, (run_edit 1 0 (EditText 0 [65]) (toy_world toy_lib_small)).2))
    by (vm_compute; reflexivity).
  assert (Hdoc : g_documents (toy_world toy_lib_small) !! 1 = Some 1%positive)
    by (vm_compute; reflexivity).
  destruct (render_after_edit_uses_cached_page (PDF := toy_pdfium) 1 0 (EditText 0 [65]) 1
              1%positive _ _ Hrun Hdoc) as (pg & w2 & _ & Hr & Hc & _).
  { vm_compute. split; [intro Hc; discriminate Hc|reflexivity]. }
  { vm_compute. reflexivity. }
  exists pg, w2. split; [exact Hr|exact Hc].
Defined.

Lemma convert_rows_swaps_red_and_blue_witness :
  ∃ pixels, convert_rows toy_bgra_pixel 4 1 1 = Some pixels ∧
            pixels !! 0%nat = toy_bgra_pixel !! 2%nat ∧
            pixels !! 2%nat = toy_bgra_pixel !! 0%nat.
Proof.
  assert (Hc : convert_rows toy_bgra_pixel 4 1 1 = Some ["003"; "002"; "001"; "004"]%byte)
    by (vm_compute; reflexivity).
  assert (H01 : 0 ≤ 0 < 1) by (split; [intro Hx; discriminate Hx|reflexivity]).
  destruct (convert_rows_swaps_red_and_blue toy_bgra_pixel 4 1 1 _ 0 0 Hc H01 H01)
    as (_ & b & g & r & a & Eb & _ & Er & _ & Pr & _ & Pb & _).
  eexists. split; [exact Hc|]. split.
  - exact (eq_trans Pr (eq_sym Er)).
  - exact (eq_trans Pb (eq_sym Eb)).
Defined.

Lemma convert_rows_defined_witness :
  ∃ pixels, convert_rows toy_bgra_pixel 4 1 1 = Some pixels ∧ length pixels = 4%nat.
Proof.
  apply (convert_rows_defined toy_bgra_pixel 4 1 1).
  - intro Hc. discriminate Hc.
  - intro Hc. discriminate Hc.
  - vm_compute. intro Hc. discriminate Hc.
  - vm_compute. intro Hc. discriminate Hc.
Defined.

Lemma saveDocument_outcome_witness :
  ∃ r (w' : World (PDF := toy_pdfium)),
    SaveDocument 1 (toy_edit_two_pages toy_lib_regen_fails) = (r, w') ∧
    cache_lookup w' 1 2 = None ∧
    g_documents w' = g_documents (toy_edit_two_pages toy_lib_regen_fails).
Proof.
  assert (Hdoc : g_documents (toy_edit_two_pages toy_lib_regen_fails) !! 1 = Some 1%positive)
    by (vm_compute; reflexivity).
  destruct (saveDocument_outcome (PDF := toy_pdfium) 1 1%positive _ Hdoc)
    as (r & w' & Hrun & _ & Hcache & Hdocs & _).
  exists r, w'. split; [exact Hrun|]. split; [apply Hcache|exact Hdocs].
Defined.

Lemma edits_of_a_page_regenerated_once_witness :
  ∃ pg b (w3 : World (PDF := toy_pdfium)) evs,
    FlushAndCloseCachedPages 1
      (run_edit 1 0 (EditText 0 [66])
         (run_edit 1 0 (EditText 0 [65]) (toy_world toy_lib)).2).2 = (Ok b, w3) ∧
    trace w3 = trace (run_edit 1 0 (EditText 0 [66])
                        (run_edit 1 0 (EditText 0 [65]) (toy_world toy_lib)).2).2 ++ evs ∧
    regenerated evs = [pg] ∧ closed_pages evs = [pg].
Proof.
  assert (Hnone : g_pageCache (toy_world toy_lib) !! 1 = None)
    by (vm_compute; reflexivity).
  assert (H1 : run_edit 1 0 (EditText 0 [65]) (toy_world toy_lib)
               = (Ok tt, (run_edit 1 0 (EditText 0 [65]) (toy_world toy_lib)).2))
    by (vm_compute; reflexivity).
  assert (H2 : run_edit 1 0 (EditText 0 [66])
                 (run_edit 1 0 (EditText 0 [65]) (toy_world toy_lib)).2
               = (Ok tt, (run_edit 1 0 (EditText 0 [66])
                            (run_edit 1 0 (EditText 0 [65]) (toy_world toy_lib)).2).2))
    by (vm_compute; reflexivity).
  destruct (edits_of_a_page_regenerated_once (PDF := toy_pdfium) 1 0 _ _ _ _ _ Hnone H1 H2)
    as (pg & edits & b & w3 & evs & _ & _ & _ & _ & _ & _ & Hf & Htr & Hre & Hcl).
  exists pg, b, w3, evs. split; [exact Hf|]. split; [exact Htr|]. split; [exact Hre|exact Hcl].
Defined.

Lemma page_load_failure_witness :
  ListPageObjects 1 7 (toy_world toy_lib)
  = (Throw JsError "listPageObjects: failed to load page 7",
     lib_step (PDF := toy_pdfium) toy_lib (CallLoadPage 1%positive 7 None) (toy_world toy_lib)).
Proof.
  assert (Hdoc : g_documents (toy_world toy_lib) !! 1 = Some 1%positive)
    by (vm_compute; reflexivity).
  assert (Hc : cache_lookup (toy_world toy_lib) 1 7 = None) by (vm_compute; reflexivity).
  assert (Hl : FPDF_LoadPage (Pdfium := toy_pdfium) (lib (toy_world toy_lib)) 1%positive 7
               = (None, toy_lib)) by (vm_compute; reflexivity).
  destruct (page_load_failure (PDF := toy_pdfium) 1 7 1%positive (toy_world toy_lib) toy_lib
              Hdoc Hc Hl) as (Hlist & _).
  exact Hlist.
Defined.

(** ** The log is what the library did *)

Section Faithful.
Context `{PDF : Pdfium}.












End Faithful.



Section FaithfulCalls.
Context `{PDF : Pdfium}.























End FaithfulCalls.

(** ** The text handed to PDFium *)

Lemma c_str_prefix (prefix rest : u16string) :
  0 ∉ prefix → c_str (prefix ++ 0 :: rest) = prefix ∧ c_str prefix = prefix.
Proof.
  induction prefix as [|c prefix IH]; intros Hnul; cbn.
  - by rewrite decide_True.
  - apply not_elem_of_cons in Hnul as [Hc Hnul]. rewrite !decide_False by congruence.
    destruct (IH Hnul) as [-> ->]. done.
Qed.

Section TextPassed.
Context `{PDF : Pdfium}.

Lemma EditTextObject_text_passed (handle pageIndex objectId : Z) (newText : u16string)
    (w : World) (obj : option FPDF_PAGEOBJECT) (text : u16string) (ok : bool) :
  CallSetText obj text ok ∈ trace (EditTextObject handle pageIndex objectId newText w).2 →
  CallSetText obj text ok ∈ trace w ∨ text = c_str newText.
Proof.
  destruct (EditTextObject handle pageIndex objectId newText w) as [r w'] eqn:Hrun.
  revert Hrun.
  unfold EditTextObject, RequireDocument, AcquirePage, ReleasePage, CachePageDirty,
         out_of_range.
  intros Hrun. mcases.
  all: rewrite ?elem_of_app, ?list_elem_of_singleton; intuition (simplify_eq; auto).
Qed.

(** X26.  [EditTextObject] hands [FPDFText_SetText] a pointer to the
    characters of [newText], so the library reads the text only up to its
    first U+0000: whatever follows is dropped without an error.  A text with
    an embedded U+0000 gives the outcome and the state of its prefix, and
    the only text a [FPDFText_SetText] call of the edit carries is that
    prefix. *)
Theorem editTextObject_text_ends_at_first_nul (handle pageIndex objectId : Z)
    (prefix rest : u16string) (w : World) :
  0 ∉ prefix →
  EditTextObject handle pageIndex objectId (prefix ++ 0 :: rest) w
  = EditTextObject handle pageIndex objectId prefix w ∧
  ∀ obj text ok,
    CallSetText obj text ok
      ∈ trace (EditTextObject handle pageIndex objectId (prefix ++ 0 :: rest) w).2 →
    CallSetText obj text ok ∈ trace w ∨ text = prefix.
Proof.
  intros Hnul. destruct (c_str_prefix prefix rest Hnul) as [Hcut Hwhole]. split.
  - unfold EditTextObject. by rewrite Hcut, Hwhole.
  - intros obj text ok Hin.
    destruct (EditTextObject_text_passed _ _ _ _ _ _ _ _ Hin) as [Hold|Heq]; [by left|].
    right. by rewrite Heq.
Qed.

End TextPassed.

Lemma editTextObject_text_ends_at_first_nul_witness :
  EditTextObject 1 0 0 ([72; 105] ++ 0 :: [33]) (toy_world toy_lib)
  = EditTextObject 1 0 0 [72; 105] (toy_world toy_lib).
Proof.
  assert (Hnul : 0 ∉ [72; 105]).
  { intros Hin. apply elem_of_cons in Hin as [Hc|Hin]; [discriminate Hc|].
    apply elem_of_cons in Hin as [Hc|Hin]; [discriminate Hc|].
    by apply elem_of_nil in Hin. }
  destruct (editTextObject_text_ends_at_first_nul (PDF := toy_pdfium) 1 0 0
              [72; 105] [33] (toy_world toy_lib) Hnul) as [Heq _].
  exact Heq.
Defined.
